(** * pdf-to-audio: playback position, library store and account gate

    A shallow embedding of the JavaScript sources

    - [scripts/tts-manager.js]      ([TTSManager])
    - [scripts/library-manager.js]  ([LibraryManager])
    - [scripts/pdf-handler.js]      ([PDFHandler])
    - the auth manager              ([AuthManager])
    - [scripts/app.js]              ([App]: the upload path and the
                                    handlers of the progress bar and of
                                    the bookmark button)
    - [scripts/utils.js]            ([Utils])

    and the properties of the playback position, the progress, the
    extracted text, the library store and the accounts.

    How the program is modelled:

    - JavaScript numbers are IEEE 754 binary64 values.  They are modelled
      by [spec_float] with precision 53 and maximal exponent 1024, so
      that every rounding of the source is present in the model.
    - JavaScript strings are modelled by [string]; a character stands for
      a UTF-16 code unit below 256.
    - The objects of the source hold mutable fields; the functions of the
      model take the state of the application and return the new one.
      An [async] function runs to its end before the next call starts.
    - The local storage is modelled by the values it holds and by the
      list of the keys written.  It is taken to accept every write and to
      give every value back as it was written, except where a definition
      says otherwise: [Utils.storageSet_library_fallible] is the write
      that the storage may refuse, and [Utils.json_item] tells which
      values survive the JSON text they are stored as.
    - What the functions send to the page is kept as a list of events;
      how the page renders them is not modelled.
    - Fresh identifiers ([Utils.generateId]) and dates are inputs. *)

From Stdlib Require Import ZArith Bool List Ascii String Lia.
From Stdlib Require Import Floats.SpecFloat.
From stdpp Require Import base option list strings gmap.

Local Open Scope Z_scope.

(** ** JavaScript numbers *)

Module Number.

Definition prec : Z := 53.
Definition emax : Z := 1024.

Definition number : Type := spec_float.

Definition NaN : number := S754_nan.
Definition pos_zero : number := S754_zero false.
Definition neg_zero : number := S754_zero true.

(** The number denoted by an integer literal or an integer-valued
    property such as [String.prototype.length]. *)
Definition of_Z (z : Z) : number := binary_normalize prec emax z 0 false.

Definition add : number -> number -> number := SFadd prec emax.
Definition sub : number -> number -> number := SFsub prec emax.
Definition mul : number -> number -> number := SFmul prec emax.
Definition div : number -> number -> number := SFdiv prec emax.

Definition ltb : number -> number -> bool := SFltb.
Definition leb : number -> number -> bool := SFleb.
Definition eqb : number -> number -> bool := SFeqb.

Definition isNaN (x : number) : bool :=
  match x with S754_nan => true | _ => false end.

(** The numbers of the binary64 format: a finite number has a mantissa
    of at most 53 digits at the exponent the format gives it. *)
Definition valid (x : number) : bool := valid_binary prec emax x.

Definition is_finite (x : number) : bool :=
  match x with S754_zero _ | S754_finite _ _ _ => true | _ => false end.

(** The numbers a string length can be: +0 or a positive finite
    number. *)
Definition is_length (x : number) : bool :=
  match x with
  | S754_zero false | S754_finite false _ _ => true
  | _ => false
  end.

Definition is_pos_zero (x : number) : bool :=
  match x with S754_zero false => true | _ => false end.

Definition is_neg_zero (x : number) : bool :=
  match x with S754_zero true => true | _ => false end.

(** [Math.min(a, b)]: NaN if either argument is NaN, and -0 is smaller
    than +0. *)
Definition min (a b : number) : number :=
  if isNaN a || isNaN b then NaN
  else if is_neg_zero b && is_pos_zero a then b
  else if ltb b a then b else a.

(** [Math.max(a, b)]: NaN if either argument is NaN, and +0 is larger
    than -0. *)
Definition max (a b : number) : number :=
  if isNaN a || isNaN b then NaN
  else if is_pos_zero b && is_neg_zero a then b
  else if ltb a b then b else a.

(** The integer part of a finite number, rounded towards minus infinity. *)
Definition floorZ (s : bool) (m : positive) (e : Z) : Z :=
  let v := if s then Zneg m else Zpos m in
  match e with
  | Z0 => v
  | Zpos _ => v * 2 ^ e
  | Zneg p => v / 2 ^ Zpos p
  end.

(** The integer part of a finite number, rounded towards zero. *)
Definition truncZ (s : bool) (m : positive) (e : Z) : Z :=
  let v := if s then Zneg m else Zpos m in
  match e with
  | Z0 => v
  | Zpos _ => v * 2 ^ e
  | Zneg p => Z.quot v (2 ^ Zpos p)
  end.

(** [Math.floor(x)] *)
Definition floor (x : number) : number :=
  match x with
  | S754_finite s m e =>
      if 0 <=? e then x
      else
        let z := floorZ s m e in
        if z =? 0 then S754_zero s else of_Z z
  | _ => x
  end.

End Number.

Abbreviation number := Number.number.

(** ** JavaScript strings *)

Module JSString.

Definition LF : ascii := "010"%char.
Definition CR : ascii := "013"%char.
Definition SP : ascii := " "%char.

Definition is_LF (c : ascii) : bool := Ascii.eqb c LF.

(** The code units below 256 that the regular-expression class [\s] and
    [String.prototype.trim] treat as white space: TAB, LF, VT, FF, CR,
    SPACE and NO-BREAK SPACE. *)
Definition is_space (c : ascii) : bool :=
  existsb (Ascii.eqb c)
    ["009"; "010"; "011"; "012"; "013"; " "; "160"]%char.

(** The code units below 256 that the regular-expression atom [.] does
    not match. *)
Definition is_line_terminator (c : ascii) : bool :=
  Ascii.eqb c LF || Ascii.eqb c CR.

Definition is_empty (s : string) : bool :=
  match s with EmptyString => true | String _ _ => false end.

Definition charCode (c : ascii) : Z := Z.of_N (N_of_ascii c).

Fixpoint trimStart (s : string) : string :=
  match s with
  | EmptyString => EmptyString
  | String c r => if is_space c then trimStart r else s
  end.

Fixpoint trimEnd (s : string) : string :=
  match s with
  | EmptyString => EmptyString
  | String c r =>
      let r' := trimEnd r in
      if is_space c && is_empty r' then EmptyString else String c r'
  end.

(** [s.trim()] *)
Definition trim (s : string) : string := trimEnd (trimStart s).

Definition lower_char (c : ascii) : ascii :=
  let n := N_of_ascii c in
  if ((65 <=? n) && (n <=? 90) || (192 <=? n) && (n <=? 214)
      || (216 <=? n) && (n <=? 222))%N
  then ascii_of_N (n + 32) else c.

(** [s.toLowerCase()] *)
Fixpoint toLowerCase (s : string) : string :=
  match s with
  | EmptyString => EmptyString
  | String c r => String (lower_char c) (toLowerCase r)
  end.

Fixpoint drop (n : nat) (s : string) : string :=
  match n, s with
  | O, _ => s
  | S _, EmptyString => EmptyString
  | S k, String _ r => drop k r
  end.

(** [s.slice(start)]: the start is converted to an integer by truncation
    (NaN counts as 0), a negative start counts from the end, and the
    result is clamped to the string. *)
Definition slice (s : string) (start : number) : string :=
  let len := Z.of_nat (String.length s) in
  match start with
  | S754_nan | S754_zero _ => s
  | S754_infinity true => s
  | S754_infinity false => EmptyString
  | S754_finite sg m e =>
      let k := Number.truncZ sg m e in
      let from := if k <? 0 then Z.max (len + k) 0 else Z.min k len in
      drop (Z.to_nat from) s
  end.

(** Scanner state of [split_blank] below: inside text, after one line
    feed, or inside a separator. *)
Variant split_state := InText | AfterLF | InSeparator.

(** [s.split(/\n\n+/)], written as one left-to-right scan.  [piece] is
    the piece read so far. *)
Fixpoint split_blank_from (st : split_state) (piece : string) (s : string)
  : list string :=
  match s with
  | EmptyString =>
      match st with
      | InText | InSeparator => [piece]
      | AfterLF => [piece +:+ String LF EmptyString]
      end
  | String c r =>
      if is_LF c then
        match st with
        | InText => split_blank_from AfterLF piece r
        | AfterLF => piece :: split_blank_from InSeparator EmptyString r
        | InSeparator => split_blank_from InSeparator EmptyString r
        end
      else
        match st with
        | InText | InSeparator =>
            split_blank_from InText (piece +:+ String c EmptyString) r
        | AfterLF =>
            split_blank_from InText
              (piece +:+ String LF (String c EmptyString)) r
        end
  end.

Definition split_blank (s : string) : list string :=
  split_blank_from InText EmptyString s.

(** [s.replace(/\s+/g, ' ')] *)
Fixpoint collapse_spaces_from (in_run : bool) (s : string) : string :=
  match s with
  | EmptyString => EmptyString
  | String c r =>
      if is_space c then
        if in_run then collapse_spaces_from true r
        else String SP (collapse_spaces_from true r)
      else String c (collapse_spaces_from false r)
  end.

Definition collapse_spaces (s : string) : string :=
  collapse_spaces_from false s.

(** Scanner state of [collapse_blank_lines_from]: no candidate; one line
    feed seen, followed by the buffered white space; or a match that
    ends at the last line feed seen, followed by the buffered white
    space. *)
Variant blank_state :=
  | NoLF
  | OneLF (buf : string)
  | Matched (buf : string).

(** [s.replace(/\n\s*\n/g, '\n\n')]: the greedy [\s*] extends a match
    to the last line feed of the white-space run that follows the first
    one. *)
Fixpoint collapse_blank_lines_from (st : blank_state) (s : string) : string :=
  match s with
  | EmptyString =>
      match st with
      | NoLF => EmptyString
      | OneLF buf => String LF buf
      | Matched buf => String LF (String LF buf)
      end
  | String c r =>
      if is_LF c then
        match st with
        | NoLF => collapse_blank_lines_from (OneLF EmptyString) r
        | OneLF _ | Matched _ =>
            collapse_blank_lines_from (Matched EmptyString) r
        end
      else if is_space c then
        match st with
        | NoLF => String c (collapse_blank_lines_from NoLF r)
        | OneLF buf =>
            collapse_blank_lines_from (OneLF (buf +:+ String c EmptyString)) r
        | Matched buf =>
            collapse_blank_lines_from (Matched (buf +:+ String c EmptyString)) r
        end
      else
        match st with
        | NoLF => String c (collapse_blank_lines_from NoLF r)
        | OneLF buf =>
            String LF (buf +:+ String c (collapse_blank_lines_from NoLF r))
        | Matched buf =>
            String LF (String LF
              (buf +:+ String c (collapse_blank_lines_from NoLF r)))
        end
  end.

Definition collapse_blank_lines (s : string) : string :=
  collapse_blank_lines_from NoLF s.

(** [s.replace(/<open>.*?<close>/g, '')] for two distinct delimiter
    characters: the lazy [.*?] stops at the first closing delimiter, and
    a line terminator before it makes the candidate fail.  [pending] is
    [Some buf] while a candidate is open, [buf] being the text after its
    opening delimiter. *)
Fixpoint strip_delimited_from (open close : ascii) (pending : option string)
    (s : string) : string :=
  match s with
  | EmptyString =>
      match pending with
      | None => EmptyString
      | Some buf => String open buf
      end
  | String c r =>
      match pending with
      | None =>
          if Ascii.eqb c open
          then strip_delimited_from open close (Some EmptyString) r
          else String c (strip_delimited_from open close None r)
      | Some buf =>
          if Ascii.eqb c close
          then strip_delimited_from open close None r
          else if is_line_terminator c
          then String open
                 (buf +:+ String c (strip_delimited_from open close None r))
          else strip_delimited_from open close
                 (Some (buf +:+ String c EmptyString)) r
      end
  end.

Definition strip_delimited (open close : ascii) (s : string) : string :=
  strip_delimited_from open close None s.

(** [parts.join(sep)] *)
Fixpoint join (sep : string) (parts : list string) : string :=
  match parts with
  | [] => EmptyString
  | [p] => p
  | p :: rest => p +:+ sep +:+ join sep rest
  end.

(** An index argument of [slice] as an offset into a string of [len]
    characters: the number is converted to an integer by truncation (NaN
    counts as 0), a negative index counts from the end, and the result
    is clamped to the string. *)
Definition relative_index (len : Z) (n : number) : Z :=
  match n with
  | S754_nan | S754_zero _ => 0
  | S754_infinity true => 0
  | S754_infinity false => len
  | S754_finite sg m e =>
      let k := Number.truncZ sg m e in
      if k <? 0 then Z.max (len + k) 0 else Z.min k len
  end.

Fixpoint keep (n : nat) (s : string) : string :=
  match n, s with
  | O, _ => EmptyString
  | S _, EmptyString => EmptyString
  | S k, String c r => String c (keep k r)
  end.

(** [s.slice(start, finish)]: the characters from the start offset up to,
    and without, the final offset; empty when the offsets cross. *)
Definition slice_range (s : string) (start finish : number) : string :=
  let len := Z.of_nat (String.length s) in
  let from := relative_index len start in
  let final := relative_index len finish in
  keep (Z.to_nat (final - from)) (drop (Z.to_nat from) s).

End JSString.

(** ** Data held by the application *)

(** A thrown exception or rejected promise carries its message. *)
Variant result (A : Type) :=
  | Ok (a : A)
  | Throw (msg : string).
Arguments Ok {A} a.
Arguments Throw {A} msg.

(** A property value of a plain object. *)
Variant value :=
  | VString (s : string)
  | VNumber (n : number).

#[global] Instance number_eq_dec : EqDecision number.
Proof. unfold number, Number.number. solve_decision. Defined.

#[global] Instance value_eq_dec : EqDecision value.
Proof. solve_decision. Defined.

(** One text item of a page as the PDF library reports it: the string and
    the vertical coordinate [transform[5]]. *)
Record text_item := { str : string; transform5 : number }.

(** The parsed document: the text items of each page, page 1 first. *)
Abbreviation pdf_document := (list (list text_item)).

(** A [File] chosen by the user.  [parsed] is what the PDF library makes
    of its bytes, [None] when it rejects them. *)
Record file := {
  file_name : string;
  file_size : Z;
  file_type : string;
  parsed : option pdf_document
}.

Record page := {
  page_no : Z;
  page_text : string;
  sentences : list string
}.

(** A library item as [LibraryManager.createFileData] builds it. *)
Record file_data := {
  id : string;
  name : string;
  size : Z;
  type : string;
  text : string;
  addedAt : string;
  lastPlayed : option string;
  bookmarks : list (gmap string value);
  progress : number
}.

(** A registered user.  [password] is the stored checksum; it is absent
    from the copy kept as current user. *)
Record user := {
  user_id : string;
  user_name : string;
  email : string;
  password : option string;
  createdAt : string;
  isPremium : bool;
  premiumExpiresAt : option string
}.

(** The calls received by the speech-synthesis collaborator. *)
Variant synth_call :=
  | Cancel
  | Speak (utterance_text : string) (rate : number)
  | Pause
  | Resume.

(** The updates sent to the page. *)
Variant ui_event :=
  | ProgressBar (progress : number)
  | TimeDisplay (position length : number)
  | TextDisplay (start : number)
  | DocStatus (status : string)
  | DocTitle (title : string)
  | PlayButton (playing : bool)
  | ShowModal (modal : string)
  | ShowToast (message kind : string)
  | RenderLibrary.

Record pdf_handler := {
  pdfDoc : option pdf_document;
  currentFile : option (string * Z * string);
  extractedText : string;
  pages : list page;
  totalPages : Z
}.

Record tts_manager := {
  currentPosition : number;
  textLength : number;
  isPlaying : bool;
  playbackRate : number
}.

(** The speech-synthesis collaborator: whether the browser has it, its
    [paused] attribute and the calls it received, latest first. *)
Record synth := {
  supported : bool;
  paused : bool;
  calls : list synth_call
}.

(** The local storage.  [writes] lists the keys written, latest first. *)
Record storage := {
  library : list file_data;
  users : list user;
  current_user : option user;
  premium : bool;
  writes : list string
}.

Record app := {
  pdf : pdf_handler;
  tts : tts_manager;
  speech : synth;
  store : storage;
  ui : list ui_event
}.

Definition set_pdf (h : pdf_handler) (a : app) : app :=
  {| pdf := h; tts := tts a; speech := speech a; store := store a; ui := ui a |}.
Definition set_tts (t : tts_manager) (a : app) : app :=
  {| pdf := pdf a; tts := t; speech := speech a; store := store a; ui := ui a |}.
Definition set_speech (s : synth) (a : app) : app :=
  {| pdf := pdf a; tts := tts a; speech := s; store := store a; ui := ui a |}.
Definition set_store (s : storage) (a : app) : app :=
  {| pdf := pdf a; tts := tts a; speech := speech a; store := s; ui := ui a |}.
Definition emit (e : ui_event) (a : app) : app :=
  {| pdf := pdf a; tts := tts a; speech := speech a; store := store a;
     ui := e :: ui a |}.

(** The number of characters of a string, as a JavaScript number. *)
Definition length_number (s : string) : number :=
  Number.of_Z (Z.of_nat (String.length s)).

(** ** Utility functions *)

Module Utils.

Fixpoint ends_with_from (suffix s : string) : bool :=
  String.eqb s suffix ||
  match s with
  | EmptyString => false
  | String _ r => ends_with_from suffix r
  end.

(** [s.endsWith(suffix)] *)
Definition endsWith (s suffix : string) : bool := ends_with_from suffix s.

Definition isPDFFile (f : file) : bool :=
  String.eqb (file_type f) "application/pdf"
  || endsWith (JSString.toLowerCase (file_name f)) ".pdf".

(** [storageSet(key, value)] for the three keys of the application, when
    the local storage accepts the write and [JSON.parse] gives the value
    back as it was written. *)
Definition storageSet_library (l : list file_data) (s : storage) : storage :=
  {| library := l; users := users s; current_user := current_user s;
     premium := premium s; writes := "pdf2audio_library"%string :: writes s |}.

(** [storageSet(key, value)] for the library when the local storage may
    refuse the write: [setItem] throws (the quota is exceeded), the
    exception is caught and logged, and nothing is stored.  [accepted]
    tells whether the local storage accepts the write. *)
Definition storageSet_library_fallible (accepted : bool) (l : list file_data)
    (s : storage) : storage :=
  if accepted then storageSet_library l s else s.

(** What is stored is the text [JSON.stringify(value)], read back with
    [JSON.parse].  A number comes back as it was written unless it is NaN
    or infinite, which are written as [null], or -0, written as [0]. *)
Definition json_number (x : number) : bool :=
  Number.is_finite x && negb (Number.is_neg_zero x).

Definition json_value (v : value) : bool :=
  match v with
  | VNumber n => json_number n
  | VString _ => true
  end.

(** The library item comes back from the storage as it was written. *)
Definition json_item (x : file_data) : bool :=
  json_number (progress x)
  && forallb (fun bm : gmap string value =>
                forallb (fun kv => json_value (snd kv)) (map_to_list bm))
             (bookmarks x).

Definition storageSet_users (us : list user) (s : storage) : storage :=
  {| library := library s; users := us; current_user := current_user s;
     premium := premium s; writes := "pdf2audio_users"%string :: writes s |}.

Definition storageSet_current_user (u : user) (s : storage) : storage :=
  {| library := library s; users := users s; current_user := Some u;
     premium := premium s;
     writes := "pdf2audio_current_user"%string :: writes s |}.

(** [array.findIndex(p)]: the index of the first match, or -1. *)
Fixpoint findIndex {A : Type} (p : A -> bool) (l : list A) : Z :=
  match l with
  | [] => -1
  | x :: r =>
      if p x then 0
      else let i := findIndex p r in if i =? -1 then -1 else i + 1
  end.

(** [storageRemove(key)] for the key of the current user; the removal
    is logged with the writes. *)
Definition storageRemove_current_user (s : storage) : storage :=
  {| library := library s; users := users s; current_user := None;
     premium := premium s;
     writes := "pdf2audio_current_user"%string :: writes s |}.

End Utils.

(** ** The premium gate *)

Module PremiumManager.

(** Modelled from the spec: the source of [PremiumManager] is missing.
    The premium gate is "a locally stored boolean flag"; [isPremium]
    reads that flag. *)
Definition isPremium (a : app) : bool := premium (store a).

End PremiumManager.

(** [PDFHandler.updateTextDisplay(start)] writes the page only. *)
Definition updateTextDisplay (start : number) (a : app) : app :=
  emit (TextDisplay start) a.

(** ** Text-to-speech manager (scripts/tts-manager.js) *)

Module TTSManager.

Definition isSupported (a : app) : bool := supported (speech a).

Definition set_currentPosition (p : number) (a : app) : app :=
  set_tts {| currentPosition := p; textLength := textLength (tts a);
             isPlaying := isPlaying (tts a);
             playbackRate := playbackRate (tts a) |} a.

Definition set_isPlaying (b : bool) (a : app) : app :=
  set_tts {| currentPosition := currentPosition (tts a);
             textLength := textLength (tts a);
             isPlaying := b;
             playbackRate := playbackRate (tts a) |} a.

Definition set_playbackRate (r : number) (a : app) : app :=
  set_tts {| currentPosition := currentPosition (tts a);
             textLength := textLength (tts a);
             isPlaying := isPlaying (tts a);
             playbackRate := r |} a.

(** A call of a method of [this.synth].  [pause] and [resume] set the
    collaborator's [paused] attribute. *)
Definition synth_do (c : synth_call) (a : app) : app :=
  let s := speech a in
  set_speech {| supported := supported s;
                paused := match c with
                          | Pause => true
                          | Resume => false
                          | _ => paused s
                          end;
                calls := c :: calls s |} a.

Definition loadText (text : string) (a : app) : app :=
  set_tts {| currentPosition := Number.of_Z 0;
             textLength := length_number text;
             isPlaying := isPlaying (tts a);
             playbackRate := playbackRate (tts a) |} a.

Definition updatePlayButton (a : app) : app :=
  emit (PlayButton (isPlaying (tts a))) a.

Definition updateProgress (progress : number) (a : app) : app :=
  emit (ProgressBar progress) a.

Definition updateTimeDisplay (a : app) : app :=
  emit (TimeDisplay (currentPosition (tts a)) (textLength (tts a))) a.

(** [speak(text)]: the utterance is created with the current rate and
    handed to the collaborator; its handlers are the four functions
    below. *)
Definition speak (text : string) (a : app) : app :=
  if negb (isSupported a) then
    emit (ShowToast "Text-to-speech not supported in this browser" "error") a
  else
    let a := synth_do Cancel a in
    synth_do (Speak text (playbackRate (tts a))) a.

Definition onstart (a : app) : app :=
  let a := set_isPlaying true a in
  let a := updatePlayButton a in
  emit (DocStatus "Playing...") a.

Definition onend (a : app) : app :=
  let a := set_isPlaying false a in
  let a := updatePlayButton a in
  let a := emit (DocStatus "Completed") a in
  updateProgress (Number.of_Z 100) a.

Definition onerror (a : app) : app :=
  let a := set_isPlaying false a in
  let a := updatePlayButton a in
  emit (DocStatus "Error occurred") a.

Definition onboundary (event_name : string) (charIndex : number) (a : app)
  : app :=
  if String.eqb event_name "word" || String.eqb event_name "sentence" then
    let a := set_currentPosition charIndex a in
    let progress :=
      Number.mul (Number.div (currentPosition (tts a)) (textLength (tts a)))
                 (Number.of_Z 100) in
    let a := updateProgress progress a in
    let a := updateTimeDisplay a in
    updateTextDisplay (currentPosition (tts a)) a
  else a.

Definition pause (a : app) : app :=
  if isSupported a then
    let a := synth_do Pause a in
    let a := set_isPlaying false a in
    let a := updatePlayButton a in
    emit (DocStatus "Paused") a
  else a.

Definition resume (a : app) : app :=
  if isSupported a then
    let a := synth_do Resume a in
    let a := set_isPlaying true a in
    let a := updatePlayButton a in
    emit (DocStatus "Playing...") a
  else a.

Definition stop (a : app) : app :=
  if isSupported a then
    let a := synth_do Cancel a in
    let a := set_isPlaying false a in
    let a := set_currentPosition (Number.of_Z 0) a in
    let a := updatePlayButton a in
    let a := updateProgress (Number.of_Z 0) a in
    let a := updateTimeDisplay a in
    emit (DocStatus "Ready to play") a
  else a.

Definition togglePlayPause (a : app) : app :=
  if negb (isSupported a) then
    emit (ShowToast "Text-to-speech not supported" "error") a
  else if isPlaying (tts a) then pause a
  else if paused (speech a) then resume a
  else if negb (JSString.is_empty (extractedText (pdf a))) then
    speak (JSString.slice (extractedText (pdf a)) (currentPosition (tts a))) a
  else a.

Definition setPosition (position : number) (a : app) : app :=
  let a :=
    set_currentPosition
      (Number.max (Number.of_Z 0) (Number.min position (textLength (tts a))))
      a in
  let progress :=
    Number.mul (Number.div (currentPosition (tts a)) (textLength (tts a)))
               (Number.of_Z 100) in
  let a := updateProgress progress a in
  let a := updateTimeDisplay a in
  updateTextDisplay (currentPosition (tts a)) a.

Definition seek (amount : number) (a : app) : app :=
  let charCount :=
    Number.mul (textLength (tts a)) (Number.div amount (Number.of_Z 100)) in
  setPosition (Number.add (currentPosition (tts a)) charCount) a.

Definition setPlaybackRate (rate : number) (a : app) : app :=
  let a := set_playbackRate rate a in
  if isPlaying (tts a) && negb (JSString.is_empty (extractedText (pdf a)))
  then
    let a := stop a in
    speak (JSString.slice (extractedText (pdf a)) (currentPosition (tts a))) a
  else a.

End TTSManager.

(** ** PDF handler *)

Module PDFHandler.

Definition blank_line : string := String JSString.LF (String JSString.LF EmptyString).

Definition set_text (t : string) (ps : list page) (h : pdf_handler)
  : pdf_handler :=
  {| pdfDoc := pdfDoc h; currentFile := currentFile h;
     extractedText := t; pages := ps; totalPages := totalPages h |}.

(** [loadPDF(file)] *)
Definition loadPDF (f : file) (h : pdf_handler)
  : pdf_handler * result (string * Z * Z) :=
  match parsed f with
  | None =>
      ({| pdfDoc := pdfDoc h;
          currentFile := Some (file_name f, file_size f, file_type f);
          extractedText := extractedText h; pages := pages h;
          totalPages := totalPages h |},
       Throw "Invalid PDF structure")
  | Some doc =>
      let n := Z.of_nat (length doc) in
      ({| pdfDoc := Some doc;
          currentFile := Some (file_name f, file_size f, file_type f);
          extractedText := extractedText h; pages := pages h;
          totalPages := n |},
       Ok (file_name f, file_size f, n))
  end.

Definition is_sentence_end (c : ascii) : bool :=
  existsb (Ascii.eqb c) ["."; "!"; "?"]%char.

(** Scanner state of the sentence pattern [[^.!?]+[.!?]+[\s]*]: before a
    match, inside its body, inside its closing punctuation, inside its
    trailing white space.  The string is the match read so far. *)
Variant sentence_state :=
  | Before
  | Body (m : string)
  | Closing (m : string)
  | Trailing (m : string).

(** [text.match(/[^.!?]+[.!?]+[\s]*/g)], the empty list standing for
    [null]. *)
Fixpoint match_sentences (st : sentence_state) (s : string) : list string :=
  match s with
  | EmptyString =>
      match st with
      | Before | Body _ => []
      | Closing m | Trailing m => [m]
      end
  | String c r =>
      let one := String c EmptyString in
      if is_sentence_end c then
        match st with
        | Before => match_sentences Before r
        | Body m | Closing m => match_sentences (Closing (m +:+ one)) r
        | Trailing m => m :: match_sentences Before r
        end
      else
        match st with
        | Before => match_sentences (Body one) r
        | Body m => match_sentences (Body (m +:+ one)) r
        | Closing m =>
            if JSString.is_space c
            then match_sentences (Trailing (m +:+ one)) r
            else m :: match_sentences (Body one) r
        | Trailing m =>
            if JSString.is_space c
            then match_sentences (Trailing (m +:+ one)) r
            else m :: match_sentences (Body one) r
        end
  end.

Definition splitIntoSentences (t : string) : list string :=
  let found := match_sentences Before t in
  let sentences := match found with [] => [t] | _ => found end in
  List.filter (fun s => negb (JSString.is_empty s))
              (List.map JSString.trim sentences).

(** The lines of a page: items are grouped while their vertical
    coordinate moves by at most 5. *)
Fixpoint group_lines (items : list text_item) (currentLine : list text_item)
    (lastY : option number) : list string :=
  let flush (line : list text_item) :=
    match line with
    | [] => []
    | _ => [JSString.join " " (List.map str line)]
    end in
  match items with
  | [] => flush currentLine
  | item :: rest =>
      let moved :=
        match lastY with
        | None => false
        | Some y =>
            Number.ltb (Number.of_Z 5)
                       (SFabs (Number.sub (transform5 item) y))
        end in
      if moved
      then flush currentLine
             ++ group_lines rest [item] (Some (transform5 item))
      else group_lines rest (currentLine ++ [item]) (Some (transform5 item))
  end.

(** The text of a page: its lines joined by line feeds. *)
Definition lines_of_page (items : list text_item) : string :=
  JSString.join (String JSString.LF EmptyString) (group_lines items [] None).

Definition extractPageText (doc : pdf_document) (pageNum : Z)
  : result string :=
  if (1 <=? pageNum) && (pageNum <=? Z.of_nat (length doc)) then
    match doc !! Z.to_nat (pageNum - 1) with
    | Some items => Ok (lines_of_page items)
    | None => Throw "Invalid page request"
    end
  else Throw "Invalid page request".

(** [Promise.all] over the page requests: the first rejection wins. *)
Fixpoint all_pages (doc : pdf_document) (nums : list Z)
  : result (list string) :=
  match nums with
  | [] => Ok []
  | n :: rest =>
      match extractPageText doc n with
      | Throw msg => Throw msg
      | Ok t =>
          match all_pages doc rest with
          | Throw msg => Throw msg
          | Ok ts => Ok (t :: ts)
          end
      end
  end.

(** The second loop of [extractText]: page [startPage + i] is pushed and
    its text is appended to [extractedText], followed by a blank line. *)
Fixpoint append_pages (pageNum : Z) (pageTexts : list string)
    (h : pdf_handler) : pdf_handler :=
  match pageTexts with
  | [] => h
  | t :: rest =>
      append_pages (pageNum + 1) rest
        (set_text (extractedText h +:+ (t +:+ blank_line))
                  (pages h ++ [{| page_no := pageNum; page_text := t;
                                  sentences := splitIntoSentences t |}])
                  h)
  end.

(** [extractText(options)]; an absent option takes its default. *)
Definition extractText (startPage endPage : option Z) (h : pdf_handler)
  : pdf_handler * result string :=
  match pdfDoc h with
  | None => (h, Throw "No PDF loaded")
  | Some doc =>
      let startPage := default 1 startPage in
      let endPage := default (totalPages h) endPage in
      let h := set_text EmptyString [] h in
      match all_pages doc (seqZ startPage (endPage - startPage + 1)) with
      | Throw msg => (h, Throw msg)
      | Ok pageTexts =>
          let h := append_pages startPage pageTexts h in
          (h, Ok (extractedText h))
      end
  end.

Definition getProgressAtPosition (position : number) (h : pdf_handler)
  : number :=
  if (String.length (extractedText h) =? 0)%nat then Number.of_Z 0
  else Number.mul (Number.div position (length_number (extractedText h)))
                  (Number.of_Z 100).

Definition getPositionAtProgress (progress : number) (h : pdf_handler)
  : number :=
  Number.floor
    (Number.mul (Number.div progress (Number.of_Z 100))
                (length_number (extractedText h))).

Definition cleanText (t : string) : string :=
  JSString.trim
    (JSString.strip_delimited "(" ")"
       (JSString.strip_delimited "[" "]"
          (JSString.collapse_blank_lines
             (JSString.collapse_spaces t)))).

(** The pages rebuilt by [loadFromLibrary] from the pieces of the text. *)
Fixpoint rebuild_pages (i : Z) (pageTexts : list string) : list page :=
  match pageTexts with
  | [] => []
  | t :: rest =>
      {| page_no := i + 1; page_text := JSString.trim t;
         sentences := splitIntoSentences (JSString.trim t) |}
      :: rebuild_pages (i + 1) rest
  end.

Definition loadFromLibrary (fileData : file_data) (a : app) : app :=
  let ps := rebuild_pages 0 (JSString.split_blank (text fileData)) in
  let a :=
    set_pdf {| pdfDoc := pdfDoc (pdf a);
               currentFile :=
                 Some (name fileData, size fileData, "application/pdf"%string);
               extractedText := text fileData;
               pages := ps;
               totalPages := Z.of_nat (length ps) |} a in
  let a := emit (ShowModal "player") a in
  let a := TTSManager.loadText (extractedText (pdf a)) a in
  let a :=
    if Number.ltb (Number.of_Z 0) (progress fileData) then
      TTSManager.setPosition
        (getPositionAtProgress (progress fileData) (pdf a)) a
    else a in
  let a := emit (DocTitle (name fileData)) a in
  updateTextDisplay (Number.of_Z 0) a.

Definition clear (h : pdf_handler) : pdf_handler :=
  {| pdfDoc := None; currentFile := None; extractedText := EmptyString;
     pages := []; totalPages := 0 |}.

End PDFHandler.

(** ** Library manager (scripts/library-manager.js) *)

Module LibraryManager.

Definition MAX_FREE_ITEMS : number := Number.of_Z 5.
Definition MAX_PREMIUM_ITEMS : number := S754_infinity false.

Definition getLibrary (a : app) : list file_data := library (store a).

Definition saveLibrary (l : list file_data) (a : app) : app :=
  set_store (Utils.storageSet_library l (store a)) a.

Definition renderLibrary (a : app) : app := emit RenderLibrary a.

Definition has_id (i : string) (item : file_data) : bool :=
  String.eqb (id item) i.

Definition addFile (fileData : file_data) (a : app) : bool * app :=
  let library := getLibrary a in
  let existingIndex := Utils.findIndex (has_id (id fileData)) library in
  let library :=
    if negb (existingIndex =? -1)
    then <[Z.to_nat existingIndex := fileData]> library
    else fileData :: library in
  let a := saveLibrary library a in
  let a := renderLibrary a in
  (true, a).

Definition removeFile (i : string) (a : app) : bool * app :=
  let library := getLibrary a in
  let filtered := List.filter (fun item => negb (has_id i item)) library in
  if negb (length filtered =? length library)%nat then
    let a := saveLibrary filtered a in
    let a := renderLibrary a in
    (true, a)
  else (false, a).

Definition getFile (i : string) (a : app) : option file_data :=
  List.find (has_id i) (getLibrary a).

(** [saveLibrary] and [addFile] when the local storage may refuse the
    write; [addFile] returns true all the same. *)
Definition saveLibrary_fallible (accepted : bool) (l : list file_data)
    (a : app) : app :=
  set_store (Utils.storageSet_library_fallible accepted l (store a)) a.

Definition addFile_fallible (accepted : bool) (fileData : file_data) (a : app)
  : bool * app :=
  let library := getLibrary a in
  let existingIndex := Utils.findIndex (has_id (id fileData)) library in
  let library :=
    if negb (existingIndex =? -1)
    then <[Z.to_nat existingIndex := fileData]> library
    else fileData :: library in
  let a := saveLibrary_fallible accepted library a in
  let a := renderLibrary a in
  (true, a).

Definition getRecentFiles (limit : nat) (a : app) : list file_data :=
  take limit (getLibrary a).

Record add_status := {
  canAdd : bool;
  remaining : number;
  status_isPremium : bool;
  maxItems : number
}.

Definition canAddFile (a : app) : add_status :=
  let library := getLibrary a in
  let isPremium := PremiumManager.isPremium a in
  let maxItems := if isPremium then MAX_PREMIUM_ITEMS else MAX_FREE_ITEMS in
  let remaining :=
    Number.sub maxItems (Number.of_Z (Z.of_nat (length library))) in
  {| canAdd := Number.ltb (Number.of_Z 0) remaining;
     remaining := remaining;
     status_isPremium := isPremium;
     maxItems := maxItems |}.

(** [createFileData(file, text)]; the identifier and the date come from
    the environment. *)
Definition createFileData (f : file) (t : string) (newId now : string)
  : file_data :=
  {| id := newId; name := file_name f; size := file_size f;
     type := file_type f; text := t; addedAt := now; lastPlayed := None;
     bookmarks := []; progress := Number.of_Z 0 |}.

(** The library in which the first item that satisfies [p], the one
    [Array.prototype.find] returns, has been changed in place. *)
Fixpoint update_found (p : file_data -> bool) (f : file_data -> file_data)
    (l : list file_data) : list file_data :=
  match l with
  | [] => []
  | x :: r => if p x then f x :: r else x :: update_found p f r
  end.

Definition set_progress (pr : number) (now : string) (x : file_data)
  : file_data :=
  {| id := id x; name := name x; size := size x; type := type x;
     text := text x; addedAt := addedAt x; lastPlayed := Some now;
     bookmarks := bookmarks x; progress := pr |}.

Definition set_bookmarks (bs : list (gmap string value)) (x : file_data)
  : file_data :=
  {| id := id x; name := name x; size := size x; type := type x;
     text := text x; addedAt := addedAt x; lastPlayed := lastPlayed x;
     bookmarks := bs; progress := progress x |}.

Definition updateProgress (i : string) (pr : number) (now : string) (a : app)
  : app :=
  let library := getLibrary a in
  match List.find (has_id i) library with
  | Some _ => saveLibrary (update_found (has_id i) (set_progress pr now) library) a
  | None => a
  end.

(** The object literal [{ id: newId, ...bookmark, createdAt: now }]: the
    properties of [bookmark] override the fresh identifier, and the date
    overrides theirs. *)
Definition stamp (newId now : string) (bookmark : gmap string value)
  : gmap string value :=
  <["createdAt"%string := VString now]>
    (bookmark ∪ {["id"%string := VString newId]}).

Definition addBookmark (i : string) (bookmark : gmap string value)
    (newId now : string) (a : app) : bool * app :=
  let library := getLibrary a in
  match List.find (has_id i) library with
  | None => (false, a)
  | Some file =>
      let isPremium := PremiumManager.isPremium a in
      if negb isPremium && (3 <=? length (bookmarks file))%nat then
        let a :=
          emit (ShowToast
                  "Free tier limited to 3 bookmarks. Upgrade for unlimited!"
                  "warning") a in
        (false, a)
      else
        let push x :=
          set_bookmarks (bookmarks x ++ [stamp newId now bookmark]) x in
        let a := saveLibrary (update_found (has_id i) push library) a in
        (true, a)
  end.

Definition bookmark_has_id (b : string) (bm : gmap string value) : bool :=
  match bm !! "id"%string with
  | Some (VString s) => String.eqb s b
  | _ => false
  end.

Definition removeBookmark (i bookmarkId : string) (a : app) : bool * app :=
  let library := getLibrary a in
  match List.find (has_id i) library with
  | None => (false, a)
  | Some _ =>
      let keep x :=
        set_bookmarks
          (List.filter (fun b => negb (bookmark_has_id bookmarkId b))
                       (bookmarks x)) x in
      (true, saveLibrary (update_found (has_id i) keep library) a)
  end.

End LibraryManager.

(** ** Auth manager *)

Module AuthManager.

Definition getUsers (a : app) : list user := users (store a).

Definition saveUsers (us : list user) (a : app) : app :=
  set_store (Utils.storageSet_users us (store a)) a.

Definition same_email (e : string) (u : user) : bool :=
  String.eqb (JSString.toLowerCase (email u)) (JSString.toLowerCase e).

Definition findUserByEmail (e : string) (a : app) : option user :=
  List.find (same_email e) (getUsers a).

Definition to_int32 (z : Z) : Z :=
  let m := z mod 2 ^ 32 in
  if m <? 2 ^ 31 then m else m - 2 ^ 32.

Definition hex_digit (d : Z) : ascii :=
  if d <? 10 then ascii_of_N (Z.to_N (48 + d))
  else ascii_of_N (Z.to_N (87 + d)).

Fixpoint hex_digits (fuel : nat) (n : Z) (acc : string) : string :=
  match fuel with
  | O => acc
  | S k =>
      let acc := String (hex_digit (n mod 16)) acc in
      if n / 16 =? 0 then acc else hex_digits k (n / 16) acc
  end.

(** [n.toString(16)] for a 32-bit integer. *)
Definition toString16 (n : Z) : string :=
  if n <? 0 then String "-" (hex_digits 8 (- n) EmptyString)
  else hex_digits 8 n EmptyString.

(** The body of the loop of [hashPassword]; [<<] and [&] work on 32-bit
    integers. *)
Definition hash_step (hash : Z) (c : ascii) : Z :=
  let char := JSString.charCode c in
  let hash := to_int32 (Z.shiftl (to_int32 hash) 5) - hash + char in
  Z.land (to_int32 hash) (to_int32 hash).

Fixpoint hash_from (hash : Z) (s : string) : Z :=
  match s with
  | EmptyString => hash
  | String c r => hash_from (hash_step hash c) r
  end.

Definition hashPassword (pw : string) : string :=
  toString16 (hash_from 0 pw).

Definition verifyPassword (pw hashedPassword : string) : bool :=
  String.eqb (hashPassword pw) hashedPassword.

Definition setCurrentUser (u : user) (a : app) : app :=
  let safeUser :=
    {| user_id := user_id u; user_name := user_name u; email := email u;
       password := None; createdAt := createdAt u;
       isPremium := isPremium u;
       premiumExpiresAt := premiumExpiresAt u |} in
  set_store (Utils.storageSet_current_user safeUser (store a)) a.

Definition isLoggedIn (a : app) : bool :=
  match current_user (store a) with Some _ => true | None => false end.

(** The result object [{ success, user | error }]. *)
Variant auth_result :=
  | Success (u : user)
  | Failure (error : string).

Definition register (nm em pw : string) (newId now : string) (a : app)
  : auth_result * app :=
  match findUserByEmail em a with
  | Some _ => (Failure "Email already registered", a)
  | None =>
      let users := getUsers a in
      let newUser :=
        {| user_id := newId;
           user_name := JSString.trim nm;
           email := JSString.toLowerCase (JSString.trim em);
           password := Some (hashPassword pw);
           createdAt := now;
           isPremium := false;
           premiumExpiresAt := None |} in
      let a := saveUsers (users ++ [newUser]) a in
      let a := setCurrentUser newUser a in
      (Success newUser, a)
  end.

Definition login (em pw : string) (a : app) : auth_result * app :=
  match findUserByEmail em a with
  | None => (Failure "Account not found. Please sign up first.", a)
  | Some u =>
      match password u with
      | Some h =>
          if verifyPassword pw h then (Success u, setCurrentUser u a)
          else (Failure "Incorrect password", a)
      | None => (Failure "Incorrect password", a)
      end
  end.

Definition getCurrentUser (a : app) : option user := current_user (store a).

(** [logout()].  [updateUI] reads the storage and writes the page only;
    it is left out. *)
Definition logout (a : app) : app :=
  set_store (Utils.storageRemove_current_user (store a)) a.

Definition set_premium (p : bool) (expiresAt : option string) (u : user)
  : user :=
  {| user_id := user_id u; user_name := user_name u; email := email u;
     password := password u; createdAt := createdAt u;
     isPremium := p; premiumExpiresAt := expiresAt |}.

Definition has_user_id (i : string) (u : user) : bool :=
  String.eqb (user_id u) i.

Definition updatePremiumStatus (p : bool) (expiresAt : option string)
    (a : app) : app :=
  match getCurrentUser a with
  | None => a
  | Some currentUser =>
      let currentUser := set_premium p expiresAt currentUser in
      let a := setCurrentUser currentUser a in
      let users := getUsers a in
      let userIndex :=
        Utils.findIndex (has_user_id (user_id currentUser)) users in
      if negb (userIndex =? -1)
      then saveUsers (alter (set_premium p expiresAt) (Z.to_nat userIndex) users) a
      else a
  end.

End AuthManager.

(** ** The upload path of the main application *)

Module App.

Definition processFile (f : file) (newId now : string) (a : app) : app :=
  if negb (Utils.isPDFFile f) then
    emit (ShowToast "Please select a PDF file" "error") a
  else
    let canAdd := LibraryManager.canAddFile a in
    if negb (LibraryManager.canAdd canAdd) && negb (AuthManager.isLoggedIn a)
    then
      let a := emit (ShowModal "login") a in
      emit (ShowToast "Please log in to save files" "warning") a
    else if negb (LibraryManager.canAdd canAdd)
            && negb (PremiumManager.isPremium a)
    then emit (ShowToast "Free tier limited. Upgrade for unlimited!" "warning") a
    else
      let failed a :=
        emit (ShowToast "Error processing PDF. Please try again." "error") a in
      let a := emit (ShowToast "Processing PDF..." "info") a in
      match PDFHandler.loadPDF f (pdf a) with
      | (h, Throw _) => failed (set_pdf h a)
      | (h, Ok pdfData) =>
          let a := set_pdf h a in
          let a := emit (ShowToast "Extracting text..." "info") a in
          match PDFHandler.extractText None None (pdf a) with
          | (h, Throw _) => failed (set_pdf h a)
          | (h, Ok t) =>
              let a := set_pdf h a in
              let cleanedText := PDFHandler.cleanText t in
              let a :=
                if LibraryManager.canAdd canAdd || PremiumManager.isPremium a
                then
                  snd (LibraryManager.addFile
                         (LibraryManager.createFileData f cleanedText newId now)
                         a)
                else a in
              let a := emit (DocTitle (file_name f)) a in
              let a := emit (DocStatus "pages loaded") a in
              let a := TTSManager.loadText cleanedText a in
              let a := updateTextDisplay (Number.of_Z 0) a in
              let a := emit (ShowModal "player") a in
              emit (ShowToast "PDF loaded!" "success") a
          end
      end.

(** The [input] handler of the progress bar ([setupPlayer]). *)
Definition onProgressInput (progress : number) (a : app) : app :=
  let position := PDFHandler.getPositionAtProgress progress (pdf a) in
  TTSManager.setPosition position a.

(** The [click] handler of the bookmark button ([setupPlayer]).  The
    identifier is that of the first library item, if it is a non-empty
    string. *)
Definition onBookmarkClick (newId now : string) (a : app) : app :=
  if negb (AuthManager.isLoggedIn a) then
    let a := emit (ShowModal "login") a in
    emit (ShowToast "Please log in to save bookmarks" "warning") a
  else
    match LibraryManager.getLibrary a with
    | first :: _ =>
        if negb (JSString.is_empty (id first)) then
          let position := currentPosition (tts a) in
          let bookmark : gmap string value :=
            {[ "position"%string := VNumber position;
               "text"%string :=
                 VString (JSString.slice_range (extractedText (pdf a)) position
                            (Number.add position (Number.of_Z 100))) ]} in
          let a :=
            snd (LibraryManager.addBookmark (id first) bookmark newId now a) in
          emit (ShowToast "Bookmark added!" "success") a
        else a
    | [] => a
    end.

End App.

(** ** Page texts *)

(** Every line feed of the string is followed by another character that
    is not a line feed: no blank line inside, no line feed at the end. *)
Fixpoint lf_followed (s : string) : bool :=
  match s with
  | EmptyString => true
  | String c r =>
      if JSString.is_LF c then
        match r with
        | EmptyString => false
        | String c' _ => negb (JSString.is_LF c') && lf_followed r
        end
      else lf_followed r
  end.

(** A page text that page joining and splitting leave alone: not empty,
    no line feed at either end, no blank line inside. *)
Definition plain_page (t : string) : bool :=
  match t with
  | EmptyString => false
  | String c _ => negb (JSString.is_LF c) && lf_followed t
  end.

(** The text [extractText] builds from page texts. *)
Definition terminated (ts : list string) : string :=
  String.concat EmptyString (List.map (fun t => t +:+ PDFHandler.blank_line) ts).

(** The string holds no line feed. *)
Fixpoint no_LF (s : string) : bool :=
  match s with
  | EmptyString => true
  | String c r => negb (JSString.is_LF c) && no_LF r
  end.

(** ** Rounding *)

(** A shift record locates the rational N/D: its mantissa is the integer
    part, its round bit tells whether the fraction reaches one half, its
    sticky bit whether the fraction is neither zero nor one half. *)
Definition locates (N D : Z) (mrs : shr_record) : Prop :=
  let m := shr_m mrs in
  m * D <= N < (m + 1) * D
  /\ (shr_r mrs = true <-> (2 * m + 1) * D <= 2 * N)
  /\ (shr_s mrs = true <-> N <> m * D /\ 2 * N <> (2 * m + 1) * D).

(** [near j X Y]: X is Y up to [j] roundings, each of relative error at
    most 2^-53. *)
Definition near (j : nat) (X Y : Z) : Prop :=
  (2 ^ 53 - 1) ^ Z.of_nat j * Y <= (2 ^ 53) ^ Z.of_nat j * X
  /\ (2 ^ 53) ^ Z.of_nat j * X <= (2 ^ 53 + 1) ^ Z.of_nat j * Y.

(** ** Runs of the application and sample data *)

(** The state of a freshly loaded page: the initial field values of the
    source objects, empty local storage, a browser with speech synthesis. *)
Definition initial : app :=
  {| pdf := {| pdfDoc := None; currentFile := None;
               extractedText := EmptyString; pages := []; totalPages := 0 |};
     tts := {| currentPosition := Number.of_Z 0; textLength := Number.of_Z 0;
               isPlaying := false; playbackRate := Number.of_Z 1 |};
     speech := {| supported := true; paused := false; calls := [] |};
     store := {| library := []; users := []; current_user := None;
                 premium := false; writes := [] |};
     ui := [] |}.

(** The progress last sent to the progress bar. *)
Fixpoint last_progress (events : list ui_event) : option number :=
  match events with
  | [] => None
  | ProgressBar p :: _ => Some p
  | _ :: rest => last_progress rest
  end.

Definition reported_progress (a : app) : option number := last_progress (ui a).

(** A handler whose extracted text is [t]. *)
Definition with_text (t : string) : pdf_handler :=
  PDFHandler.set_text t [] (pdf initial).

(** The tracker holds a position inside the loaded text. *)
Definition position_in_text (a : app) : Prop :=
  Number.leb (Number.of_Z 0) (currentPosition (tts a)) = true
  /\ Number.leb (currentPosition (tts a)) (textLength (tts a)) = true.

(** A sequence of [addFile] calls. *)
Definition addFiles (items : list file_data) (a : app) : app :=
  fold_left (fun a item => snd (LibraryManager.addFile item a)) items a.

(** An upload: the file, and the identifier and date the environment
    supplies for it. *)
Definition upload : Type := file * string * string.

(** A sequence of uploads, each processed to its end before the next. *)
Definition processFiles (us : list upload) (a : app) : app :=
  fold_left (fun a '(f, newId, now) => App.processFile f newId now a) us a.

Definition page_texts (doc : pdf_document) : list string :=
  List.map PDFHandler.lines_of_page doc.

(** The text extracted from a document with the default options, on a
    fresh handler. *)
Definition extracted (doc : pdf_document) : result string :=
  let f := {| file_name := "doc.pdf"; file_size := 0;
              file_type := "application/pdf"; parsed := Some doc |} in
  snd (PDFHandler.extractText None None
         (fst (PDFHandler.loadPDF f (pdf initial)))).

(** The linear progress of the offset [p] in a text of [L] characters, as
    all three places of the source compute it. *)
Definition linear_progress (p L : Z) : number :=
  Number.mul (Number.div (Number.of_Z p) (Number.of_Z L)) (Number.of_Z 100).

(** An offset turned into a progress and back, on the text of [h]. *)
Definition position_round_trip (p : number) (h : pdf_handler) : number :=
  PDFHandler.getPositionAtProgress (PDFHandler.getProgressAtPosition p h) h.

Module Samples.

Definition item (i : string) : file_data :=
  {| id := i; name := "a.pdf"; size := 1; type := "application/pdf";
     text := "text"; addedAt := "2024-01-01T00:00:00.000Z";
     lastPlayed := None; bookmarks := []; progress := Number.of_Z 0 |}.

Definition six_items : list file_data :=
  [item "f1"; item "f2"; item "f3"; item "f4"; item "f5"; item "f6"].

(** A page with the single text item [t]. *)
Definition one_line_page (t : string) : list text_item :=
  [{| str := t; transform5 := Number.of_Z 700 |}].

Definition pdf_file (nm : string) (doc : pdf_document) : file :=
  {| file_name := nm; file_size := 1000; file_type := "application/pdf";
     parsed := Some doc |}.

Definition bookmark_at (pos : Z) (snippet : string) : gmap string value :=
  {[ "position"%string := VNumber (Number.of_Z pos);
     "text"%string := VString snippet ]}.

Definition with_library (l : list file_data) (prem : bool) : app :=
  set_store {| library := l; users := []; current_user := None;
               premium := prem; writes := [] |} initial.

(** A library item that caches the text [t]. *)
Definition cached (t : string) : file_data :=
  {| id := "f1"; name := "a.pdf"; size := 1; type := "application/pdf";
     text := t; addedAt := "2024-01-01T00:00:00.000Z";
     lastPlayed := None; bookmarks := []; progress := Number.of_Z 0 |}.

(** A stored bookmark, and a library item that holds bookmarks. *)
Definition stored_bookmark (b : string) (pos : Z) (snippet : string)
  : gmap string value :=
  {[ "id"%string := VString b;
     "position"%string := VNumber (Number.of_Z pos);
     "text"%string := VString snippet;
     "createdAt"%string := VString "2024-01-02T00:00:00.000Z" ]}.

Definition marked (i : string) (bs : list (gmap string value)) : file_data :=
  {| id := i; name := "a.pdf"; size := 1; type := "application/pdf";
     text := "text"; addedAt := "2024-01-01T00:00:00.000Z";
     lastPlayed := None; bookmarks := bs; progress := Number.of_Z 0 |}.

Definition one_upload : upload :=
  (pdf_file "a.pdf" [one_line_page "Hi."], "i7"%string,
   "2024-01-03T00:00:00.000Z"%string).

(** A library of five items, without the premium flag. *)
Definition full_free_library : app :=
  with_library (take 5 six_items) false.

Definition playing_text (t : string) (pos : Z) : app :=
  TTSManager.set_currentPosition (Number.of_Z pos)
    (TTSManager.loadText t (set_pdf (with_text t) initial)).

End Samples.

(** ** Accounts *)

(** The copy of a user that [setCurrentUser] stores. *)
Definition without_password (u : user) : user :=
  {| user_id := user_id u; user_name := user_name u; email := email u;
     password := None; createdAt := createdAt u; isPremium := isPremium u;
     premiumExpiresAt := premiumExpiresAt u |}.

(** The stored session, if any, holds no password checksum. *)
Definition session_without_password (a : app) : bool :=
  match AuthManager.getCurrentUser a with
  | Some u => match password u with None => true | Some _ => false end
  | None => true
  end.

(** The polynomial that [hashPassword] evaluates, before it is wrapped
    to 32 bits. *)
Fixpoint horner (h : Z) (s : string) : Z :=
  match s with
  | EmptyString => h
  | String c r => horner (31 * h + JSString.charCode c) r
  end.

(** ** Characters of a text *)

(** The string holds none of the characters [.], [!] and [?]. *)
Fixpoint no_sentence_end (s : string) : bool :=
  match s with
  | EmptyString => true
  | String c r => negb (PDFHandler.is_sentence_end c) && no_sentence_end r
  end.

(** Every character of the string satisfies [P]. *)
Fixpoint all_chars (P : ascii -> bool) (s : string) : bool :=
  match s with
  | EmptyString => true
  | String c r => P c && all_chars P r
  end.

(** White space other than the space character. *)
Definition is_odd_space (c : ascii) : bool :=
  JSString.is_space c && negb (Ascii.eqb c JSString.SP).

(** The character [c] occurs in the string. *)
Fixpoint contains (c : ascii) (s : string) : bool :=
  match s with
  | EmptyString => false
  | String d r => Ascii.eqb d c || contains c r
  end.

(** Some [open] is followed, further on, by a [close]. *)
Fixpoint has_pair (open close : ascii) (s : string) : bool :=
  match s with
  | EmptyString => false
  | String d r => Ascii.eqb d open && contains close r || has_pair open close r
  end.

(** [s] is [t] with some characters left out. *)
Inductive subseq : string -> string -> Prop :=
  | subseq_empty : subseq EmptyString EmptyString
  | subseq_skip c s t : subseq s t -> subseq s (String c t)
  | subseq_keep c s t : subseq s t -> subseq (String c s) (String c t).

(** ** Lines of a page *)

(** The vertical coordinate moves by more than 5 from [x] to [y]. *)
Definition jumps (x y : text_item) : bool :=
  Number.ltb (Number.of_Z 5)
             (SFabs (Number.sub (transform5 y) (transform5 x))).

(** No item of the list jumps away from the item before it. *)
Fixpoint on_one_line (items : list text_item) : bool :=
  match items with
  | x :: (y :: _) as rest => negb (jumps x y) && on_one_line rest
  | _ => true
  end.

(** * Properties *)

(** ** Lists and strings *)

Section ListFacts.
Context {A : Type}.
Implicit Types (p : A -> bool) (l : list A).

Lemma filter_length_bound p l : (length (List.filter p l) <= length l)%nat.
Proof.
  induction l as [|x l IH]; simpl; [lia|].
  destruct (p x); simpl; lia.
Qed.

Lemma filter_keeps_length p l :
  length (List.filter p l) = length l <-> (forall x, x ∈ l -> p x = true).
Proof.
  induction l as [|x l IH]; simpl.
  - split; [intros _ y Hy; inversion Hy | reflexivity].
  - pose proof (filter_length_bound p l) as Hle.
    destruct (p x) eqn:Hx; simpl.
    + split.
      * intros Hlen y Hy. apply elem_of_cons in Hy as [->|Hy]; [done|].
        apply IH; [lia | done].
      * intros Hall. f_equal. apply IH. intros y Hy.
        apply Hall. by right.
    + split; [lia|]. intros Hall.
      specialize (Hall x (list_elem_of_here x l)). congruence.
Qed.

Lemma find_none_iff p l :
  List.find p l = None <-> (forall x, x ∈ l -> p x = false).
Proof.
  induction l as [|x l IH]; simpl.
  - split; [intros _ y Hy; inversion Hy | reflexivity].
  - destruct (p x) eqn:Hx.
    + split; [discriminate|]. intros Hall.
      specialize (Hall x (list_elem_of_here x l)). congruence.
    + rewrite IH. split.
      * intros Hall y Hy. apply elem_of_cons in Hy as [->|Hy]; auto.
      * intros Hall y Hy. apply Hall. by right.
Qed.

Lemma find_first p l1 x l2 :
  (forall y, y ∈ l1 -> p y = false) -> p x = true ->
  List.find p (l1 ++ x :: l2) = Some x.
Proof.
  intros Hl1 Hx. induction l1 as [|y l1 IH]; simpl.
  - by rewrite Hx.
  - rewrite (Hl1 y (list_elem_of_here y l1)). apply IH.
    intros z Hz. apply Hl1. by right.
Qed.

Lemma findIndex_none p l :
  Utils.findIndex p l = -1 <-> (forall x, x ∈ l -> p x = false).
Proof.
  induction l as [|x l IH]; simpl.
  - split; [intros _ y Hy; inversion Hy | reflexivity].
  - destruct (p x) eqn:Hx.
    + split; [discriminate|]. intros Hall.
      specialize (Hall x (list_elem_of_here x l)). congruence.
    + destruct (Z.eqb_spec (Utils.findIndex p l) (-1)) as [Hi|Hi].
      * split; [|reflexivity]. intros _ y Hy.
        apply elem_of_cons in Hy as [->|Hy]; [done|].
        by apply IH.
      * split.
        -- intros Hc. assert (0 <= Utils.findIndex p l \/
                              Utils.findIndex p l = -1) as [?|?]; [|lia|done].
           clear -l. induction l as [|z l IH]; simpl; [by right|].
           destruct (p z); [left; lia|].
           destruct (Z.eqb_spec (Utils.findIndex p l) (-1)); [by right|].
           left. lia.
        -- intros Hall. exfalso. apply Hi, IH. intros y Hy.
           apply Hall. by right.
Qed.

Lemma findIndex_range p l :
  Utils.findIndex p l = -1
  \/ 0 <= Utils.findIndex p l < Z.of_nat (length l).
Proof.
  induction l as [|x l IH]; simpl; [by left|].
  destruct (p x); [right; lia|].
  destruct (Z.eqb_spec (Utils.findIndex p l) (-1)); [by left|].
  right. lia.
Qed.

End ListFacts.

Lemma has_id_true i x : LibraryManager.has_id i x = true <-> id x = i.
Proof. unfold LibraryManager.has_id. apply String.eqb_eq. Qed.

Lemma has_id_false i x : LibraryManager.has_id i x = false <-> id x ≠ i.
Proof. unfold LibraryManager.has_id. apply String.eqb_neq. Qed.

(** The filter of [removeFile] keeps exactly the items of another id. *)
Lemma filter_other_ids i (l : list file_data) :
  List.filter (fun item => negb (LibraryManager.has_id i item)) l
  = filter (fun item => id item ≠ i) l.
Proof.
  induction l as [|x l IH]; [done|].
  simpl. rewrite filter_cons, IH.
  destruct (LibraryManager.has_id i x) eqn:Hx; simpl.
  - apply has_id_true in Hx. by rewrite decide_False by naive_solver.
  - apply has_id_false in Hx. by rewrite decide_True.
Qed.

Lemma append_cons (c : ascii) (s t : string) :
  String c s +:+ t = String c (s +:+ t).
Proof. reflexivity. Qed.

Lemma append_empty_l (s : string) : EmptyString +:+ s = s.
Proof. reflexivity. Qed.

Lemma append_empty_r (s : string) : s +:+ EmptyString = s.
Proof.
  induction s as [|c s IH]; [done|]. by rewrite append_cons, IH.
Qed.

Lemma append_assoc (s t u : string) : (s +:+ t) +:+ u = s +:+ (t +:+ u).
Proof.
  induction s as [|c s IH]; [done|]. by rewrite !append_cons, IH.
Qed.

(** ** JavaScript numbers *)

Section NumberFacts.

Lemma digits2_pos_iter_xO (p k : positive) :
  digits2_pos (Pos.iter xO p k) = (digits2_pos p + k)%positive.
Proof.
  induction k as [|k IH] using Pos.peano_ind.
  - simpl. lia.
  - rewrite Pos.iter_succ. simpl. rewrite IH. lia.
Qed.

Lemma Zpos_iter_xO (p k : positive) :
  Zpos (Pos.iter xO p k) = Zpos p * 2 ^ Zpos k.
Proof.
  induction k as [|k IH] using Pos.peano_ind.
  - simpl. lia.
  - rewrite Pos.iter_succ, Pos2Z.inj_succ, Z.pow_succ_r by lia.
    rewrite Pos2Z.inj_xO, IH. lia.
Qed.

Lemma digits2_pos_bounds (p : positive) :
  2 ^ (Zpos (digits2_pos p) - 1) <= Zpos p < 2 ^ Zpos (digits2_pos p).
Proof.
  induction p as [p IH|p IH|]; simpl digits2_pos.
  - rewrite Pos2Z.inj_succ, Z.pow_succ_r by lia.
    replace (Z.succ (Zpos (digits2_pos p)) - 1)
      with (Z.succ (Zpos (digits2_pos p) - 1)) by lia.
    rewrite Z.pow_succ_r by lia. lia.
  - rewrite Pos2Z.inj_succ, Z.pow_succ_r by lia.
    replace (Z.succ (Zpos (digits2_pos p)) - 1)
      with (Z.succ (Zpos (digits2_pos p) - 1)) by lia.
    rewrite Z.pow_succ_r by lia. lia.
  - simpl. lia.
Qed.

Lemma digits2_pos_le (p : positive) (n : Z) :
  0 <= n -> Zpos p < 2 ^ n -> Zpos (digits2_pos p) <= n.
Proof.
  intros Hn Hp. destruct (Z.le_gt_cases (Zpos (digits2_pos p)) n); [done|].
  pose proof (digits2_pos_bounds p) as [Hlo _].
  assert (2 ^ n <= 2 ^ (Zpos (digits2_pos p) - 1))
    by (apply Z.pow_le_mono_r; lia).
  lia.
Qed.

Lemma fexp_normal (x : Z) :
  -1021 <= x -> fexp Number.prec Number.emax x = x - 53.
Proof. unfold fexp, emin, Number.prec, Number.emax. lia. Qed.

(** A mantissa of 53 digits with an exponent in range is not rounded. *)
Lemma binary_round_aux_exact (s : bool) (m : positive) (e : Z) :
  digits2_pos m = 53%positive -> -1074 <= e <= 971 ->
  binary_round_aux Number.prec Number.emax s (Zpos m) e loc_Exact
  = S754_finite s m e.
Proof.
  intros Hd He.
  assert (Hshift : shr_fexp Number.prec Number.emax (Zpos m) e loc_Exact
                   = ({| shr_m := Zpos m; shr_r := false; shr_s := false |},
                      e)).
  { unfold shr_fexp. simpl Zdigits2. rewrite Hd, fexp_normal by lia.
    replace (53 + e - 53 - e) with 0 by lia. reflexivity. }
  unfold binary_round_aux. rewrite Hshift. simpl round_nearest_even.
  rewrite Hshift. simpl shr_m.
  destruct (Z.leb_spec e (Number.emax - Number.prec)) as [|Hgt]; [done|].
  unfold Number.emax, Number.prec in Hgt. lia.
Qed.

(** The number of a positive integer below 2^53 holds the integer
    itself, normalised to 53 digits. *)
Lemma of_Z_pos (p : positive) :
  Zpos p < 2 ^ 53 ->
  exists m e,
    Number.of_Z (Zpos p) = S754_finite false m e
    /\ digits2_pos m = 53%positive /\ -52 <= e <= 0
    /\ Zpos m = Zpos p * 2 ^ (- e).
Proof.
  intros Hp.
  pose proof (digits2_pos_le p 53 ltac:(lia) Hp) as Hd.
  unfold Number.of_Z, binary_normalize, binary_round.
  rewrite fexp_normal by lia. unfold shl_align.
  destruct (Zpos (digits2_pos p) + 0 - 53 - 0) as [|k|k] eqn:Hk; [|lia|].
  - exists p, 0.
    assert (digits2_pos p = 53%positive) as Hd53 by lia.
    rewrite (binary_round_aux_exact false p 0 Hd53) by lia.
    repeat split; try lia; try done.
  - exists (Pos.iter xO p k), (Zpos (digits2_pos p) + 0 - 53).
    assert (digits2_pos (Pos.iter xO p k) = 53%positive) as Hd53
      by (rewrite digits2_pos_iter_xO; lia).
    rewrite (binary_round_aux_exact false _ _ Hd53) by lia.
    repeat split; try lia.
    rewrite Zpos_iter_xO. f_equal. f_equal. lia.
Qed.

Lemma truncZ_of_scaled (m p : positive) (e : Z) :
  e <= 0 -> Zpos m = Zpos p * 2 ^ (- e) ->
  Number.truncZ false m e = Zpos p /\ Number.floorZ false m e = Zpos p.
Proof.
  intros He Hm. unfold Number.truncZ, Number.floorZ.
  destruct e as [|e|e]; [simpl in Hm; lia | lia |].
  change (- Zneg e) with (Zpos e) in Hm. rewrite Hm.
  assert (0 < 2 ^ Zpos e) by (apply Z.pow_pos_nonneg; lia).
  split.
  - rewrite Z.quot_mul; lia.
  - rewrite Z.div_mul; lia.
Qed.

(** *** Comparison *)

Lemma compare_refl (x : number) :
  Number.isNaN x = false -> SFcompare x x = Some Eq.
Proof.
  destruct x as [s|s| |s m e]; simpl; try done; intros _.
  - by destruct s.
  - destruct s; rewrite Z.compare_refl, Pos.compare_cont_refl; done.
Qed.

Lemma compare_antisym (x y : number) (c : comparison) :
  SFcompare x y = Some c -> SFcompare y x = Some (CompOpp c).
Proof.
  destruct x as [sx|sx| |sx mx ex], y as [sy|sy| |sy my ey]; simpl;
    try discriminate; intros [= <-];
    try (destruct sx; reflexivity); try (destruct sy; reflexivity);
    try (destruct sx, sy; reflexivity).
  destruct sx, sy; try reflexivity;
    rewrite (Z.compare_antisym ex ey); destruct (ex ?= ey); simpl;
    try reflexivity;
    rewrite ?(Pos.compare_cont_antisym mx my Eq); simpl;
    by rewrite ?CompOpp_involutive.
Qed.

Lemma compare_some (x y : number) :
  Number.isNaN x = false -> Number.isNaN y = false ->
  exists c, SFcompare x y = Some c.
Proof.
  destruct x as [sx|sx| |sx mx ex], y as [sy|sy| |sy my ey]; simpl;
    try discriminate; intros _ _; eauto.
Qed.

Lemma ltb_leb (x y : number) :
  Number.ltb x y = true -> Number.leb x y = true.
Proof.
  unfold Number.ltb, Number.leb, SFltb, SFleb.
  by destruct (SFcompare x y) as [[]|].
Qed.

Lemma leb_refl (x : number) :
  Number.isNaN x = false -> Number.leb x x = true.
Proof.
  intros Hx. unfold Number.leb, SFleb. by rewrite compare_refl.
Qed.

Lemma not_ltb_leb (x y : number) :
  Number.isNaN x = false -> Number.isNaN y = false ->
  Number.ltb y x = false -> Number.leb x y = true.
Proof.
  intros Hx Hy. unfold Number.ltb, Number.leb, SFltb, SFleb.
  destruct (compare_some y x Hy Hx) as [c Hc].
  rewrite Hc, (compare_antisym y x c Hc). by destruct c.
Qed.

Lemma leb_not_NaN (x y : number) :
  Number.leb x y = true -> Number.isNaN x = false /\ Number.isNaN y = false.
Proof.
  unfold Number.leb, SFleb.
  destruct x as [sx|sx| |sx mx ex], y as [sy|sy| |sy my ey]; simpl; done.
Qed.

(** *** Rounding never yields NaN *)

Lemma shr_1_nonneg (mrs : shr_record) :
  0 <= shr_m mrs -> 0 <= shr_m (shr_1 mrs).
Proof.
  destruct mrs as [m r s]. simpl. destruct m as [|[p|p|]|[p|p|]]; simpl; lia.
Qed.

Lemma iter_shr_1_nonneg (n : positive) (mrs : shr_record) :
  0 <= shr_m mrs -> 0 <= shr_m (SpecFloat.iter_pos shr_1 n mrs).
Proof.
  revert mrs. induction n as [n IH|n IH|]; intros mrs Hm; simpl.
  - apply IH, IH, shr_1_nonneg, Hm.
  - apply IH, IH, Hm.
  - apply shr_1_nonneg, Hm.
Qed.

Lemma shr_fexp_nonneg (m e : Z) (l : location) :
  0 <= m -> 0 <= shr_m (fst (shr_fexp Number.prec Number.emax m e l)).
Proof.
  intros Hm. unfold shr_fexp, shr.
  assert (0 <= shr_m (shr_record_of_loc m l)) by (by destruct l as [|[]]).
  destruct (fexp _ _ _ - e); simpl; [done| |done].
  by apply iter_shr_1_nonneg.
Qed.

Lemma round_nearest_even_nonneg (m : Z) (l : location) :
  0 <= m -> 0 <= round_nearest_even m l.
Proof.
  intros Hm. destruct l as [|[]]; simpl; try lia.
  destruct (Z.even m); lia.
Qed.

Lemma binary_round_aux_not_NaN (s : bool) (m e : Z) (l : location) :
  0 <= m ->
  Number.isNaN (binary_round_aux Number.prec Number.emax s m e l) = false.
Proof.
  intros Hm. unfold binary_round_aux.
  pose proof (shr_fexp_nonneg m e l Hm) as H1.
  destruct (shr_fexp Number.prec Number.emax m e l) as [mrs' e'].
  simpl in H1.
  pose proof (shr_fexp_nonneg _ e' loc_Exact
                (round_nearest_even_nonneg _ (loc_of_shr_record mrs') H1))
    as H2.
  destruct (shr_fexp Number.prec Number.emax _ e' loc_Exact) as [mrs'' e''].
  simpl in H2. destruct (shr_m mrs'') as [|q|q]; [done| |lia].
  by destruct (e'' <=? Number.emax - Number.prec).
Qed.

Lemma mul_not_NaN (x y : number) :
  Number.is_finite x = true -> Number.is_finite y = true ->
  Number.isNaN (Number.mul x y) = false.
Proof.
  destruct x as [sx|sx| |sx mx ex], y as [sy|sy| |sy my ey]; simpl;
    try done; intros _ _.
  by apply binary_round_aux_not_NaN.
Qed.

Lemma add_not_NaN (x y : number) :
  Number.is_finite x = true -> Number.isNaN y = false ->
  Number.isNaN (Number.add x y) = false.
Proof.
  destruct x as [sx|sx| |sx mx ex], y as [sy|sy| |sy my ey]; simpl;
    try done; intros _ _.
  - by destruct sx, sy.
  - unfold binary_normalize.
    destruct (cond_Zopp sx _ + cond_Zopp sy _) as [|q|q]; [done| |];
      unfold binary_round;
      destruct (shl_align _ _ _) as [mz ez];
      by apply binary_round_aux_not_NaN.
Qed.

(** *** [Math.min] and [Math.max] *)

Lemma min_le_r (n L : number) :
  Number.isNaN n = false -> Number.isNaN L = false ->
  Number.isNaN (Number.min n L) = false
  /\ Number.leb (Number.min n L) L = true.
Proof.
  intros Hn HL. unfold Number.min. rewrite Hn, HL. simpl.
  destruct (Number.is_neg_zero L && Number.is_pos_zero n) eqn:Hz.
  - split; [done | by apply leb_refl].
  - destruct (Number.ltb L n) eqn:Hlt.
    + split; [done | by apply leb_refl].
    + split; [done | by apply not_ltb_leb].
Qed.

Lemma max_zero_bounds (x L : number) :
  Number.isNaN x = false ->
  Number.leb x L = true -> Number.leb (Number.of_Z 0) L = true ->
  Number.leb (Number.of_Z 0) (Number.max (Number.of_Z 0) x) = true
  /\ Number.leb (Number.max (Number.of_Z 0) x) L = true.
Proof.
  intros Hx HxL H0L. unfold Number.max. rewrite Hx. simpl.
  rewrite andb_false_r.
  destruct (Number.ltb (S754_zero false) x) eqn:Hlt.
  - split; [by apply ltb_leb | done].
  - split; [done | exact H0L].
Qed.

End NumberFacts.

(** ** Rounded multiplication and division *)

Section RoundingFacts.

Lemma shr_1_locates (N D : Z) (mrs : shr_record) :
  0 < D -> 0 <= shr_m mrs -> locates N D mrs -> locates N (2 * D) (shr_1 mrs).
Proof.
  destruct mrs as [m r s]. unfold locates. simpl shr_m. simpl shr_r. simpl shr_s.
  intros HD Hm (Hb & Hr & Hs).
  assert (Hrs : r || s = true <-> N <> m * D).
  { rewrite orb_true_iff, Hr, Hs. lia. }
  destruct m as [|[p|p|]|q]; simpl; try lia; (split; [lia|]); rewrite Hrs; split; split; try lia; try done.
Qed.

Lemma iter_shr_1_locates (n : positive) (N D : Z) (mrs : shr_record) :
  0 < D -> 0 <= shr_m mrs -> locates N D mrs ->
  locates N (D * 2 ^ Zpos n) (SpecFloat.iter_pos shr_1 n mrs).
Proof.
  revert D mrs. induction n as [n IH|n IH|]; intros D mrs HD Hm Hloc; simpl SpecFloat.iter_pos.
  - replace (D * 2 ^ Zpos n~1) with (2 * D * 2 ^ Zpos n * 2 ^ Zpos n).
    2:{ replace (Zpos n~1) with (Zpos n + Zpos n + 1) by lia.
        rewrite !Z.pow_add_r by lia. lia. }
    assert (0 < 2 ^ Zpos n) by (apply Z.pow_pos_nonneg; lia).
    apply IH; [nia | | apply IH; [lia | | apply shr_1_locates; done]].
    + apply iter_shr_1_nonneg, shr_1_nonneg, Hm.
    + apply shr_1_nonneg, Hm.
  - replace (D * 2 ^ Zpos n~0) with (D * 2 ^ Zpos n * 2 ^ Zpos n).
    2:{ replace (Zpos n~0) with (Zpos n + Zpos n) by lia.
        rewrite !Z.pow_add_r by lia. lia. }
    assert (0 < 2 ^ Zpos n) by (apply Z.pow_pos_nonneg; lia).
    apply IH; [nia | | apply IH; done].
    by apply iter_shr_1_nonneg.
  - replace (D * 2 ^ 1) with (2 * D) by lia. by apply shr_1_locates.
Qed.

Lemma round_nearest_even_close (N D : Z) (mrs : shr_record) :
  0 < D -> locates N D mrs ->
  let mr := round_nearest_even (shr_m mrs) (loc_of_shr_record mrs) in
  shr_m mrs <= mr <= shr_m mrs + 1 /\ Z.abs (mr * D - N) * 2 <= D.
Proof.
  destruct mrs as [m r s]. unfold locates. simpl shr_m. simpl shr_r. simpl shr_s.
  intros HD (Hb & Hr & Hs).
  destruct r, s; simpl.
  - assert ((2 * m + 1) * D <= 2 * N) by (by apply Hr).
    assert (2 * N <> (2 * m + 1) * D) by (by apply Hs). lia.
  - assert ((2 * m + 1) * D <= 2 * N) by (by apply Hr).
    assert (~ (N <> m * D /\ 2 * N <> (2 * m + 1) * D)) by (rewrite <- Hs; done).
    destruct (Z.even m); lia.
  - assert (~ (2 * m + 1) * D <= 2 * N) by (rewrite <- Hr; done).
    lia.
  - assert (~ (2 * m + 1) * D <= 2 * N) by (rewrite <- Hr; done).
    assert (~ (N <> m * D /\ 2 * N <> (2 * m + 1) * D)) by (rewrite <- Hs; done).
    lia.
Qed.

Lemma digits2_pos_eq (q : positive) (k : Z) :
  2 ^ (k - 1) <= Zpos q < 2 ^ k -> Zpos (digits2_pos q) = k.
Proof.
  intros [Hlo Hhi]. pose proof (digits2_pos_bounds q) as [Hlo' Hhi'].
  assert (0 < k).
  { destruct (Z.lt_ge_cases 0 k); [done|].
    assert (2 ^ k <= 2 ^ 0) by (destruct (Z.lt_ge_cases k 0); [rewrite Z.pow_neg_r by done; lia|apply Z.pow_le_mono_r; lia]).
    simpl in *. lia. }
  destruct (Z.lt_trichotomy (Zpos (digits2_pos q)) k) as [Hlt|[?|Hgt]]; [|done|].
  - assert (2 ^ Zpos (digits2_pos q) <= 2 ^ (k - 1)) by (apply Z.pow_le_mono_r; lia). lia.
  - assert (2 ^ k <= 2 ^ (Zpos (digits2_pos q) - 1)) by (apply Z.pow_le_mono_r; lia). lia.
Qed.

Lemma shr_record_of_loc_m (m : Z) (l : location) :
  shr_m (shr_record_of_loc m l) = m.
Proof. by destruct l as [|[]]. Qed.

Lemma shr_fexp_shift (m : positive) (e : Z) (l : location) (N D : Z) :
  0 < D -> locates N D (shr_record_of_loc (Zpos m) l) ->
  53 <= Zpos (digits2_pos m) -> -1021 <= Zpos (digits2_pos m) + e ->
  exists mrs,
    shr_fexp Number.prec Number.emax (Zpos m) e l
    = (mrs, e + (Zpos (digits2_pos m) - 53))
    /\ locates N (D * 2 ^ (Zpos (digits2_pos m) - 53)) mrs
    /\ 2 ^ 52 <= shr_m mrs < 2 ^ 53.
Proof.
  intros HD Hloc Hd He.
  pose proof (digits2_pos_bounds m) as Hm.
  unfold shr_fexp. simpl Zdigits2. rewrite fexp_normal by lia.
  replace (Zpos (digits2_pos m) + e - 53 - e)
    with (Zpos (digits2_pos m) - 53) by lia.
  destruct (Zpos (digits2_pos m) - 53) as [|n|n] eqn:Hn; [| |lia].
  - rewrite Z.add_0_r. eexists. split; [reflexivity|].
    change (2 ^ 0) with 1. rewrite Z.mul_1_r, shr_record_of_loc_m.
    split; [done|]. replace (Zpos (digits2_pos m)) with 53 in Hm by lia.
    simpl in Hm. lia.
  - exists (SpecFloat.iter_pos shr_1 n (shr_record_of_loc (Zpos m) l)).
    split; [reflexivity|].
    assert (Hloc' : locates N (D * 2 ^ Zpos n)
                      (SpecFloat.iter_pos shr_1 n (shr_record_of_loc (Zpos m) l))).
    { apply iter_shr_1_locates; [done | rewrite shr_record_of_loc_m; lia | done]. }
    split; [done|].
    destruct Hloc as [Hb _], Hloc' as [Hb' _].
    rewrite shr_record_of_loc_m in Hb.
    set (m' := shr_m (SpecFloat.iter_pos shr_1 n (shr_record_of_loc (Zpos m) l))) in *.
    assert (0 < 2 ^ Zpos n) as Hpow by (apply Z.pow_pos_nonneg; lia).
    replace (Zpos (digits2_pos m)) with (53 + Zpos n) in Hm by lia.
    replace (53 + Zpos n - 1) with (52 + Zpos n) in Hm by lia.
    rewrite !Z.pow_add_r in Hm by lia.
    assert (m' * 2 ^ Zpos n < Zpos m + 1) by nia.
    assert (Zpos m < (m' + 1) * 2 ^ Zpos n) by nia.
    split; nia.
Qed.

(** Rounding a located value: the result is a normal number whose
    mantissa, brought back to the scale of [N/D], is within a relative
    error of 2^-53 of it. *)
Lemma binary_round_aux_correct (s : bool) (m : positive) (e : Z) (l : location)
    (N D : Z) :
  0 < D -> locates N D (shr_record_of_loc (Zpos m) l) ->
  53 <= Zpos (digits2_pos m) ->
  -1021 <= Zpos (digits2_pos m) + e -> Zpos (digits2_pos m) + e < 1024 ->
  exists m' k,
    binary_round_aux Number.prec Number.emax s (Zpos m) e l
    = S754_finite s m' (e + k)
    /\ digits2_pos m' = 53%positive
    /\ Zpos (digits2_pos m) - 53 <= k <= Zpos (digits2_pos m) - 52
    /\ Z.abs (Zpos m' * 2 ^ k * D - N) * 2 ^ 53 <= N.
Proof.
  intros HD Hloc Hd Hlo Hhi.
  destruct (shr_fexp_shift m e l N D HD Hloc Hd Hlo) as (mrs & Hshr & Hloc' & Hm').
  set (n := Zpos (digits2_pos m) - 53) in *.
  assert (0 < 2 ^ n) as Hpow by (apply Z.pow_pos_nonneg; lia).
  assert (0 < D * 2 ^ n) as HD' by nia.
  destruct (round_nearest_even_close N (D * 2 ^ n) mrs HD' Hloc') as [Hmr Herr].
  unfold binary_round_aux. rewrite Hshr.
  set (mr := round_nearest_even (shr_m mrs) (loc_of_shr_record mrs)) in *.
  assert (HN : 2 ^ 52 * (D * 2 ^ n) <= N) by (destruct Hloc' as [? _]; nia).
  destruct mr as [|q|q] eqn:Hq; [lia| |lia].
  destruct (Z.lt_ge_cases (Zpos q) (2 ^ 53)) as [Hlt|Hge].
  - assert (Hdq : Zpos (digits2_pos q) = 53) by (apply digits2_pos_eq; simpl; lia).
    assert (digits2_pos q = 53%positive) as Hdq' by lia.
    assert (shr_fexp Number.prec Number.emax (Zpos q) (e + n) loc_Exact
            = ({| shr_m := Zpos q; shr_r := false; shr_s := false |}, e + n)) as Hs2.
    { unfold shr_fexp. simpl Zdigits2. rewrite Hdq', fexp_normal by lia.
      replace (53 + (e + n) - 53 - (e + n)) with 0 by lia. reflexivity. }
    rewrite Hs2. simpl shr_m.
    exists q, n. split; [|split; [done|split; [lia|]]].
    + unfold Number.emax, Number.prec.
      destruct (Z.leb_spec (e + n) (1024 - 53)); [done|lia].
    + rewrite <- Z.mul_assoc, (Z.mul_comm (2 ^ n)). lia.
  - assert (Zpos q = 2 ^ 53) as Hq53 by lia.
    assert (q = 9007199254740992%positive) as -> by (simpl in Hq53; lia).
    assert (shr_fexp Number.prec Number.emax (Zpos 9007199254740992) (e + n) loc_Exact
            = ({| shr_m := 4503599627370496; shr_r := false; shr_s := false |},
               e + n + 1)) as Hs2.
    { unfold shr_fexp. change (Zdigits2 9007199254740992) with 54.
      rewrite fexp_normal by lia.
      replace (54 + (e + n) - 53 - (e + n)) with 1 by lia.
      reflexivity. }
    rewrite Hs2. simpl shr_m.
    exists 4503599627370496%positive, (n + 1).
    split; [|split; [done|split; [lia|]]].
    + replace (e + (n + 1)) with (e + n + 1) by lia.
      unfold Number.emax, Number.prec.
      destruct (Z.leb_spec (e + n + 1) (1024 - 53)); [done|lia].
    + rewrite Z.pow_add_r by lia.
      replace (Zpos 4503599627370496 * (2 ^ n * 2 ^ 1) * D)
        with (Zpos 9007199254740992 * (D * 2 ^ n)) by lia.
      lia.
Qed.

Lemma digits2_pos_range (q : positive) (a b : Z) :
  0 <= a -> 2 ^ a <= Zpos q < 2 ^ b -> a < Zpos (digits2_pos q) <= b.
Proof.
  intros Ha [Hlo Hhi]. pose proof (digits2_pos_bounds q) as [Hlo' Hhi'].
  split.
  - destruct (Z.lt_ge_cases a (Zpos (digits2_pos q))); [done|].
    assert (2 ^ Zpos (digits2_pos q) <= 2 ^ a) by (apply Z.pow_le_mono_r; lia).
    lia.
  - destruct (Z.le_gt_cases (Zpos (digits2_pos q)) b); [done|].
    assert (0 <= b).
    { destruct (Z.lt_ge_cases b 0); [|done]. rewrite Z.pow_neg_r in Hhi; lia. }
    assert (2 ^ b <= 2 ^ (Zpos (digits2_pos q) - 1))
      by (apply Z.pow_le_mono_r; lia).
    lia.
Qed.

Lemma mantissa_bounds (m : positive) :
  digits2_pos m = 53%positive -> 2 ^ 52 <= Zpos m < 2 ^ 53.
Proof.
  intros Hd. pose proof (digits2_pos_bounds m) as H. rewrite Hd in H. exact H.
Qed.

(** The product of two normal numbers, rounded. *)
Lemma mul_correct (sx sy : bool) (mx my : positive) (ex ey : Z) :
  digits2_pos mx = 53%positive -> digits2_pos my = 53%positive ->
  -1126 <= ex + ey -> ex + ey < 918 ->
  exists m k,
    Number.mul (S754_finite sx mx ex) (S754_finite sy my ey)
    = S754_finite (xorb sx sy) m (ex + ey + k)
    /\ digits2_pos m = 53%positive
    /\ 52 <= k <= 54
    /\ Z.abs (Zpos m * 2 ^ k - Zpos mx * Zpos my) * 2 ^ 53
       <= Zpos mx * Zpos my.
Proof.
  intros Hx Hy Hlo Hhi.
  pose proof (mantissa_bounds mx Hx) as Bx.
  pose proof (mantissa_bounds my Hy) as By.
  assert (Hd : 104 < Zpos (digits2_pos (mx * my)) <= 106).
  { apply digits2_pos_range; [lia|]. rewrite Pos2Z.inj_mul.
    change (2 ^ 104) with (2 ^ 52 * 2 ^ 52).
    change (2 ^ 106) with (2 ^ 53 * 2 ^ 53). nia. }
  destruct (binary_round_aux_correct (xorb sx sy) (mx * my) (ex + ey) loc_Exact
              (Zpos (mx * my)) 1) as (m & k & Heq & Hm & Hk & Herr);
    try lia.
  { unfold locates. simpl. split; [lia|]. split; split; try done; lia. }
  exists m, k. split; [exact Heq|]. split; [done|]. split; [lia|].
  rewrite Z.mul_1_r, Pos2Z.inj_mul in Herr. exact Herr.
Qed.

Lemma new_location_locates (N D q r : Z) :
  0 < D -> 0 <= r < D -> N = D * q + r ->
  locates N D (shr_record_of_loc q (new_location D r)).
Proof.
  intros HD Hr ->. unfold new_location, new_location_even, new_location_odd.
  destruct (Z.even D) eqn:Hev.
  - destruct (Z.eqb_spec r 0) as [->|Hr0].
    + unfold locates. simpl. split; [lia|]. split; split; try done; lia.
    + destruct (Z.compare_spec (2 * r) D); unfold locates; simpl;
        (split; [lia|]); split; split; try done; try lia.
  - assert (Z.odd D = true) as Hodd by (rewrite <- Z.negb_even, Hev; done).
    apply Z.odd_spec in Hodd as [h Hh].
    destruct (Z.eqb_spec r 0) as [->|Hr0].
    + unfold locates. simpl. split; [lia|]. split; split; try done; lia.
    + destruct (Z.compare_spec (2 * r + 1) D); unfold locates; simpl;
        (split; [lia|]); split; split; try done; try lia.
Qed.

(** The quotient of two normal numbers, rounded. *)
Lemma div_correct (sx sy : bool) (mx my : positive) (ex ey : Z) :
  digits2_pos mx = 53%positive -> digits2_pos my = 53%positive ->
  -1021 <= ex - ey -> ex - ey < 1022 ->
  exists m k,
    Number.div (S754_finite sx mx ex) (S754_finite sy my ey)
    = S754_finite (xorb sx sy) m (ex - ey - 53 + k)
    /\ digits2_pos m = 53%positive
    /\ 0 <= k <= 2
    /\ Z.abs (Zpos m * 2 ^ k * Zpos my - Zpos mx * 2 ^ 53) * 2 ^ 53
       <= Zpos mx * 2 ^ 53.
Proof.
  intros Hx Hy Hlo Hhi.
  pose proof (mantissa_bounds mx Hx) as Bx.
  pose proof (mantissa_bounds my Hy) as By.
  unfold Number.div, SFdiv, SFdiv_core_binary. simpl Zdigits2.
  rewrite Hx, Hy.
  replace (53 + ex - (53 + ey)) with (ex - ey) by lia.
  rewrite fexp_normal by lia.
  replace (Z.min (ex - ey - 53) (ex - ey)) with (ex - ey - 53) by lia.
  replace (ex - ey - (ex - ey - 53)) with 53 by lia.
  rewrite Z.shiftl_mul_pow2 by lia.
  pose proof (Z_div_mod (Zpos mx * 2 ^ 53) (Zpos my) ltac:(lia)) as Hdm.
  destruct (Z.div_eucl (Zpos mx * 2 ^ 53) (Zpos my)) as [q r].
  destruct Hdm as [HN Hr].
  assert (2 ^ 52 <= q < 2 ^ 54) as Hq.
  { change (2 ^ 54) with (2 * 2 ^ 53). change (2 ^ 53) with (2 * 2 ^ 52) in *.
    split; nia. }
  destruct q as [|q|q]; [lia| |lia].
  assert (Hd : 52 < Zpos (digits2_pos q) <= 54)
    by (apply digits2_pos_range; lia).
  destruct (binary_round_aux_correct (xorb sx sy) q (ex - ey - 53)
              (new_location (Zpos my) r) (Zpos mx * 2 ^ 53) (Zpos my))
    as (m & k & Heq & Hm & Hk & Herr); try lia.
  { apply new_location_locates; lia. }
  exists m, k. split; [exact Heq|]. split; [done|]. split; [lia|exact Herr].
Qed.

Lemma near_of_abs (X Y : Z) : Z.abs (X - Y) * 2 ^ 53 <= Y -> near 1 X Y.
Proof. unfold near. change (Z.of_nat 1) with 1. rewrite !Z.pow_1_r. lia. Qed.

Lemma near_scale (c : Z) (j : nat) (X Y : Z) :
  0 <= c -> near j X Y -> near j (c * X) (c * Y).
Proof.
  unfold near. intros Hc [H1 H2].
  split.
  - replace ((2 ^ 53 - 1) ^ Z.of_nat j * (c * Y))
      with (c * ((2 ^ 53 - 1) ^ Z.of_nat j * Y)) by ring.
    replace ((2 ^ 53) ^ Z.of_nat j * (c * X))
      with (c * ((2 ^ 53) ^ Z.of_nat j * X)) by ring.
    by apply Z.mul_le_mono_nonneg_l.
  - replace ((2 ^ 53 + 1) ^ Z.of_nat j * (c * Y))
      with (c * ((2 ^ 53 + 1) ^ Z.of_nat j * Y)) by ring.
    replace ((2 ^ 53) ^ Z.of_nat j * (c * X))
      with (c * ((2 ^ 53) ^ Z.of_nat j * X)) by ring.
    by apply Z.mul_le_mono_nonneg_l.
Qed.

Lemma near_cancel (c : Z) (j : nat) (X Y : Z) :
  0 < c -> near j (c * X) (c * Y) -> near j X Y.
Proof.
  unfold near. intros Hc [H1 H2].
  split.
  - apply (Z.mul_le_mono_pos_l _ _ c Hc).
    replace (c * ((2 ^ 53 - 1) ^ Z.of_nat j * Y))
      with ((2 ^ 53 - 1) ^ Z.of_nat j * (c * Y)) by ring.
    replace (c * ((2 ^ 53) ^ Z.of_nat j * X))
      with ((2 ^ 53) ^ Z.of_nat j * (c * X)) by ring.
    done.
  - apply (Z.mul_le_mono_pos_l _ _ c Hc).
    replace (c * ((2 ^ 53 + 1) ^ Z.of_nat j * Y))
      with ((2 ^ 53 + 1) ^ Z.of_nat j * (c * Y)) by ring.
    replace (c * ((2 ^ 53) ^ Z.of_nat j * X))
      with ((2 ^ 53) ^ Z.of_nat j * (c * X)) by ring.
    done.
Qed.

Lemma near_trans (i j : nat) (X Y W : Z) :
  near i X Y -> near j Y W -> near (i + j) X W.
Proof.
  unfold near. intros [H1 H2] [H3 H4].
  rewrite Nat2Z.inj_add, !Z.pow_add_r by lia.
  assert (0 <= (2 ^ 53 - 1) ^ Z.of_nat i) by (apply Z.pow_nonneg; lia).
  assert (0 <= (2 ^ 53) ^ Z.of_nat j) by (apply Z.pow_nonneg; lia).
  assert (0 <= (2 ^ 53 + 1) ^ Z.of_nat i) by (apply Z.pow_nonneg; lia).
  set (a := (2 ^ 53 - 1) ^ Z.of_nat i) in *.
  set (a' := (2 ^ 53 - 1) ^ Z.of_nat j) in *.
  set (u := (2 ^ 53) ^ Z.of_nat i) in *.
  set (u' := (2 ^ 53) ^ Z.of_nat j) in *.
  set (b := (2 ^ 53 + 1) ^ Z.of_nat i) in *.
  set (b' := (2 ^ 53 + 1) ^ Z.of_nat j) in *.
  split.
  - apply Z.le_trans with (a * (u' * Y)).
    + replace (a * a' * W) with (a * (a' * W)) by ring.
      by apply Z.mul_le_mono_nonneg_l.
    + replace (a * (u' * Y)) with (u' * (a * Y)) by ring.
      replace (u * u' * X) with (u' * (u * X)) by ring.
      by apply Z.mul_le_mono_nonneg_l.
  - apply Z.le_trans with (u' * (b * Y)).
    + replace (u * u' * X) with (u' * (u * X)) by ring.
      by apply Z.mul_le_mono_nonneg_l.
    + replace (u' * (b * Y)) with (b * (u' * Y)) by ring.
      replace (b * b' * W) with (b * (b' * W)) by ring.
      by apply Z.mul_le_mono_nonneg_l.
Qed.

Lemma near_eq (j : nat) (X X' Y Y' : Z) :
  X = X' -> Y = Y' -> near j X Y -> near j X' Y'.
Proof. by intros -> ->. Qed.

(** Four roundings of a value below 2^50 stay within one unit of it. *)
Lemma near_4_within_one (X p T : Z) :
  0 < T -> 1 <= p <= 2 ^ 50 -> near 4 X (p * T) ->
  (p - 1) * T < X < (p + 1) * T.
Proof.
  unfold near. change (Z.of_nat 4) with 4.
  let c := eval vm_compute in ((2 ^ 53 - 1) ^ 4) in
  change ((2 ^ 53 - 1) ^ 4) with c.
  let c := eval vm_compute in ((2 ^ 53) ^ 4) in change ((2 ^ 53) ^ 4) with c.
  let c := eval vm_compute in ((2 ^ 53 + 1) ^ 4) in
  change ((2 ^ 53 + 1) ^ 4) with c.
  intros HT Hp [H1 H2]. change (2 ^ 50) with 1125899906842624 in Hp.
  assert (p * T <= 1125899906842624 * T) by nia.
  assert (T <= p * T) by nia.
  lia.
Qed.

Lemma of_Z_100 :
  Number.of_Z 100 = S754_finite false 7036874417766400 (-46).
Proof. reflexivity. Qed.

(** The four rounded operations of the round trip, on normal numbers:
    the result is the offset up to four roundings. *)
Lemma round_trip_near (mp mL : positive) (ep eL : Z) :
  digits2_pos mp = 53%positive -> digits2_pos mL = 53%positive ->
  -52 <= ep <= 0 -> -52 <= eL <= 0 ->
  exists md K,
    Number.mul
      (Number.div
         (Number.mul (Number.div (S754_finite false mp ep)
                                 (S754_finite false mL eL))
                     (Number.of_Z 100))
         (Number.of_Z 100))
      (S754_finite false mL eL)
    = S754_finite false md (ep - 106 + K)
    /\ 0 <= K
    /\ digits2_pos md = 53%positive
    /\ near 4 (Zpos md * 2 ^ K) (Zpos mp * 2 ^ 106).
Proof.
  intros Hdp HdL Hep HeL. rewrite of_Z_100.
  destruct (div_correct false false mp mL ep eL Hdp HdL ltac:(lia) ltac:(lia))
    as (ma & k1 & Ek1 & Hda & Hk1 & F1).
  rewrite Ek1. cbn [xorb].
  destruct (mul_correct false false ma 7036874417766400 (ep - eL - 53 + k1) (-46)
              Hda eq_refl ltac:(lia) ltac:(lia))
    as (mb & k2 & Ek2 & Hdb & Hk2 & F2).
  rewrite Ek2. cbn [xorb].
  destruct (div_correct false false mb 7036874417766400
              (ep - eL - 53 + k1 + -46 + k2) (-46)
              Hdb eq_refl ltac:(lia) ltac:(lia))
    as (mc & k3 & Ek3 & Hdc & Hk3 & F3).
  rewrite Ek3. cbn [xorb].
  destruct (mul_correct false false mc mL
              (ep - eL - 53 + k1 + -46 + k2 - -46 - 53 + k3) eL
              Hdc HdL ltac:(lia) ltac:(lia))
    as (md & k4 & Ek4 & Hdd & Hk4 & F4).
  rewrite Ek4. cbn [xorb].
  exists md, (k1 + k2 + k3 + k4).
  split; [f_equal; lia|]. split; [lia|]. split; [done|].
  apply near_of_abs in F1, F2, F3, F4.
  set (m100 := Zpos 7036874417766400) in *.
  assert (0 < m100) by done.
  assert (0 < 2 ^ k1) by (apply Z.pow_pos_nonneg; lia).
  assert (0 < 2 ^ k2) by (apply Z.pow_pos_nonneg; lia).
  assert (0 < 2 ^ k3) by (apply Z.pow_pos_nonneg; lia).
  assert (0 < 2 ^ k4) by (apply Z.pow_pos_nonneg; lia).
  (* d against c, c against b *)
  pose proof (near_scale (2 ^ k3 * m100) 1 _ _ ltac:(lia) F4) as S1.
  pose proof (near_scale (Zpos mL) 1 _ _ ltac:(lia) F3) as S2.
  assert (T1 : near 2 (2 ^ k3 * m100 * (Zpos md * 2 ^ k4))
                      (Zpos mL * (Zpos mb * 2 ^ 53))).
  { apply (near_trans 1 1 _ (Zpos mL * (Zpos mc * 2 ^ k3 * m100)));
      [|exact S2].
    refine (near_eq 1 _ _ _ _ eq_refl _ S1). ring. }
  (* against a *)
  pose proof (near_scale (2 ^ k2) 2 _ _ ltac:(lia) T1) as S3.
  pose proof (near_scale (Zpos mL * 2 ^ 53) 1 _ _ ltac:(lia) F2) as S4.
  assert (T2 : near 3 (m100 * (2 ^ k2 * (2 ^ k3 * (Zpos md * 2 ^ k4))))
                      (m100 * (Zpos mL * 2 ^ 53 * Zpos ma))).
  { refine (near_eq 3 _ _ _ _ _ _
              (near_trans 2 1 _ (Zpos mL * 2 ^ 53 * (Zpos mb * 2 ^ k2)) _
                          (near_eq 2 _ _ _ _ eq_refl _ S3) S4)); ring. }
  pose proof (near_cancel m100 3 _ _ ltac:(lia) T2) as C.
  (* against the offset *)
  pose proof (near_scale (2 ^ k1) 3 _ _ ltac:(lia) C) as S5.
  pose proof (near_scale (2 ^ 53) 1 _ _ ltac:(lia) F1) as S6.
  assert (T3 : near 4 (2 ^ k1 * (2 ^ k2 * (2 ^ k3 * (Zpos md * 2 ^ k4))))
                      (2 ^ 53 * (Zpos mp * 2 ^ 53))).
  { apply (near_trans 3 1 _ (2 ^ 53 * (Zpos ma * 2 ^ k1 * Zpos mL)));
      [|exact S6].
    refine (near_eq 3 _ _ _ _ eq_refl _ S5). ring. }
  refine (near_eq 4 _ _ _ _ _ _ T3).
  - rewrite !Z.pow_add_r by lia. ring.
  - change (2 ^ 106) with (2 ^ 53 * 2 ^ 53). ring.
Qed.

Lemma floor_within_one (md : positive) (ed p : Z) :
  1 <= p -> ed < 0 ->
  (p - 1) * 2 ^ (- ed) < Zpos md < (p + 1) * 2 ^ (- ed) ->
  Number.floor (S754_finite false md ed) = Number.of_Z p
  \/ Number.floor (S754_finite false md ed) = Number.of_Z (p - 1).
Proof.
  intros Hp Hed Hb. unfold Number.floor.
  destruct (Z.leb_spec 0 ed) as [|_]; [lia|].
  destruct ed as [|w|w]; [lia|lia|]. cbv zeta. unfold Number.floorZ.
  change (- Zneg w) with (Zpos w) in Hb.
  assert (0 < 2 ^ Zpos w) as Hw by (apply Z.pow_pos_nonneg; lia).
  pose proof (Z_div_mod (Zpos md) (2 ^ Zpos w) ltac:(lia)) as Hdm.
  unfold Z.div. destruct (Z.div_eucl (Zpos md) (2 ^ Zpos w)) as [q r].
  destruct Hdm as [Hmd Hr].
  assert (q = p \/ q = p - 1) as [->| ->] by nia.
  - destruct (Z.eqb_spec p 0); [lia|]. by left.
  - destruct (Z.eqb_spec (p - 1) 0) as [->|]; by right.
Qed.

(** An offset turned into a progress and back is the offset or the one
    before it. *)
Lemma position_round_trip_inside (t : string) (p : Z) :
  1 <= p <= Z.of_nat (String.length t) ->
  Z.of_nat (String.length t) <= 2 ^ 50 ->
  position_round_trip (Number.of_Z p) (with_text t) = Number.of_Z p
  \/ position_round_trip (Number.of_Z p) (with_text t) = Number.of_Z (p - 1).
Proof.
  intros Hp Hlen.
  unfold position_round_trip, PDFHandler.getPositionAtProgress,
    PDFHandler.getProgressAtPosition.
  cbn [with_text PDFHandler.set_text extractedText].
  destruct (Nat.eqb_spec (String.length t) 0) as [Hz|_]; [lia|].
  unfold length_number.
  destruct p as [|pp|pp]; [lia| |lia].
  destruct (Z.of_nat (String.length t)) as [|pl|pl] eqn:HL; [lia| |lia].
  change (2 ^ 50) with 1125899906842624 in Hlen.
  destruct (of_Z_pos pp ltac:(change (2 ^ 53) with 9007199254740992; lia))
    as (mp & ep & Hofp & Hdp & Hep & Hmp).
  rewrite Hofp.
  destruct (of_Z_pos pl ltac:(change (2 ^ 53) with 9007199254740992; lia))
    as (mL & eL & -> & HdL & HeL & HmL).
  destruct (round_trip_near mp mL ep eL Hdp HdL Hep HeL)
    as (md & K & -> & HK & Hdd & Hnear).
  pose proof (mantissa_bounds md Hdd) as Bd.
  assert (0 < 2 ^ (- ep)) as Hpow by (apply Z.pow_pos_nonneg; lia).
  assert (0 < 2 ^ K) as HpowK by (apply Z.pow_pos_nonneg; lia).
  set (T := 2 ^ (- ep) * 2 ^ 106).
  assert (HT : 0 < T) by (unfold T; change (2 ^ 106) with
    81129638414606681695789005144064; lia).
  assert (Hnear' : near 4 (Zpos md * 2 ^ K) (Zpos pp * T)).
  { refine (near_eq 4 _ _ _ _ eq_refl _ Hnear). rewrite Hmp. unfold T. ring. }
  assert (1 <= Zpos pp <= 2 ^ 50) as Hpp
    by (change (2 ^ 50) with 1125899906842624; lia).
  pose proof (near_4_within_one _ _ _ HT Hpp Hnear') as [Hlo Hhi].
  assert (HTK : T = 2 ^ K * 2 ^ (106 - ep - K) /\ K < 106 - ep) .
  { destruct (Z.lt_ge_cases K (106 - ep)) as [Hlt|Hge].
    - split; [|done]. unfold T. rewrite <- !Z.pow_add_r by lia. f_equal. lia.
    - exfalso.
      assert (T <= 2 ^ K).
      { unfold T. rewrite <- Z.pow_add_r by lia. apply Z.pow_le_mono_r; lia. }
      change (2 ^ 52) with 4503599627370496 in Bd. nia. }
  destruct HTK as [HTK HKlt].
  rewrite <- Hofp. apply floor_within_one; [lia|lia|].
  replace (- (ep - 106 + K)) with (106 - ep - K) by lia.
  assert (0 < 2 ^ (106 - ep - K)) by (apply Z.pow_pos_nonneg; lia).
  rewrite HTK in Hlo, Hhi. split; nia.
Qed.

(** The offset 0 comes back as 0 on every loaded text. *)
Lemma position_round_trip_at_start (t : string) :
  t ≠ EmptyString -> Z.of_nat (String.length t) < 2 ^ 53 ->
  position_round_trip (Number.of_Z 0) (with_text t) = Number.of_Z 0.
Proof.
  intros Ht Hlen. unfold position_round_trip, PDFHandler.getPositionAtProgress,
    PDFHandler.getProgressAtPosition.
  cbn [with_text PDFHandler.set_text extractedText].
  destruct t as [|c t]; [done|].
  destruct (Nat.eqb_spec (String.length (String c t)) 0) as [Hz|_];
    [simpl in Hz; lia|].
  unfold length_number.
  destruct (of_Z_pos (Pos.of_succ_nat (String.length t)) ltac:(simpl in Hlen; lia))
    as (m & e & Hof & _).
  change (Z.of_nat (String.length (String c t)))
    with (Zpos (Pos.of_succ_nat (String.length t))).
  rewrite Hof. reflexivity.
Qed.

(** *** No overflow in a division by 100 *)

Lemma shr_1_le (mrs : shr_record) :
  0 <= shr_m mrs -> shr_m (shr_1 mrs) <= shr_m mrs.
Proof.
  destruct mrs as [m r s]. simpl. destruct m as [|[p|p|]|[p|p|]]; simpl; lia.
Qed.

Lemma iter_shr_1_le (n : positive) (mrs : shr_record) :
  0 <= shr_m mrs -> shr_m (SpecFloat.iter_pos shr_1 n mrs) <= shr_m mrs.
Proof.
  revert mrs. induction n as [n IH|n IH|]; intros mrs Hm; simpl.
  - pose proof (shr_1_le mrs Hm). pose proof (shr_1_nonneg mrs Hm) as H1.
    pose proof (IH _ H1). pose proof (iter_shr_1_nonneg n _ H1) as H2.
    pose proof (IH _ H2). lia.
  - pose proof (IH _ Hm). pose proof (iter_shr_1_nonneg n _ Hm) as H2.
    pose proof (IH _ H2). lia.
  - by apply shr_1_le.
Qed.

(** Shifting to the format: the mantissa does not grow, and the exponent
    is the larger of the one given and the one of the format. *)
Lemma shr_fexp_bounds (m e : Z) (l : location) :
  0 <= m ->
  let r := shr_fexp Number.prec Number.emax m e l in
  0 <= shr_m (fst r) <= m
  /\ snd r = Z.max e (fexp Number.prec Number.emax (Zdigits2 m + e)).
Proof.
  intros Hm. cbv zeta. unfold shr_fexp, shr.
  assert (shr_m (shr_record_of_loc m l) = m) as Hrec by (by destruct l as [|[]]).
  destruct (fexp Number.prec Number.emax (Zdigits2 m + e) - e) as [|n|n] eqn:Hn;
    cbn [fst snd]; rewrite ?Hrec.
  - split; lia.
  - pose proof (iter_shr_1_le n (shr_record_of_loc m l)) as Hle.
    pose proof (iter_shr_1_nonneg n (shr_record_of_loc m l)) as Hge.
    rewrite Hrec in Hle, Hge. split; lia.
  - split; lia.
Qed.

Lemma round_nearest_even_bounds (m : Z) (l : location) :
  m <= round_nearest_even m l <= m + 1.
Proof. destruct l as [|[]]; simpl; try lia. destruct (Z.even m); lia. Qed.

Lemma Zdigits2_le (m n : Z) : 0 <= n -> 0 <= m < 2 ^ n -> Zdigits2 m <= n.
Proof.
  intros Hn Hm. destruct m as [|p|p]; simpl; [lia| |lia].
  apply digits2_pos_le; lia.
Qed.

Lemma fexp_le (x b : Z) :
  x <= b + 53 -> -1074 <= b -> fexp Number.prec Number.emax x <= b.
Proof. unfold fexp, emin, Number.prec, Number.emax. lia. Qed.

(** Rounding a mantissa below 2^54 at an exponent of at most 964 does
    not overflow. *)
Lemma binary_round_aux_finite (s : bool) (m e : Z) (l : location) :
  0 <= m < 2 ^ 54 -> e <= 964 ->
  Number.is_finite (binary_round_aux Number.prec Number.emax s m e l) = true.
Proof.
  intros Hm He. unfold binary_round_aux.
  pose proof (shr_fexp_bounds m e l ltac:(lia)) as [Hm1 He1].
  destruct (shr_fexp Number.prec Number.emax m e l) as [mrs' e1].
  cbn [fst snd] in Hm1, He1.
  pose proof (round_nearest_even_bounds (shr_m mrs') (loc_of_shr_record mrs'))
    as Hmr.
  set (mr := round_nearest_even (shr_m mrs') (loc_of_shr_record mrs')) in *.
  pose proof (shr_fexp_bounds mr e1 loc_Exact ltac:(lia)) as [Hm2 He2].
  destruct (shr_fexp Number.prec Number.emax mr e1 loc_Exact) as [mrs'' e2].
  cbn [fst snd] in Hm2, He2.
  assert (e1 <= 965).
  { rewrite He1. apply Z.max_lub; [lia|].
    apply fexp_le; [|lia].
    pose proof (Zdigits2_le m 54 ltac:(lia) Hm). lia. }
  assert (e2 <= 967).
  { rewrite He2. apply Z.max_lub; [lia|].
    apply fexp_le; [|lia].
    pose proof (Zdigits2_le mr 55 ltac:(lia)
                  ltac:(change (2 ^ 55) with (2 * 2 ^ 54); lia)). lia. }
  destruct (shr_m mrs'') as [|q|q]; [done| |lia].
  destruct (Z.leb_spec e2 (Number.emax - Number.prec)) as [|Hgt]; [done|].
  unfold Number.emax, Number.prec in Hgt. lia.
Qed.

(** A hundredth of a finite number is a finite number. *)
Lemma div_100_finite (x : number) :
  Number.is_finite x = true -> Number.valid x = true ->
  Number.is_finite (Number.div x (Number.of_Z 100)) = true.
Proof.
  rewrite of_Z_100.
  destruct x as [s|s| |s m e]; try done. intros _ Hvalid.
  unfold Number.valid in Hvalid. cbn [valid_binary] in Hvalid. unfold bounded, canonical_mantissa in Hvalid.
  apply andb_true_iff in Hvalid as [Hcan He].
  apply Z.eqb_eq in Hcan. apply Z.leb_le in He.
  unfold Number.div, SFdiv, SFdiv_core_binary.
  change (Zdigits2 7036874417766400) with 53. simpl Zdigits2.
  set (d1 := Zpos (digits2_pos m)) in *.
  assert (1 <= d1) by (unfold d1; lia).
  assert (Hd1 : d1 <= 53 /\ -1074 <= e).
  { revert Hcan. unfold fexp, emin, Number.prec, Number.emax. lia. }
  destruct Hd1 as [Hd1 Hemin].
  unfold Number.emax, Number.prec in He.
  pose proof (digits2_pos_bounds m) as [_ Bm]. fold d1 in Bm.
  set (e' := Z.min (fexp Number.prec Number.emax (d1 + e - (53 + -46)))
                   (e - -46)).
  assert (He' : e' <= 964 /\ 0 <= e - -46 - e' <= 106 - d1).
  { unfold e', fexp, emin, Number.prec, Number.emax. lia. }
  destruct He' as [He' Hs].
  set (m' := match e - -46 - e' with
             | 0 => Zpos m
             | Zpos _ => Z.shiftl (Zpos m) (e - -46 - e')
             | Zneg _ => 0
             end).
  assert (Hm' : 0 <= m' < 2 ^ 106).
  { unfold m'. destruct (e - -46 - e') as [|sp|sp] eqn:Hsp; [| |lia].
    - split; [lia|]. eapply Z.lt_le_trans; [exact Bm|].
      apply Z.pow_le_mono_r; lia.
    - rewrite Z.shiftl_mul_pow2 by lia.
      assert (0 < 2 ^ Zpos sp) by (apply Z.pow_pos_nonneg; lia).
      split; [lia|].
      apply Z.lt_le_trans with (2 ^ d1 * 2 ^ Zpos sp); [nia|].
      rewrite <- Z.pow_add_r by lia. apply Z.pow_le_mono_r; lia. }
  pose proof (Z_div_mod m' 7036874417766400 ltac:(lia)) as Hdm.
  destruct (Z.div_eucl m' 7036874417766400) as [q r].
  destruct Hdm as [Hq Hr].
  apply binary_round_aux_finite; [|exact He'].
  change (2 ^ 106) with (4503599627370496 * 2 ^ 54) in Hm'.
  split; nia.
Qed.

(** *** Percentages *)

(** Comparison of two positive normal numbers. *)
Lemma leb_normal (mx my : positive) (ex ey : Z) :
  ex < ey \/ (ex = ey /\ Zpos mx <= Zpos my) ->
  Number.leb (S754_finite false mx ex) (S754_finite false my ey) = true.
Proof.
  intros H. unfold Number.leb, SFleb. simpl.
  destruct (Z.compare_spec ex ey) as [Heq|Hlt|Hgt]; [|done|lia].
  destruct H as [?|[_ Hm]]; [lia|].
  rewrite Pos.compare_cont_spec. simpl.
  destruct (Pos.compare_spec mx my); try done. lia.
Qed.

(** If [M * 2^x <= 2^y * C] and [C < M * 2^j] then [x < y + j]. *)
Lemma pow2_exponent_bound (M C x y j : Z) :
  0 <= y -> 0 <= j -> 0 < M ->
  M * 2 ^ x <= 2 ^ y * C -> C < M * 2 ^ j -> x < y + j.
Proof.
  intros Hy Hj HM Hle Hlt.
  destruct (Z.lt_ge_cases x (y + j)) as [|Hge]; [done|]. exfalso.
  replace x with (y + j + (x - (y + j))) in Hle by lia.
  rewrite !Z.pow_add_r in Hle by lia.
  assert (0 < 2 ^ y) by (apply Z.pow_pos_nonneg; lia).
  assert (0 < 2 ^ j) by (apply Z.pow_pos_nonneg; lia).
  assert (1 <= 2 ^ (x - (y + j))) by (apply (Z.pow_le_mono_r 2 0); lia).
  assert (M * 2 ^ j * 1 <= M * 2 ^ j * 2 ^ (x - (y + j)))
    by (apply Z.mul_le_mono_nonneg_l; lia).
  assert (2 ^ y * (M * 2 ^ j * 2 ^ (x - (y + j))) <= 2 ^ y * C) by
    (replace (2 ^ y * (M * 2 ^ j * 2 ^ (x - (y + j))))
       with (M * (2 ^ y * 2 ^ j * 2 ^ (x - (y + j)))) by ring; done).
  apply Z.mul_le_mono_pos_l in H3; [|done]. lia.
Qed.

Lemma pow2_cancel (M C y j : Z) :
  0 <= y -> 0 <= j -> M * 2 ^ (y + j) <= 2 ^ y * C -> M * 2 ^ j <= C.
Proof.
  intros Hy Hj Hle. rewrite Z.pow_add_r in Hle by lia.
  assert (0 < 2 ^ y) by (apply Z.pow_pos_nonneg; lia).
  apply (Z.mul_le_mono_pos_l _ _ (2 ^ y)); [done|].
  replace (2 ^ y * (M * 2 ^ j)) with (M * (2 ^ y * 2 ^ j)) by ring. done.
Qed.

(** A rounded quotient of two normal numbers, the first at most the
    second, is at most one. *)
Lemma div_at_most_one (mp mL : positive) (ep eL : Z) :
  digits2_pos mp = 53%positive -> digits2_pos mL = 53%positive ->
  -52 <= ep <= 0 -> -52 <= eL <= 0 ->
  Zpos mp * 2 ^ (- eL) <= Zpos mL * 2 ^ (- ep) ->
  exists ma ea,
    Number.div (S754_finite false mp ep) (S754_finite false mL eL)
    = S754_finite false ma ea
    /\ digits2_pos ma = 53%positive
    /\ -158 <= ea <= -52
    /\ Zpos ma <= 2 ^ (- ea).
Proof.
  intros Hdp HdL Hep HeL Hle.
  destruct (div_correct false false mp mL ep eL Hdp HdL ltac:(lia) ltac:(lia))
    as (ma & k1 & E1 & Hda & Hk1 & F1).
  exists ma, (ep - eL - 53 + k1). split; [exact E1|]. split; [done|].
  pose proof (mantissa_bounds ma Hda) as Ba.
  pose proof (mantissa_bounds mL HdL) as BL.
  assert (0 < 2 ^ (- ep)) as Pp by (apply Z.pow_pos_nonneg; lia).
  assert (0 < 2 ^ (- eL)) as PL by (apply Z.pow_pos_nonneg; lia).
  assert (0 < 2 ^ k1) as P1 by (apply Z.pow_pos_nonneg; lia).
  change (2 ^ 53) with 9007199254740992 in *.
  change (2 ^ 52) with 4503599627370496 in *.
  (* ma * 2^(k1 - eL) <= 2^(-ep) * (2^53 + 1) *)
  assert (Hq : Zpos ma * 2 ^ k1 * Zpos mL <= 9007199254740993 * Zpos mp) by lia.
  assert (HA : Zpos ma * 2 ^ (k1 + - eL) <= 2 ^ (- ep) * 9007199254740993).
  { rewrite Z.pow_add_r by lia.
    apply (Z.mul_le_mono_pos_r _ _ (Zpos mL)); [lia|].
    apply Z.le_trans with (9007199254740993 * (Zpos mp * 2 ^ (- eL))).
    - replace (Zpos ma * (2 ^ k1 * 2 ^ (- eL)) * Zpos mL)
        with (Zpos ma * 2 ^ k1 * Zpos mL * 2 ^ (- eL)) by ring.
      replace (9007199254740993 * (Zpos mp * 2 ^ (- eL)))
        with (9007199254740993 * Zpos mp * 2 ^ (- eL)) by ring.
      apply Z.mul_le_mono_nonneg_r; lia.
    - replace (2 ^ (- ep) * 9007199254740993 * Zpos mL)
        with (9007199254740993 * (Zpos mL * 2 ^ (- ep))) by ring.
      apply Z.mul_le_mono_nonneg_l; lia. }
  pose proof (pow2_exponent_bound (Zpos ma) 9007199254740993 (k1 + - eL) (- ep) 2
                ltac:(lia) ltac:(lia) ltac:(lia) HA
                ltac:(change (2 ^ 2) with 4; lia)) as Hx.
  split; [lia|].
  destruct (Z.eq_dec (k1 + - eL) (- ep + 1)) as [Heq|Hne].
  - rewrite Heq in HA. apply pow2_cancel in HA; [|lia|lia].
    change (2 ^ 1) with 2 in HA.
    replace (- (ep - eL - 53 + k1)) with 52 by lia.
    change (2 ^ 52) with 4503599627370496. lia.
  - apply Z.le_trans with (2 ^ 53); [change (2 ^ 53) with 9007199254740992; lia|].
    apply Z.pow_le_mono_r; lia.
Qed.

(** One hundred times a normal number of at most one, rounded, is at most
    one hundred. *)
Lemma mul_100_at_most_100 (ma : positive) (ea : Z) :
  digits2_pos ma = 53%positive -> -158 <= ea <= -52 ->
  Zpos ma <= 2 ^ (- ea) ->
  exists mb eb,
    Number.mul (S754_finite false ma ea) (Number.of_Z 100)
    = S754_finite false mb eb
    /\ (eb < -46 \/ (eb = -46 /\ Zpos mb <= 7036874417766400)).
Proof.
  intros Hda Hea Hma. rewrite of_Z_100.
  destruct (mul_correct false false ma 7036874417766400 ea (-46)
              Hda eq_refl ltac:(lia) ltac:(lia))
    as (mb & k2 & E2 & Hdb & Hk2 & F2).
  exists mb, (ea + -46 + k2). split; [exact E2|].
  pose proof (mantissa_bounds mb Hdb) as Bb.
  change (2 ^ 53) with 9007199254740992 in *.
  change (2 ^ 52) with 4503599627370496 in *.
  assert (0 < 2 ^ (- ea)) as Pa by (apply Z.pow_pos_nonneg; lia).
  assert (HB : Zpos mb * 9007199254740992 * 2 ^ k2
               <= 2 ^ (- ea) * (7036874417766400 * 9007199254740993)).
  { apply Z.le_trans with (Zpos ma * (7036874417766400 * 9007199254740993)).
    - replace (Zpos mb * 9007199254740992 * 2 ^ k2)
        with (Zpos mb * 2 ^ k2 * 9007199254740992) by ring.
      set (X := Zpos mb * 2 ^ k2) in *. clearbody X. clear -F2. lia.
    - apply Z.mul_le_mono_nonneg_r; [done | exact Hma]. }
  pose proof (pow2_exponent_bound (Zpos mb * 9007199254740992)
                (7036874417766400 * 9007199254740993) k2 (- ea) 1
                ltac:(lia) ltac:(lia) ltac:(lia) HB
                ltac:(change (2 ^ 1) with 2; lia)) as Hx.
  destruct (Z.eq_dec k2 (- ea)) as [Heq|Hne]; [right|left; lia].
  split; [lia|].
  rewrite Heq in HB. replace (- ea) with (- ea + 0) in HB at 1 by lia.
  apply pow2_cancel in HB; [|lia|lia]. change (2 ^ 0) with 1 in HB. lia.
Qed.

Lemma of_Z_le (p L : Z) :
  0 <= p <= L -> L < 2 ^ 53 ->
  Number.leb (Number.of_Z p) (Number.of_Z L) = true.
Proof.
  intros Hp HL.
  destruct L as [|L|L]; [replace p with 0 by lia; done| |lia].
  destruct (of_Z_pos L HL) as (mL & eL & EL & HdL & HeL & HmL).
  destruct p as [|p|p]; [by rewrite EL| |lia].
  destruct (of_Z_pos p ltac:(lia)) as (mp & ep & Ep & Hdp & Hep & Hmp).
  rewrite EL, Ep. apply leb_normal.
  pose proof (mantissa_bounds mp Hdp) as Bp.
  pose proof (mantissa_bounds mL HdL) as BL.
  change (2 ^ 53) with 9007199254740992 in *.
  change (2 ^ 52) with 4503599627370496 in *.
  assert (0 < 2 ^ (- ep)) as Pp by (apply Z.pow_pos_nonneg; lia).
  destruct (Z.lt_trichotomy ep eL) as [?|[Heq|Hgt]]; [by left| |exfalso].
  - right. split; [done|]. rewrite Hmp, HmL, Heq.
    apply Z.mul_le_mono_nonneg_r; [|lia]. apply Z.pow_nonneg. lia.
  - replace (- eL) with (- ep + (ep - eL)) in HmL by lia.
    rewrite Z.pow_add_r in HmL by lia.
    assert (2 <= 2 ^ (ep - eL)) by (apply (Z.pow_le_mono_r 2 1); lia).
    assert (Zpos mp * 2 <= Zpos mL); [|lia].
    rewrite HmL, Hmp.
    apply Z.le_trans with (Zpos p * 2 ^ (- ep) * 2 ^ (ep - eL)).
    + apply Z.mul_le_mono_nonneg_l; lia.
    + rewrite <- !Z.mul_assoc. apply Z.mul_le_mono_nonneg_r; [|lia].
      apply Z.mul_nonneg_nonneg; lia.
Qed.

(** The linear progress of an offset inside a non-empty text is a
    percentage. *)
Lemma linear_progress_in_range (p L : Z) :
  0 <= p <= L -> 0 < L < 2 ^ 53 ->
  Number.leb (Number.of_Z 0) (linear_progress p L) = true
  /\ Number.leb (linear_progress p L) (Number.of_Z 100) = true.
Proof.
  intros Hp HL. unfold linear_progress.
  destruct L as [|L|L]; [lia| |lia].
  destruct (of_Z_pos L ltac:(lia)) as (mL & eL & EL & HdL & HeL & HmL).
  rewrite EL.
  destruct p as [|p|p]; [done| |lia].
  destruct (of_Z_pos p ltac:(lia)) as (mp & ep & Ep & Hdp & Hep & Hmp).
  rewrite Ep.
  assert (0 < 2 ^ (- ep)) as Pp by (apply Z.pow_pos_nonneg; lia).
  assert (0 < 2 ^ (- eL)) as PL by (apply Z.pow_pos_nonneg; lia).
  assert (Hle : Zpos mp * 2 ^ (- eL) <= Zpos mL * 2 ^ (- ep)).
  { rewrite Hmp, HmL.
    replace (Zpos p * 2 ^ (- ep) * 2 ^ (- eL))
      with (Zpos p * (2 ^ (- ep) * 2 ^ (- eL))) by ring.
    replace (Zpos L * 2 ^ (- eL) * 2 ^ (- ep))
      with (Zpos L * (2 ^ (- ep) * 2 ^ (- eL))) by ring.
    apply Z.mul_le_mono_nonneg_r; [|lia]. apply Z.mul_nonneg_nonneg; lia. }
  destruct (div_at_most_one mp mL ep eL Hdp HdL Hep HeL Hle)
    as (ma & ea & -> & Hda & Hea & Hma).
  destruct (mul_100_at_most_100 ma ea Hda Hea Hma) as (mb & eb & -> & Hb).
  split; [done|]. rewrite of_Z_100. by apply leb_normal.
Qed.

End RoundingFacts.

(** ** Progress *)

(** The three places of the source that report a progress. *)
Lemma getProgressAtPosition_linear (t : string) (p : Z) :
  t ≠ EmptyString ->
  PDFHandler.getProgressAtPosition (Number.of_Z p) (with_text t)
  = linear_progress p (Z.of_nat (String.length t)).
Proof.
  intros Ht. unfold PDFHandler.getProgressAtPosition.
  cbn [with_text PDFHandler.set_text extractedText].
  by destruct t.
Qed.

Lemma onboundary_linear (p L : Z) (a : app) :
  textLength (tts a) = Number.of_Z L ->
  reported_progress (TTSManager.onboundary "word" (Number.of_Z p) a)
  = Some (linear_progress p L).
Proof. intros HL. unfold reported_progress. cbn. by rewrite HL. Qed.

Lemma setPosition_linear (p L : Z) (a : app) :
  textLength (tts a) = Number.of_Z L -> 0 <= p <= L -> 0 < L < 2 ^ 53 ->
  currentPosition (tts (TTSManager.setPosition (Number.of_Z p) a))
  = Number.of_Z p
  /\ reported_progress (TTSManager.setPosition (Number.of_Z p) a)
     = Some (linear_progress p L).
Proof.
  intros HL Hp HLr.
  assert (Hcp : currentPosition (tts (TTSManager.setPosition (Number.of_Z p) a))
                = Number.of_Z p).
  { cbn. rewrite HL.
    pose proof (of_Z_le p L Hp ltac:(lia)) as Hle.
    destruct L as [|L|L]; [lia| |lia].
    destruct (of_Z_pos L ltac:(lia)) as (mL & eL & EL & _).
    rewrite EL in *.
    destruct p as [|p|p]; [done| |lia].
    destruct (of_Z_pos p ltac:(lia)) as (mp & ep & Ep & _).
    rewrite Ep in *.
    unfold Number.min, Number.max. cbn [Number.isNaN orb Number.is_neg_zero
      Number.is_pos_zero andb].
    assert (Number.ltb (S754_finite false mL eL) (S754_finite false mp ep)
            = false) as ->.
    { revert Hle. unfold Number.ltb, Number.leb, SFltb, SFleb.
      destruct (SFcompare (S754_finite false mp ep) (S754_finite false mL eL))
        as [c|] eqn:Hc; [|done].
      rewrite (compare_antisym _ _ c Hc). by destruct c. }
    done. }
  split; [exact Hcp|].
  unfold reported_progress, linear_progress.
  change (ui (TTSManager.setPosition (Number.of_Z p) a))
    with (TextDisplay (currentPosition (tts (TTSManager.setPosition (Number.of_Z p) a)))
          :: TimeDisplay (currentPosition (tts (TTSManager.setPosition (Number.of_Z p) a)))
                         (textLength (tts a))
          :: ProgressBar
               (Number.mul
                  (Number.div
                     (currentPosition (tts (TTSManager.setPosition (Number.of_Z p) a)))
                     (textLength (tts a)))
                  (Number.of_Z 100))
          :: ui a).
  cbn [last_progress]. by rewrite Hcp, HL.
Qed.

(** C1 fails on an empty text: [setPosition] and the boundary handler
    divide by the text length without the guard that
    [getProgressAtPosition] has, and report NaN where the latter reports
    0. *)
Theorem progress_of_empty_text_is_NaN (a : app) :
  let a0 := TTSManager.loadText EmptyString a in
  reported_progress (TTSManager.setPosition (Number.of_Z 0) a0)
  = Some Number.NaN
  /\ reported_progress (TTSManager.onboundary "word" (Number.of_Z 0) a0)
     = Some Number.NaN
  /\ PDFHandler.getProgressAtPosition (Number.of_Z 0) (with_text EmptyString)
     = Number.of_Z 0.
Proof. repeat split. Qed.

(** On a text of three characters the offset 1 comes back as 0. *)
Lemma position_round_trip_loses_a_character :
  position_round_trip (Number.of_Z 1) (with_text "abc") ≠ Number.of_Z 1.
Proof. vm_compute. discriminate. Qed.

(** C2, as the code has it: on a text of at most 2^50 characters the
    round trip of an offset [p] returns [p] or [p - 1], the latter only
    for a positive [p]: the four roundings of the computation keep the
    result within one unit of [p], and [Math.floor] takes the integer
    below it. *)
Theorem position_round_trip_within_one (t : string) (p : Z) :
  0 <= p <= Z.of_nat (String.length t) ->
  0 < Z.of_nat (String.length t) <= 2 ^ 50 ->
  position_round_trip (Number.of_Z p) (with_text t) = Number.of_Z p
  \/ (1 <= p
      /\ position_round_trip (Number.of_Z p) (with_text t)
         = Number.of_Z (p - 1)).
Proof.
  intros Hp Hlen. destruct (Z.eq_dec p 0) as [->|Hp0].
  - left. apply position_round_trip_at_start.
    + intros ->. simpl in Hlen. lia.
    + change (2 ^ 50) with 1125899906842624 in Hlen.
      change (2 ^ 53) with 9007199254740992. lia.
  - destruct (position_round_trip_inside t p ltac:(lia) ltac:(lia)) as [H|H].
    + by left.
    + right. split; [lia | done].
Qed.

Lemma position_round_trip_within_one_witness :
  position_round_trip (Number.of_Z 1) (with_text "abc") = Number.of_Z 1
  \/ (1 <= 1
      /\ position_round_trip (Number.of_Z 1) (with_text "abc")
         = Number.of_Z (1 - 1)).
Proof.
  apply (position_round_trip_within_one "abc" 1).
  - simpl. lia.
  - simpl. lia.
Defined.

(** ** The playback position *)

Lemma is_length_facts (L : number) :
  Number.is_length L = true ->
  Number.isNaN L = false /\ Number.is_finite L = true
  /\ Number.is_neg_zero L = false
  /\ Number.leb (Number.of_Z 0) L = true.
Proof. destruct L as [[]|[]| |[] m e]; simpl; done. Qed.

Lemma length_number_is_length (t : string) :
  Z.of_nat (String.length t) < 2 ^ 53 ->
  Number.is_length (length_number t) = true.
Proof.
  intros Hlen. unfold length_number.
  destruct (Z.of_nat (String.length t)) as [|p|p] eqn:Hp; [done| |lia].
  destruct (of_Z_pos p Hlen) as (m & e & -> & _). done.
Qed.

(** A position inside the text is a finite number. *)
Lemma position_in_text_finite (a : app) :
  Number.is_length (textLength (tts a)) = true ->
  position_in_text a -> Number.is_finite (currentPosition (tts a)) = true.
Proof.
  unfold position_in_text. intros HL [H0 H1].
  destruct (textLength (tts a)) as [[]|[]| |[] m e]; try done;
    destruct (currentPosition (tts a)) as [s|[]| |s m' e']; done.
Qed.

(** C9: [setPosition(n)] clamps every number [n] into the loaded text:
    the position becomes 0 for a negative [n], the text length for an [n]
    beyond it, and [n] otherwise; so the position lies between 0 and the
    text length afterwards, and [seek] keeps it there for every finite
    amount. *)
Theorem setPosition_clamps_into_text (a : app) :
  Number.is_length (textLength (tts a)) = true ->
  (forall n : number,
      Number.isNaN n = false ->
      let a' := TTSManager.setPosition n a in
      currentPosition (tts a')
      = Number.max (Number.of_Z 0) (Number.min n (textLength (tts a)))
      /\ (Number.ltb n (Number.of_Z 0) = true ->
          currentPosition (tts a') = Number.of_Z 0)
      /\ (Number.ltb (textLength (tts a)) n = true ->
          currentPosition (tts a') = textLength (tts a))
      /\ (Number.leb (Number.of_Z 0) n = true ->
          Number.leb n (textLength (tts a)) = true ->
          Number.eqb (currentPosition (tts a')) n = true)
      /\ textLength (tts a') = textLength (tts a)
      /\ position_in_text a')
  /\ (forall amount : number,
         Number.is_finite amount = true -> Number.valid amount = true ->
         position_in_text a ->
         textLength (tts (TTSManager.seek amount a)) = textLength (tts a)
         /\ position_in_text (TTSManager.seek amount a)).
Proof.
  intros HL.
  destruct (is_length_facts _ HL) as (HLnan & HLfin & HLneg & H0L).
  assert (Hset : forall n, Number.isNaN n = false ->
                           position_in_text (TTSManager.setPosition n a)).
  { intros n Hn. unfold position_in_text. cbn.
    destruct (min_le_r n (textLength (tts a)) Hn HLnan) as [Hm HmL].
    exact (max_zero_bounds _ _ Hm HmL H0L). }
  split.
  - intros n Hn. cbn zeta. split; [reflexivity|].
    repeat split; try (by apply Hset); cbn.
    + intros Hneg.
      destruct (textLength (tts a)) as [[]|[]| |[] m e]; try done;
        destruct n as [[]|[]| |[] m' e']; done.
    + intros Hbeyond.
      destruct (textLength (tts a)) as [[]|[]| |[] m e]; try done;
        destruct n as [[]|[]| |[] m' e']; try done;
        unfold Number.min, Number.max; cbn [Number.isNaN orb andb
          Number.is_neg_zero Number.is_pos_zero]; rewrite Hbeyond; done.
    + intros H0n HnL.
      assert (Number.ltb (textLength (tts a)) n = false) as Hlt.
      { revert HnL. unfold Number.ltb, Number.leb, SFltb, SFleb.
        destruct (SFcompare n (textLength (tts a))) as [c|] eqn:Hc; [|done].
        rewrite (compare_antisym _ _ c Hc). by destruct c. }
      unfold Number.min, Number.max. rewrite Hn, HLnan, HLneg, Hlt. cbn.
      rewrite Hn. cbn. rewrite andb_false_r.
      revert H0n. unfold Number.ltb, Number.leb, Number.eqb, SFltb, SFleb, SFeqb.
      destruct (SFcompare (S754_zero false) n) as [[]|] eqn:Hc; try done.
      * intros _. by rewrite Hc.
      * intros _. by rewrite compare_refl.
  - intros amount Hfin Hvalid Hin. unfold TTSManager.seek. cbv zeta.
    split; [reflexivity|]. apply Hset.
    apply add_not_NaN; [by apply position_in_text_finite|].
    apply mul_not_NaN; [done | by apply div_100_finite].
Qed.

Lemma setPosition_clamps_into_text_witness :
  currentPosition (tts (TTSManager.setPosition (Number.of_Z 40)
                          (Samples.playing_text "hello world" 6)))
  = textLength (tts (Samples.playing_text "hello world" 6))
  /\ position_in_text (TTSManager.seek (Number.of_Z (-10))
                         (Samples.playing_text "hello world" 6)).
Proof.
  pose proof (setPosition_clamps_into_text
                (Samples.playing_text "hello world" 6) eq_refl) as [Hset Hseek].
  split.
  - destruct (Hset (Number.of_Z 40) eq_refl) as (_ & _ & Hbeyond & _).
    apply Hbeyond. reflexivity.
  - apply (Hseek (Number.of_Z (-10)) eq_refl eq_refl). split; reflexivity.
Defined.

(** ** Playback *)

Lemma drop_is_suffix (k : nat) (t : string) :
  exists played, t = played +:+ JSString.drop k t.
Proof.
  revert k. induction t as [|c t IH]; intros [|k]; simpl.
  - by exists EmptyString.
  - by exists EmptyString.
  - by exists EmptyString.
  - destruct (IH k) as [played Hplayed].
    exists (String c played). by rewrite append_cons, <- Hplayed.
Qed.

Lemma slice_is_suffix (t : string) (start : number) :
  exists played, t = played +:+ JSString.slice t start.
Proof.
  unfold JSString.slice.
  destruct start as [s|[]| |s m e]; try (by exists EmptyString).
  - exists t. by rewrite append_empty_r.
  - apply drop_is_suffix.
Qed.

(** Slicing at an integer offset inside the text drops that many
    characters. *)
Lemma slice_at_offset (t : string) (k : nat) :
  (k <= String.length t)%nat -> Z.of_nat (String.length t) < 2 ^ 53 ->
  JSString.slice t (Number.of_Z (Z.of_nat k)) = JSString.drop k t.
Proof.
  intros Hk Hlen. destruct k as [|k]; [by destruct t|].
  destruct (of_Z_pos (Pos.of_succ_nat k) ltac:(lia)) as (m & e & Hof & _ & He & Hm).
  change (Z.of_nat (S k)) with (Zpos (Pos.of_succ_nat k)).
  rewrite Hof. unfold JSString.slice.
  destruct (truncZ_of_scaled m _ e ltac:(lia) Hm) as [-> _].
  destruct (Z.ltb_spec (Zpos (Pos.of_succ_nat k)) 0) as [|_]; [lia|].
  f_equal. lia.
Qed.

(** C8: when nothing is playing or paused and a text is loaded,
    [togglePlayPause] cancels the queue and hands
    [extractedText.slice(currentPosition)] to the collaborator, and
    nothing else (in a browser without speech synthesis it hands nothing
    over); that text is a suffix of the extracted text, the one that
    starts at the current offset. *)
Theorem togglePlayPause_speaks_remaining_text (a : app) :
  isPlaying (tts a) = false ->
  paused (speech a) = false ->
  extractedText (pdf a) ≠ EmptyString ->
  let rest := JSString.slice (extractedText (pdf a)) (currentPosition (tts a)) in
  calls (speech (TTSManager.togglePlayPause a))
  = (if supported (speech a)
     then Speak rest (playbackRate (tts a)) :: Cancel :: calls (speech a)
     else calls (speech a))
  /\ (exists played, extractedText (pdf a) = played +:+ rest)
  /\ (forall k : nat,
         (k <= String.length (extractedText (pdf a)))%nat ->
         Z.of_nat (String.length (extractedText (pdf a))) < 2 ^ 53 ->
         currentPosition (tts a) = Number.of_Z (Z.of_nat k) ->
         rest = JSString.drop k (extractedText (pdf a))).
Proof.
  intros Hplay Hpaused Htext. cbv zeta. split; [|split].
  - unfold TTSManager.togglePlayPause, TTSManager.isSupported.
    destruct (supported (speech a)) eqn:Hsup; [|done].
    rewrite Hplay, Hpaused. cbn [negb].
    destruct (extractedText (pdf a)) as [|c t] eqn:Ht; [done|].
    cbn [JSString.is_empty negb]. unfold TTSManager.speak, TTSManager.isSupported.
    rewrite Hsup. reflexivity.
  - apply slice_is_suffix.
  - intros k Hk Hlen ->. by apply slice_at_offset.
Qed.

Lemma togglePlayPause_speaks_remaining_text_witness :
  calls (speech (TTSManager.togglePlayPause
                   (Samples.playing_text "hello world" 6)))
  = [Speak "world" (Number.of_Z 1); Cancel].
Proof.
  apply (togglePlayPause_speaks_remaining_text
           (Samples.playing_text "hello world" 6)); try reflexivity.
  discriminate.
Defined.

(** ** Text extraction *)

(** The page requests of [extractText] with the default options yield the
    text of every page of the document, in order. *)
Lemma all_pages_from (pre rest : pdf_document) :
  PDFHandler.all_pages (pre ++ rest)
    (seqZ (1 + Z.of_nat (length pre)) (Z.of_nat (length rest)))
  = Ok (page_texts rest).
Proof.
  revert pre. induction rest as [|items rest IH]; intros pre; [done|].
  rewrite seqZ_cons by (simpl; lia).
  cbn [PDFHandler.all_pages]. unfold PDFHandler.extractPageText.
  replace ((1 <=? 1 + Z.of_nat (length pre))
           && (1 + Z.of_nat (length pre)
               <=? Z.of_nat (length (pre ++ items :: rest)))) with true
    by (symmetry; rewrite length_app; simpl; apply andb_true_iff; split;
        apply Z.leb_le; lia).
  replace (Z.to_nat (1 + Z.of_nat (length pre) - 1)) with (length pre) by lia.
  rewrite list_lookup_middle by done.
  specialize (IH (pre ++ [items])).
  rewrite <- app_assoc in IH. simpl in IH.
  replace (Z.succ (1 + Z.of_nat (length pre)))
    with (1 + Z.of_nat (length (pre ++ [items])))
    by (rewrite length_app; simpl; lia).
  replace (Z.pred (Z.of_nat (length (items :: rest))))
    with (Z.of_nat (length rest)) by (simpl; lia).
  by rewrite IH.
Qed.

Lemma all_pages_default (doc : pdf_document) :
  PDFHandler.all_pages doc (seqZ 1 (Z.of_nat (length doc) - 1 + 1))
  = Ok (page_texts doc).
Proof.
  replace (Z.of_nat (length doc) - 1 + 1) with (Z.of_nat (length doc)) by lia.
  exact (all_pages_from [] doc).
Qed.

(** Every page text followed by a blank line, concatenated. *)
Lemma append_pages_text (n : Z) (ts : list string) (h : pdf_handler) :
  extractedText (PDFHandler.append_pages n ts h)
  = extractedText h
    +:+ String.concat EmptyString
          (List.map (fun t => t +:+ PDFHandler.blank_line) ts).
Proof.
  revert n h. induction ts as [|t ts IH]; intros n h.
  - simpl. by rewrite append_empty_r.
  - cbn [PDFHandler.append_pages]. rewrite IH. cbn [extractedText PDFHandler.set_text].
    rewrite append_assoc. f_equal.
    destruct ts as [|t' ts]; [by rewrite append_empty_r|]. reflexivity.
Qed.

Lemma append_pages_pages (n : Z) (ts : list string) (h : pdf_handler) :
  List.map page_text (pages (PDFHandler.append_pages n ts h))
  = List.map page_text (pages h) ++ ts.
Proof.
  revert n h. induction ts as [|t ts IH]; intros n h.
  - simpl. by rewrite app_nil_r.
  - cbn [PDFHandler.append_pages]. rewrite IH. cbn [pages PDFHandler.set_text].
    by rewrite map_app, <- app_assoc.
Qed.

(** A separator after every page is a joined text with a trailing
    separator. *)
Lemma terminated_is_joined (sep : string) (ts : list string) :
  ts ≠ [] ->
  String.concat EmptyString (List.map (fun t => t +:+ sep) ts)
  = JSString.join sep ts +:+ sep.
Proof.
  induction ts as [|t ts IH]; [done|]. intros _.
  destruct ts as [|t' ts]; [reflexivity|].
  specialize (IH ltac:(done)).
  change (String.concat EmptyString
            (List.map (fun t => t +:+ sep) (t :: t' :: ts)))
    with ((t +:+ sep)
          +:+ String.concat EmptyString
                (List.map (fun t => t +:+ sep) (t' :: ts))).
  change (JSString.join sep (t :: t' :: ts))
    with (t +:+ sep +:+ JSString.join sep (t' :: ts)).
  by rewrite IH, !append_assoc.
Qed.

(** What [extractText] returns for a document just loaded. *)
Lemma extractText_of_loaded (f : file) (doc : pdf_document) (h : pdf_handler) :
  parsed f = Some doc ->
  snd (PDFHandler.extractText None None (fst (PDFHandler.loadPDF f h)))
  = Ok (terminated (page_texts doc)).
Proof.
  intros Hdoc. unfold PDFHandler.loadPDF. rewrite Hdoc. cbn [fst].
  unfold PDFHandler.extractText. cbn [pdfDoc totalPages default].
  rewrite all_pages_default. cbn [snd]. f_equal.
  rewrite append_pages_text. reflexivity.
Qed.

(** C5, as the code has it: [extractText] returns every page text
    followed by a blank line, that is, the page texts joined by blank
    lines and one more blank line after the last page; for a document
    without pages it returns the empty string. *)
Theorem extractText_terminates_every_page (f : file) (doc : pdf_document)
    (h : pdf_handler) :
  parsed f = Some doc ->
  snd (PDFHandler.extractText None None (fst (PDFHandler.loadPDF f h)))
  = Ok (match page_texts doc with
        | [] => EmptyString
        | ts => JSString.join PDFHandler.blank_line ts +:+ PDFHandler.blank_line
        end).
Proof.
  intros Hdoc. rewrite (extractText_of_loaded f doc h Hdoc). f_equal.
  destruct (page_texts doc) as [|t ts] eqn:Hts; [done|].
  by apply terminated_is_joined.
Qed.

Lemma extractText_terminates_every_page_witness :
  snd (PDFHandler.extractText None None
         (fst (PDFHandler.loadPDF
                 (Samples.pdf_file "a.pdf" [Samples.one_line_page "a";
                                           Samples.one_line_page "b"])
                 (pdf initial))))
  = Ok (match page_texts [Samples.one_line_page "a"; Samples.one_line_page "b"] with
        | [] => EmptyString
        | ts => JSString.join PDFHandler.blank_line ts +:+ PDFHandler.blank_line
        end).
Proof.
  apply (extractText_terminates_every_page
           (Samples.pdf_file "a.pdf" [Samples.one_line_page "a";
                                     Samples.one_line_page "b"])
           [Samples.one_line_page "a"; Samples.one_line_page "b"]
           (pdf initial)).
  reflexivity.
Defined.

(** For a one-page document the text returned is not the joined page
    texts: a separator follows the only page. *)
Lemma extractText_has_trailing_separator :
  extracted [Samples.one_line_page "a"]
  ≠ Ok (JSString.join PDFHandler.blank_line
          (page_texts [Samples.one_line_page "a"])).
Proof. vm_compute. discriminate. Qed.

(** ** Page reconstruction *)

Lemma terminated_cons (t : string) (ts : list string) :
  terminated (t :: ts) = t +:+ PDFHandler.blank_line +:+ terminated ts.
Proof.
  unfold terminated. destruct ts as [|t' ts]; simpl.
  - by rewrite append_empty_r.
  - by rewrite append_assoc.
Qed.

Lemma split_text (t acc rest : string) :
  lf_followed t = true ->
  JSString.split_blank_from JSString.InText acc
    (t +:+ PDFHandler.blank_line +:+ rest)
  = (acc +:+ t) :: JSString.split_blank_from JSString.InSeparator EmptyString rest.
Proof.
  revert acc. induction t as [|c t IH]; intros acc Ht.
  - rewrite append_empty_r. reflexivity.
  - rewrite append_cons. cbn [JSString.split_blank_from].
    cbn [lf_followed] in Ht.
    destruct (JSString.is_LF c) eqn:Hc.
    + destruct t as [|c' t']; [done|].
      apply andb_true_iff in Ht as [Hc' Ht]. apply negb_true_iff in Hc'.
      specialize (IH (acc +:+ String JSString.LF EmptyString) Ht).
      rewrite append_cons in IH. cbn [JSString.split_blank_from] in IH.
      rewrite Hc' in IH.
      rewrite append_cons. cbn [JSString.split_blank_from]. rewrite Hc'.
      unfold JSString.is_LF in Hc. apply Ascii.eqb_eq in Hc as ->.
      rewrite !append_assoc, !append_cons, !append_empty_l in IH.
      rewrite IH. reflexivity.
    + rewrite (IH (acc +:+ String c EmptyString) Ht).
      by rewrite append_assoc.
Qed.

Lemma split_pages (ts : list string) :
  Forall (fun t => plain_page t = true) ts ->
  JSString.split_blank_from JSString.InSeparator EmptyString (terminated ts)
  = ts ++ [EmptyString].
Proof.
  induction 1 as [|t ts Ht _ IH]; [reflexivity|].
  rewrite terminated_cons.
  destruct t as [|c t]; [done|].
  cbn [plain_page] in Ht. apply andb_true_iff in Ht as [Hc Ht].
  apply negb_true_iff in Hc.
  cbn [lf_followed] in Ht. rewrite Hc in Ht.
  rewrite append_cons. cbn [JSString.split_blank_from]. rewrite Hc.
  rewrite (split_text t _ _ Ht), IH. reflexivity.
Qed.

Lemma rebuild_pages_texts (i : Z) (l : list string) :
  List.map page_text (PDFHandler.rebuild_pages i l) = List.map JSString.trim l.
Proof.
  revert i. induction l as [|t l IH]; intros i; [done|].
  simpl. by rewrite IH.
Qed.

Lemma loadFromLibrary_pages (fd : file_data) (a : app) :
  pages (pdf (PDFHandler.loadFromLibrary fd a))
  = PDFHandler.rebuild_pages 0 (JSString.split_blank (text fd))
  /\ totalPages (pdf (PDFHandler.loadFromLibrary fd a))
     = Z.of_nat (length (JSString.split_blank (text fd))).
Proof.
  unfold PDFHandler.loadFromLibrary. cbv zeta.
  assert (length (PDFHandler.rebuild_pages 0 (JSString.split_blank (text fd)))
          = length (JSString.split_blank (text fd))) as Hlen.
  { rewrite <- (length_map page_text), rebuild_pages_texts.
    apply length_map. }
  destruct (Number.ltb (Number.of_Z 0) (progress fd));
    cbn [pdf emit set_pdf updateTextDisplay TTSManager.loadText set_tts
         TTSManager.setPosition TTSManager.set_currentPosition
         TTSManager.updateProgress TTSManager.updateTimeDisplay pages
         totalPages];
    by rewrite Hlen.
Qed.

(** What [loadFromLibrary] rebuilds from the text extracted from plain
    pages: the pages, trimmed, and one more page, empty. *)
Lemma loadFromLibrary_of_extracted (ts : list string) (fd : file_data) (a : app) :
  ts ≠ [] -> Forall (fun t => plain_page t = true) ts ->
  text fd = terminated ts ->
  List.map page_text (pages (pdf (PDFHandler.loadFromLibrary fd a)))
  = List.map JSString.trim ts ++ [EmptyString]
  /\ totalPages (pdf (PDFHandler.loadFromLibrary fd a))
     = Z.of_nat (length ts) + 1.
Proof.
  intros Hne Hplain Htext.
  destruct (loadFromLibrary_pages fd a) as [-> ->].
  rewrite rebuild_pages_texts, Htext.
  assert (JSString.split_blank (terminated ts) = ts ++ [EmptyString]) as ->.
  { destruct ts as [|t ts]; [done|].
    apply Forall_cons in Hplain as [Ht Hts].
    rewrite terminated_cons. unfold JSString.split_blank.
    rewrite split_text, split_pages by (done || by destruct t as [|c t];
      [done | apply andb_true_iff in Ht as [_ ?]]).
    reflexivity. }
  rewrite map_app, length_app. simpl. split; [done | lia].
Qed.

Lemma no_LF_append (s t : string) :
  no_LF (s +:+ t) = no_LF s && no_LF t.
Proof.
  induction s as [|c s IH]; [done|].
  rewrite append_cons. simpl. by rewrite IH, andb_assoc.
Qed.

Lemma is_space_LF (c : ascii) : JSString.is_LF c = true -> JSString.is_space c = true.
Proof.
  unfold JSString.is_LF. intros Hc. apply Ascii.eqb_eq in Hc as ->. reflexivity.
Qed.

Lemma collapse_spaces_no_LF (b : bool) (s : string) :
  no_LF (JSString.collapse_spaces_from b s) = true.
Proof.
  revert b. induction s as [|c s IH]; intros b; [done|]. simpl.
  destruct (JSString.is_space c) eqn:Hc.
  - destruct b; simpl; by rewrite IH.
  - simpl. rewrite IH, andb_true_r. apply negb_true_iff.
    destruct (JSString.is_LF c) eqn:Hlf; [|done].
    by rewrite (is_space_LF c Hlf) in Hc.
Qed.

Lemma collapse_blank_lines_no_LF (s : string) :
  no_LF s = true ->
  JSString.collapse_blank_lines_from JSString.NoLF s = s.
Proof.
  induction s as [|c s IH]; [done|]. simpl.
  intros [Hc Hs]%andb_true_iff. apply negb_true_iff in Hc. rewrite Hc.
  destruct (JSString.is_space c); by rewrite IH.
Qed.

Lemma strip_delimited_no_LF (open close : ascii) (pending : option string)
    (s : string) :
  JSString.is_LF open = false ->
  no_LF s = true -> from_option no_LF true pending = true ->
  no_LF (JSString.strip_delimited_from open close pending s) = true.
Proof.
  intros Hopen. revert pending. induction s as [|c s IH]; intros pending Hs Hp.
  - destruct pending as [buf|]; [|done].
    cbn [JSString.strip_delimited_from no_LF from_option] in *.
    by rewrite Hopen, Hp.
  - cbn [no_LF] in Hs. apply andb_true_iff in Hs as [Hc Hs].
    destruct pending as [buf|];
      cbn [JSString.strip_delimited_from no_LF from_option] in *.
    + destruct (Ascii.eqb c close); [by apply IH|].
      destruct (JSString.is_line_terminator c).
      * cbn [no_LF]. rewrite Hopen, no_LF_append, Hp. cbn [no_LF negb andb].
        rewrite Hc. by apply IH.
      * apply IH; [done|]. cbn [from_option]. rewrite no_LF_append, Hp.
        cbn [no_LF]. by rewrite Hc.
    + destruct (Ascii.eqb c open); [by apply IH|].
      cbn [no_LF]. rewrite Hc. by apply IH.
Qed.

Lemma trimStart_no_LF (s : string) :
  no_LF s = true -> no_LF (JSString.trimStart s) = true.
Proof.
  induction s as [|c s IH]; [done|]. simpl.
  intros [Hc Hs]%andb_true_iff.
  destruct (JSString.is_space c); [by apply IH|]. simpl. by rewrite Hc, Hs.
Qed.

Lemma trimEnd_no_LF (s : string) :
  no_LF s = true -> no_LF (JSString.trimEnd s) = true.
Proof.
  induction s as [|c s IH]; [done|]. simpl.
  intros [Hc Hs]%andb_true_iff.
  destruct (JSString.is_space c && JSString.is_empty (JSString.trimEnd s));
    [done|].
  simpl. by rewrite Hc, IH.
Qed.

(** [cleanText] leaves no line feed in the text. *)
Lemma cleanText_no_LF (t : string) : no_LF (PDFHandler.cleanText t) = true.
Proof.
  unfold PDFHandler.cleanText, JSString.trim, JSString.strip_delimited,
    JSString.collapse_blank_lines, JSString.collapse_spaces.
  apply trimEnd_no_LF, trimStart_no_LF.
  apply strip_delimited_no_LF; [done| |done].
  apply strip_delimited_no_LF; [done| |done].
  rewrite collapse_blank_lines_no_LF; apply collapse_spaces_no_LF.
Qed.

Lemma split_blank_no_LF (acc s : string) :
  no_LF s = true ->
  JSString.split_blank_from JSString.InText acc s = [acc +:+ s].
Proof.
  revert acc. induction s as [|c s IH]; intros acc.
  - intros _. simpl. by rewrite append_empty_r.
  - simpl. intros [Hc Hs]%andb_true_iff. apply negb_true_iff in Hc.
    rewrite Hc, IH by done. by rewrite append_assoc.
Qed.

(** From a text that went through [cleanText], [loadFromLibrary]
    rebuilds one page, however many pages the document had. *)
Lemma loadFromLibrary_of_cleaned (t : string) (fd : file_data) (a : app) :
  text fd = PDFHandler.cleanText t ->
  totalPages (pdf (PDFHandler.loadFromLibrary fd a)) = 1.
Proof.
  intros Htext. destruct (loadFromLibrary_pages fd a) as [_ ->].
  rewrite Htext. unfold JSString.split_blank.
  by rewrite split_blank_no_LF by apply cleanText_no_LF.
Qed.

(** The text extracted from a document is [terminated] of its page
    texts. *)
Lemma extracted_terminated (doc : pdf_document) :
  extracted doc = Ok (terminated (page_texts doc)).
Proof.
  unfold extracted, PDFHandler.loadPDF, PDFHandler.extractText.
  cbn [parsed fst pdfDoc totalPages default].
  rewrite all_pages_default. cbn [snd]. f_equal.
  rewrite append_pages_text. reflexivity.
Qed.

(** For an item made by hand that caches the extracted text itself,
    which no upload stores, [loadFromLibrary] rebuilds the pages and one
    more page, empty: that text ends with a separator. *)
Lemma loadFromLibrary_rebuilds_an_extra_page :
  exists t,
    extracted [Samples.one_line_page "a"] = Ok t
    /\ page_texts [Samples.one_line_page "a"] = ["a"%string]
    /\ let a := PDFHandler.loadFromLibrary (Samples.cached t) initial in
       List.map page_text (pages (pdf a)) = ["a"%string; EmptyString]
       /\ totalPages (pdf a) = 2.
Proof. eexists. split; [reflexivity|]. vm_compute. done. Qed.

(** The text that the upload path caches went through [cleanText]; for a
    document of two pages, one page is rebuilt from it. *)
Lemma loadFromLibrary_after_cleanText_rebuilds_one_page :
  exists t,
    extracted [Samples.one_line_page "a"; Samples.one_line_page "b"] = Ok t
    /\ let a := PDFHandler.loadFromLibrary
                  (Samples.cached (PDFHandler.cleanText t)) initial in
       List.map page_text (pages (pdf a)) = ["a b"%string]
       /\ totalPages (pdf a) = 1.
Proof. eexists. split; [reflexivity|]. vm_compute. done. Qed.

(** C6 fails on a document of the two pages "a" and "b" that is uploaded
    and then opened from the library.  After the upload the handler holds
    the two pages.  The item that [processFile] stored caches the cleaned
    text "a b", in which [cleanText] has turned the separators into
    spaces, and [loadFromLibrary] rebuilds from it the single page "a b"
    and a page count of 1. *)
Theorem loadFromLibrary_after_upload_rebuilds_one_page :
  let doc := [Samples.one_line_page "a"; Samples.one_line_page "b"] in
  let uploaded :=
    App.processFile (Samples.pdf_file "ab.pdf" doc) "i1"
                    "2024-01-03T00:00:00.000Z" initial in
  page_texts doc = ["a"; "b"]%string
  /\ forallb plain_page (page_texts doc) = true
  /\ extractedText (pdf uploaded) = terminated ["a"; "b"]%string
  /\ List.map page_text (pages (pdf uploaded)) = ["a"; "b"]%string
  /\ totalPages (pdf uploaded) = 2
  /\ exists fd,
       library (store uploaded) = [fd]
       /\ LibraryManager.getFile "i1" uploaded = Some fd
       /\ text fd = "a b"%string
       /\ text fd = PDFHandler.cleanText (extractedText (pdf uploaded))
       /\ let a := PDFHandler.loadFromLibrary fd uploaded in
          List.map page_text (pages (pdf a)) = ["a b"%string]
          /\ totalPages (pdf a) = 1.
Proof.
  cbv zeta. do 5 (split; [reflexivity|]).
  eexists. split; [reflexivity|]. vm_compute. done.
Qed.

(** ** The library store *)

(** C10: [removeFile(id)] returns true exactly when the stored library
    holds an item of that id; it then stores the original library without
    the items of that id, the others unchanged and in order; when it
    returns false nothing is written and the state is unchanged. *)
Theorem removeFile_removes_exactly (i : string) (a : app) :
  let r := LibraryManager.removeFile i a in
  (fst r = true <-> exists item, item ∈ library (store a) /\ id item = i)
  /\ (fst r = true ->
      library (store (snd r)) = filter (fun item => id item ≠ i) (library (store a))
      /\ writes (store (snd r)) = "pdf2audio_library"%string :: writes (store a))
  /\ (fst r = false -> snd r = a).
Proof.
  unfold LibraryManager.removeFile, LibraryManager.getLibrary. simpl.
  set (keep := fun item => negb (LibraryManager.has_id i item)).
  destruct (Nat.eqb_spec (length (List.filter keep (library (store a))))
                         (length (library (store a)))) as [Hlen|Hlen]; simpl.
  - split; [|split; [discriminate | done]].
    split; [discriminate|]. intros (item & Hin & Hid). exfalso.
    pose proof (proj1 (filter_keeps_length keep _) Hlen item Hin) as Hkeep.
    unfold keep in Hkeep. apply negb_true_iff, has_id_false in Hkeep. done.
  - split; [|split; [|discriminate]].
    + split; [intros _|done].
      destruct (List.find (LibraryManager.has_id i) (library (store a)))
        as [item|] eqn:Hfind.
      * apply find_some in Hfind as [Hin Hid].
        exists item. split; [by apply list_elem_of_In | by apply has_id_true].
      * exfalso. apply Hlen, (proj2 (filter_keeps_length keep _)). intros x Hx.
        unfold keep. rewrite (proj1 (find_none_iff _ _) Hfind x Hx). done.
    + intros _. split; [apply filter_other_ids | done].
Qed.


(** The stamped bookmark keeps every property of the bookmark passed in,
    except a [createdAt] of its own. *)
Lemma stamp_keeps_properties (newId now : string) (bookmark : gmap string value)
    (k : string) (v : value) :
  k ≠ "createdAt"%string -> bookmark !! k = Some v ->
  LibraryManager.stamp newId now bookmark !! k = Some v.
Proof.
  intros Hk Hv. unfold LibraryManager.stamp.
  rewrite lookup_insert_ne by done.
  by apply lookup_union_Some_l.
Qed.




(** [addFile] stores an item whatever the size of the library. *)
Lemma addFile_library (fileData : file_data) (a : app) :
  exists l',
    store (snd (LibraryManager.addFile fileData a))
    = Utils.storageSet_library l' (store a)
    /\ (length (library (store a)) <= length l' <= S (length (library (store a))))%nat
    /\ ((forall x, x ∈ library (store a) -> id x ≠ id fileData) ->
        l' = fileData :: library (store a)).
Proof.
  unfold LibraryManager.addFile, LibraryManager.getLibrary. simpl.
  eexists. split; [reflexivity|].
  destruct (Z.eqb_spec
              (Utils.findIndex (LibraryManager.has_id (id fileData))
                               (library (store a))) (-1)) as [Hi|Hi]; simpl.
  - split; [lia | done].
  - rewrite length_insert. split; [lia|]. intros Hfresh. exfalso.
    apply Hi, findIndex_none. intros x Hx. by apply has_id_false, Hfresh.
Qed.

(** Six calls of [addFile] without the premium flag store six items. *)
Lemma addFile_has_no_ceiling :
  premium (store (addFiles Samples.six_items initial)) = false
  /\ ~ (length (library (store (addFiles Samples.six_items initial))) <= 5)%nat.
Proof. split; [reflexivity|]. vm_compute. lia. Qed.

(** Without the premium flag and with at most five items stored,
    [canAddFile] allows an upload only below five items. *)
Lemma free_tier_canAdd (a : app) :
  premium (store a) = false ->
  (length (library (store a)) <= 5)%nat ->
  LibraryManager.canAdd (LibraryManager.canAddFile a) = true ->
  (length (library (store a)) < 5)%nat.
Proof.
  unfold LibraryManager.canAddFile, PremiumManager.isPremium,
    LibraryManager.getLibrary. cbv zeta. intros -> Hle. cbn [LibraryManager.canAdd].
  destruct (length (library (store a))) as [|[|[|[|[|[|n]]]]]];
    try lia; vm_compute; discriminate.
Qed.

(** What an upload does to the store: nothing, or one [addFile], and the
    latter only behind the gate. *)
Lemma processFile_store (f : file) (newId now : string) (a : app) :
  store (App.processFile f newId now a) = store a
  \/ (LibraryManager.canAdd (LibraryManager.canAddFile a) || premium (store a)
      = true
      /\ exists l',
          store (App.processFile f newId now a)
          = Utils.storageSet_library l' (store a)
          /\ (length l' <= S (length (library (store a))))%nat).
Proof.
  unfold App.processFile.
  destruct (Utils.isPDFFile f); [|by left]. cbv zeta. cbn [negb].
  destruct (negb (LibraryManager.canAdd (LibraryManager.canAddFile a))
            && negb (AuthManager.isLoggedIn a)); [by left|].
  destruct (negb (LibraryManager.canAdd (LibraryManager.canAddFile a))
            && negb (PremiumManager.isPremium a)); [by left|].
  destruct (PDFHandler.loadPDF f (pdf (emit _ a))) as [h [pdfData|msg]];
    [|by left].
  destruct (PDFHandler.extractText None None (pdf (emit _ (set_pdf h _))))
    as [h' [t|msg]]; [|by left].
  unfold PremiumManager.isPremium. cbn [store set_pdf emit].
  destruct (LibraryManager.canAdd (LibraryManager.canAddFile a)
            || premium (store a)) eqn:Hgate; [|by left].
  right. split; [done|].
  match goal with
  | |- context [LibraryManager.addFile ?fd ?b] =>
      destruct (addFile_library fd b) as (l' & Hstore & Hlen & _)
  end.
  exists l'. cbn [store set_pdf emit TTSManager.loadText set_tts
                  updateTextDisplay] in *.
  split; [exact Hstore | lia].
Qed.

Lemma processFile_premium (f : file) (newId now : string) (a : app) :
  premium (store (App.processFile f newId now a)) = premium (store a).
Proof.
  destruct (processFile_store f newId now a) as [->|(_ & l' & -> & _)]; done.
Qed.

(** C3, as the code has it: the ceiling is enforced by the upload path.
    Without the premium flag, a library of at most five items still holds
    at most five after any sequence of uploads. *)
Theorem processFile_keeps_free_ceiling (us : list upload) (a : app) :
  premium (store a) = false ->
  (length (library (store a)) <= 5)%nat ->
  premium (store (processFiles us a)) = false
  /\ (length (library (store (processFiles us a))) <= 5)%nat.
Proof.
  revert a. induction us as [|[[f newId] now] us IH]; intros a Hprem Hlen.
  - done.
  - change (processFiles ((f, newId, now) :: us) a)
      with (processFiles us (App.processFile f newId now a)).
    apply IH.
    + by rewrite processFile_premium.
    + destruct (processFile_store f newId now a)
        as [->|(Hgate & l' & -> & Hl')]; [done|].
      rewrite Hprem, orb_false_r in Hgate.
      pose proof (free_tier_canAdd a Hprem Hlen Hgate). simpl. lia.
Qed.

Lemma processFile_keeps_free_ceiling_witness :
  premium (store (processFiles [Samples.one_upload] Samples.full_free_library))
  = false
  /\ (length (library (store (processFiles [Samples.one_upload]
                                           Samples.full_free_library))) <= 5)%nat.
Proof.
  apply processFile_keeps_free_ceiling.
  - reflexivity.
  - simpl. lia.
Defined.

Lemma premium_canAdd (a : app) :
  premium (store a) = true ->
  Z.of_nat (length (library (store a))) < 2 ^ 53 ->
  LibraryManager.canAdd (LibraryManager.canAddFile a) = true.
Proof.
  intros Hprem Hlen.
  unfold LibraryManager.canAddFile, PremiumManager.isPremium,
    LibraryManager.getLibrary. cbv zeta. rewrite Hprem.
  cbn [LibraryManager.canAdd].
  destruct (Z.of_nat (length (library (store a)))) as [|n|n] eqn:Hn;
    [done| |lia].
  destruct (of_Z_pos n Hlen) as (m & e & -> & _). done.
Qed.

(** With the premium flag an upload of a readable PDF under a fresh
    identifier is stored whatever the size of the library. *)
Lemma processFile_premium_no_ceiling (f : file) (doc : pdf_document)
    (newId now : string) (a : app) :
  premium (store a) = true ->
  Z.of_nat (length (library (store a))) < 2 ^ 53 ->
  Utils.isPDFFile f = true ->
  parsed f = Some doc ->
  (forall x, x ∈ library (store a) -> id x ≠ newId) ->
  length (library (store (App.processFile f newId now a)))
  = S (length (library (store a))).
Proof.
  intros Hprem Hlen Hpdf Hdoc Hfresh.
  pose proof (premium_canAdd a Hprem Hlen) as Hcan.
  unfold App.processFile. rewrite Hpdf. cbv zeta. cbn [negb].
  rewrite Hcan. cbn [negb andb orb].
  pose proof (extractText_of_loaded f doc (pdf a) Hdoc) as Hext.
  unfold PDFHandler.loadPDF in *. rewrite Hdoc in *. cbn [fst] in Hext.
  cbn [pdf emit set_pdf].
  destruct (PDFHandler.extractText None None _) as [h' [t|msg]];
    [|discriminate Hext].
  match goal with
  | |- context [LibraryManager.addFile ?fd ?b] =>
      destruct (addFile_library fd b) as (l' & Hstore & _ & Hcons)
  end.
  cbn [store set_pdf emit TTSManager.loadText set_tts updateTextDisplay] in *.
  rewrite Hstore. cbn [library Utils.storageSet_library].
  rewrite Hcons; [done|]. exact Hfresh.
Qed.

(** ** Accounts *)

Lemma lower_char_idempotent (c : ascii) :
  JSString.lower_char (JSString.lower_char c) = JSString.lower_char c.
Proof. destruct c as [[] [] [] [] [] [] [] []]; reflexivity. Qed.

Lemma toLowerCase_idempotent (s : string) :
  JSString.toLowerCase (JSString.toLowerCase s) = JSString.toLowerCase s.
Proof.
  induction s as [|c s IH]; [done|]. simpl.
  by rewrite lower_char_idempotent, IH.
Qed.

Lemma find_app_none {A : Type} (p : A -> bool) (l : list A) (x : A) :
  List.find p l = None -> p x = true -> List.find p (l ++ [x]) = Some x.
Proof.
  intros Hnone Hx. apply find_first; [|done].
  by apply find_none_iff.
Qed.

(** For an email without surrounding white space that no stored user
    has, [register] succeeds and [login] with the same email and password
    then succeeds for the user just registered. *)
Lemma login_after_register (nm em pw newId now : string) (a : app) :
  JSString.trim em = em ->
  AuthManager.findUserByEmail em a = None ->
  exists u,
    fst (AuthManager.register nm em pw newId now a) = AuthManager.Success u
    /\ fst (AuthManager.login em pw
              (snd (AuthManager.register nm em pw newId now a)))
       = AuthManager.Success u.
Proof.
  intros Htrim Hnew. unfold AuthManager.register. rewrite Hnew. cbv zeta.
  eexists. split; [reflexivity|]. cbn [snd].
  unfold AuthManager.login, AuthManager.findUserByEmail, AuthManager.getUsers.
  cbn [store set_store AuthManager.saveUsers AuthManager.setCurrentUser users
       Utils.storageSet_users Utils.storageSet_current_user].
  rewrite (find_app_none _ _ _ Hnew).
  - cbn [password]. unfold AuthManager.verifyPassword.
    by rewrite String.eqb_refl.
  - unfold AuthManager.same_email. cbn [email].
    rewrite Htrim, toLowerCase_idempotent. apply String.eqb_refl.
Qed.

(** [login] with an email that no stored user has fails. *)
Lemma login_unknown_email (em pw : string) (a : app) :
  AuthManager.findUserByEmail em a = None ->
  AuthManager.login em pw a
  = (AuthManager.Failure "Account not found. Please sign up first.", a).
Proof. intros Hnone. unfold AuthManager.login. by rewrite Hnone. Qed.

(** C7 fails for an email with surrounding white space: [register] stores
    the trimmed email, [login] looks the untrimmed one up and finds no
    account. *)
Theorem login_after_register_fails_on_untrimmed_email :
  let r := AuthManager.register "Al" " a@b.c" "secret1" "u1"
                                "2024-01-01T00:00:00.000Z" initial in
  (exists u, fst r = AuthManager.Success u /\ email u = "a@b.c"%string)
  /\ AuthManager.findUserByEmail " a@b.c" initial = None
  /\ fst (AuthManager.login " a@b.c" "secret1" (snd r))
     = AuthManager.Failure "Account not found. Please sign up first.".
Proof. split; [eexists; split; reflexivity | split; reflexivity]. Qed.

(** ** The library store: lookup, removal and bookmarks *)

(** The first match of [findIndex] splits the list. *)
Lemma findIndex_split {A : Type} (p : A -> bool) (l : list A) :
  Utils.findIndex p l ≠ -1 ->
  exists l1 x l2,
    l = l1 ++ x :: l2 /\ p x = true /\ (forall y, y ∈ l1 -> p y = false)
    /\ Z.to_nat (Utils.findIndex p l) = length l1.
Proof.
  induction l as [|x l IH]; simpl; [done|].
  destruct (p x) eqn:Hx.
  - intros _. exists [], x, l. repeat split; try done.
    intros y Hy. inversion Hy.
  - destruct (Z.eqb_spec (Utils.findIndex p l) (-1)) as [Hi|Hi]; [done|].
    intros _. destruct (IH Hi) as (l1 & y & l2 & -> & Hy & Hl1 & Hlen).
    exists (x :: l1), y, l2. repeat split; try done.
    + intros z Hz. apply elem_of_cons in Hz as [->|Hz]; auto.
    + pose proof (findIndex_range p (l1 ++ y :: l2)) as [?|?]; [done|].
      simpl. lia.
Qed.

(** The library [addFile] stores: the item replaces the first item of
    its identifier, or goes first. *)
Lemma addFile_stored (fileData : file_data) (a : app) :
  (exists l1 x l2,
      library (store a) = l1 ++ x :: l2 /\ id x = id fileData
      /\ (forall y, y ∈ l1 -> id y ≠ id fileData)
      /\ library (store (snd (LibraryManager.addFile fileData a)))
         = l1 ++ fileData :: l2)
  \/ ((forall y, y ∈ library (store a) -> id y ≠ id fileData)
      /\ library (store (snd (LibraryManager.addFile fileData a)))
         = fileData :: library (store a)).
Proof.
  unfold LibraryManager.addFile, LibraryManager.getLibrary. simpl.
  destruct (Z.eqb_spec
              (Utils.findIndex (LibraryManager.has_id (id fileData))
                 (library (store a))) (-1)) as [Hi|Hi]; simpl.
  - right. split; [|done]. intros y Hy. apply has_id_false.
    by apply (proj1 (findIndex_none _ _) Hi).
  - left. destruct (findIndex_split _ _ Hi) as (l1 & x & l2 & Hl & Hx & Hl1 & Hlen).
    exists l1, x, l2. repeat split; try done.
    + by apply has_id_true.
    + intros y Hy. apply has_id_false. auto.
    + rewrite Hlen, Hl.
      by rewrite insert_app_r_alt, Nat.sub_diag by lia.
Qed.

Lemma find_skip {A : Type} (p : A -> bool) (l1 : list A) (x : A) (l2 : list A) :
  (forall y, y ∈ l1 -> p y = false) ->
  List.find p (l1 ++ x :: l2) = if p x then Some x else List.find p l2.
Proof.
  intros Hl1. induction l1 as [|y l1 IH]; simpl; [done|].
  rewrite (Hl1 y (list_elem_of_here y l1)). apply IH.
  intros z Hz. apply Hl1. by right.
Qed.

Lemma find_middle_other {A : Type} (p : A -> bool) (l1 : list A) (x x' : A)
    (l2 : list A) :
  p x = false -> p x' = false ->
  List.find p (l1 ++ x :: l2) = List.find p (l1 ++ x' :: l2).
Proof.
  intros Hx Hx'. induction l1 as [|y l1 IH]; simpl.
  - by rewrite Hx, Hx'.
  - by rewrite IH.
Qed.

(** When the write is accepted, [addFile] on the storage that may refuse
    it is [addFile]. *)
Lemma addFile_fallible_accepted (fileData : file_data) (a : app) :
  LibraryManager.addFile_fallible true fileData a
  = LibraryManager.addFile fileData a.
Proof. reflexivity. Qed.

(** When the write is refused, [addFile] only renders the library. *)
Lemma addFile_fallible_refused (fileData : file_data) (a : app) :
  LibraryManager.addFile_fallible false fileData a
  = (true, LibraryManager.renderLibrary a).
Proof. reflexivity. Qed.

(** X1: [addFile(fileData)] returns true whether or not the local storage
    accepts the write.  For an item that survives the JSON text it is
    stored as (its numbers are finite and not -0): when the write is
    accepted, [getFile(fileData.id)] then returns that item, the lookup of
    every other id is unchanged, and the list of ids is unchanged when
    the id was already stored (the item took the place of the first item
    of its id) and has the new id first otherwise; when the write is
    refused, the storage is unchanged, so every lookup returns what it
    returned before. *)
Theorem getFile_after_addFile (accepted : bool) (fileData : file_data)
    (a : app) :
  Utils.json_item fileData = true ->
  let r := LibraryManager.addFile_fallible accepted fileData a in
  let a' := snd r in
  fst r = true
  /\ (accepted = true ->
      LibraryManager.getFile (id fileData) a' = Some fileData
      /\ (forall j, j ≠ id fileData ->
            LibraryManager.getFile j a' = LibraryManager.getFile j a)
      /\ List.map id (library (store a'))
         = match LibraryManager.getFile (id fileData) a with
           | Some _ => List.map id (library (store a))
           | None => id fileData :: List.map id (library (store a))
           end)
  /\ (accepted = false ->
      store a' = store a
      /\ forall j, LibraryManager.getFile j a' = LibraryManager.getFile j a).
Proof.
  intros _. cbv zeta. split; [done|]. split.
  - intros ->. rewrite addFile_fallible_accepted.
    unfold LibraryManager.getFile, LibraryManager.getLibrary.
    destruct (addFile_stored fileData a)
      as [(l1 & x & l2 & Hl & Hx & Hl1 & ->)|[Hnone ->]].
    + rewrite Hl. repeat split.
      * apply find_first; [|by apply has_id_true].
        intros y Hy. apply has_id_false. auto.
      * intros j Hj. apply find_middle_other; apply has_id_false; congruence.
      * rewrite find_first; [|..|by apply has_id_true].
        -- rewrite !map_app. simpl. by rewrite Hx.
        -- intros y Hy. apply has_id_false. auto.
    + repeat split.
      * simpl. by rewrite (proj2 (has_id_true _ _) eq_refl).
      * intros j Hj. simpl.
        by rewrite (proj2 (has_id_false j fileData)) by congruence.
      * rewrite (proj2 (find_none_iff _ _)); [done|].
        intros y Hy. apply has_id_false. auto.
  - intros ->. rewrite addFile_fallible_refused. done.
Qed.

Lemma getFile_after_addFile_witness :
  let a := Samples.with_library [Samples.item "f1"; Samples.item "f2"] false in
  let stored := snd (LibraryManager.addFile_fallible true (Samples.item "f3") a) in
  let refused := snd (LibraryManager.addFile_fallible false (Samples.item "f3") a) in
  Utils.json_item (Samples.item "f3") = true
  /\ LibraryManager.getFile "f3" stored = Some (Samples.item "f3")
  /\ List.map id (library (store stored)) = ["f3"; "f1"; "f2"]%string
  /\ LibraryManager.getFile "f3" refused = None.
Proof.
  cbv zeta. split; [reflexivity|].
  destruct (getFile_after_addFile true (Samples.item "f3")
              (Samples.with_library [Samples.item "f1"; Samples.item "f2"] false)
              eq_refl) as (_ & Hstored & _).
  destruct (Hstored eq_refl) as (Hget & _ & Hids).
  destruct (getFile_after_addFile false (Samples.item "f3")
              (Samples.with_library [Samples.item "f1"; Samples.item "f2"] false)
              eq_refl) as (_ & _ & Hrefused).
  destruct (Hrefused eq_refl) as (_ & Hsame).
  split; [exact Hget|]. split; [exact Hids|].
  exact (Hsame "f3"%string).
Defined.

(** The library [removeFile] leaves. *)
Lemma removeFile_library (i : string) (a : app) :
  library (store (snd (LibraryManager.removeFile i a)))
  = List.filter (fun item => negb (LibraryManager.has_id i item))
                (library (store a)).
Proof.
  unfold LibraryManager.removeFile, LibraryManager.getLibrary.
  set (keep := fun item => negb (LibraryManager.has_id i item)).
  destruct (Nat.eqb_spec (length (List.filter keep (library (store a))))
                         (length (library (store a)))) as [Hlen|Hlen];
    simpl; [|done].
  pose proof (proj1 (filter_keeps_length keep _) Hlen) as Hall.
  clear Hlen. induction (library (store a)) as [|x l IH]; [done|].
  simpl. rewrite (Hall x (list_elem_of_here x l)). f_equal.
  apply IH. intros y Hy. apply Hall. by right.
Qed.

Lemma find_filter_other (i j : string) (l : list file_data) :
  j ≠ i ->
  List.find (LibraryManager.has_id j)
    (List.filter (fun item => negb (LibraryManager.has_id i item)) l)
  = List.find (LibraryManager.has_id j) l.
Proof.
  intros Hj. induction l as [|x l IH]; [done|]. simpl.
  destruct (LibraryManager.has_id i x) eqn:Hi; simpl.
  - apply has_id_true in Hi.
    by rewrite (proj2 (has_id_false j x)) by congruence.
  - by rewrite IH.
Qed.

(** X2: after [removeFile(id)], [getFile(id)] returns null, and the
    lookup of every other id is unchanged. *)
Theorem getFile_after_removeFile (i : string) (a : app) :
  let a' := snd (LibraryManager.removeFile i a) in
  LibraryManager.getFile i a' = None
  /\ (forall j, j ≠ i ->
        LibraryManager.getFile j a' = LibraryManager.getFile j a).
Proof.
  cbv zeta. unfold LibraryManager.getFile, LibraryManager.getLibrary.
  rewrite removeFile_library. split.
  - apply find_none_iff. intros x Hx.
    apply list_elem_of_In, filter_In in Hx as [_ Hx].
    by apply negb_true_iff in Hx.
  - intros j Hj. by apply find_filter_other.
Qed.

Lemma filter_other_id_all (i : string) (l : list file_data) :
  (forall x, x ∈ l -> id x ≠ i) ->
  List.filter (fun item => negb (LibraryManager.has_id i item)) l = l.
Proof.
  intros Hall. induction l as [|x l IH]; [done|]. simpl.
  rewrite (proj2 (has_id_false i x)) by (apply Hall; left). simpl.
  f_equal. apply IH. intros y Hy. apply Hall. by right.
Qed.

(** X3: adding an item under an id that the library does not hold and
    removing that id again gives back the stored library, whether or not
    the local storage accepted the write of [addFile]; the removal, which
    writes back the list that was stored before, returns true exactly
    when that write was accepted. *)
Theorem removeFile_undoes_addFile (accepted : bool) (fileData : file_data)
    (a : app) :
  (forall x, x ∈ library (store a) -> id x ≠ id fileData) ->
  let r := LibraryManager.removeFile (id fileData)
             (snd (LibraryManager.addFile_fallible accepted fileData a)) in
  fst r = accepted /\ library (store (snd r)) = library (store a).
Proof.
  intros Hfresh. cbv zeta. destruct accepted.
  - rewrite addFile_fallible_accepted.
    destruct (addFile_stored fileData a)
      as [(l1 & x & l2 & Hl & Hx & _)|[_ Hadd]].
    { exfalso. apply (Hfresh x); [|done]. rewrite Hl.
      apply elem_of_app. right. left. }
    split.
    + unfold LibraryManager.removeFile, LibraryManager.getLibrary.
      rewrite Hadd. simpl.
      rewrite (proj2 (has_id_true (id fileData) fileData)) by done. simpl.
      rewrite filter_other_id_all by done.
      by rewrite (proj2 (Nat.eqb_neq _ _)) by lia.
    + rewrite removeFile_library, Hadd. simpl.
      rewrite (proj2 (has_id_true (id fileData) fileData)) by done. simpl.
      by apply filter_other_id_all.
  - rewrite addFile_fallible_refused. cbn [snd]. split.
    + unfold LibraryManager.removeFile, LibraryManager.getLibrary,
        LibraryManager.renderLibrary. cbn [store emit].
      rewrite filter_other_id_all by done.
      by rewrite Nat.eqb_refl.
    + rewrite removeFile_library.
      unfold LibraryManager.renderLibrary. cbn [store emit].
      by apply filter_other_id_all.
Qed.

Lemma removeFile_undoes_addFile_witness :
  let a := Samples.with_library [Samples.item "f1"; Samples.item "f2"] false in
  let fresh x := bool_decide (id x ≠ id (Samples.item "f3")) in
  let removed accepted :=
    LibraryManager.removeFile "f3"
      (snd (LibraryManager.addFile_fallible accepted (Samples.item "f3") a)) in
  forallb fresh (library (store a)) = true
  /\ fst (removed true) = true
  /\ library (store (snd (removed true))) = [Samples.item "f1"; Samples.item "f2"]
  /\ fst (removed false) = false
  /\ library (store (snd (removed false))) = [Samples.item "f1"; Samples.item "f2"].
Proof.
  cbv zeta. split; [reflexivity|].
  assert (forall x, x ∈ [Samples.item "f1"; Samples.item "f2"] ->
                    id x ≠ id (Samples.item "f3")) as Hfresh.
  { intros x Hx.
    apply elem_of_cons in Hx as [->|Hx]; [done|].
    apply elem_of_cons in Hx as [->|Hx]; [done|].
    inversion Hx. }
  destruct (removeFile_undoes_addFile true (Samples.item "f3")
              (Samples.with_library [Samples.item "f1"; Samples.item "f2"] false)
              Hfresh) as [Htrue Hlib].
  destruct (removeFile_undoes_addFile false (Samples.item "f3")
              (Samples.with_library [Samples.item "f1"; Samples.item "f2"] false)
              Hfresh) as [Hfalse Hlib'].
  split; [exact Htrue|]. split; [exact Hlib|]. split; [exact Hfalse|exact Hlib'].
Defined.

Lemma find_update_found (p : file_data -> bool) (g : file_data -> file_data)
    (l : list file_data) :
  (forall x, p (g x) = p x) ->
  List.find p (LibraryManager.update_found p g l)
  = option_map g (List.find p l).
Proof.
  intros Hg. induction l as [|x l IH]; [done|]. simpl.
  destruct (p x) eqn:Hx; simpl.
  - by rewrite Hg, Hx.
  - by rewrite Hx.
Qed.

Lemma find_update_found_other (p q : file_data -> bool)
    (g : file_data -> file_data) (l : list file_data) :
  (forall x, q (g x) = q x) -> (forall x, p x = true -> q x = false) ->
  List.find q (LibraryManager.update_found p g l) = List.find q l.
Proof.
  intros Hg Hpq. induction l as [|x l IH]; [done|]. simpl.
  destruct (p x) eqn:Hx; simpl.
  - by rewrite Hg, (Hpq x Hx).
  - by rewrite IH.
Qed.

Lemma update_found_ids (p : file_data -> bool) (g : file_data -> file_data)
    (l : list file_data) :
  (forall x, id (g x) = id x) ->
  List.map id (LibraryManager.update_found p g l) = List.map id l.
Proof.
  intros Hg. induction l as [|x l IH]; [done|]. simpl.
  destruct (p x); simpl; [by rewrite Hg|by rewrite IH].
Qed.

Lemma has_id_other (i j : string) (x : file_data) :
  j ≠ i -> LibraryManager.has_id i x = true -> LibraryManager.has_id j x = false.
Proof.
  intros Hj Hx. apply has_id_true in Hx. apply has_id_false. congruence.
Qed.

(** X4: for a progress that survives the JSON text it is stored as (a
    finite number other than -0), and on a local storage that accepts
    the write, [updateProgress(id, progress)] stores that progress and
    the current date as last-played date in the first item of that id,
    whose other fields keep their values, and writes the library; with
    no such item nothing is written and the state is unchanged; the
    lookup of every other id and the ids of the library, in order, stay
    the same. *)
Theorem updateProgress_then_getFile (i : string) (pr : number) (now : string)
    (a : app) :
  Utils.json_number pr = true ->
  let a' := LibraryManager.updateProgress i pr now a in
  (forall f, LibraryManager.getFile i a = Some f ->
     exists f',
       LibraryManager.getFile i a' = Some f'
       /\ progress f' = pr /\ lastPlayed f' = Some now
       /\ id f' = id f /\ name f' = name f /\ size f' = size f
       /\ type f' = type f /\ text f' = text f /\ addedAt f' = addedAt f
       /\ bookmarks f' = bookmarks f)
  /\ (LibraryManager.getFile i a = None -> a' = a)
  /\ (forall j, j ≠ i ->
        LibraryManager.getFile j a' = LibraryManager.getFile j a)
  /\ List.map id (library (store a')) = List.map id (library (store a))
  /\ (forall f, LibraryManager.getFile i a = Some f ->
        writes (store a') = "pdf2audio_library"%string :: writes (store a)).
Proof.
  intros _. cbv zeta.
  unfold LibraryManager.updateProgress, LibraryManager.getFile,
    LibraryManager.getLibrary.
  destruct (List.find (LibraryManager.has_id i) (library (store a)))
    as [f|] eqn:Hf; simpl.
  - split; [|split; [|split; [|split]]].
    + intros f0 [= <-]. exists (LibraryManager.set_progress pr now f).
      split; [|done].
      rewrite find_update_found by done. by rewrite Hf.
    + discriminate.
    + intros j Hj. apply find_update_found_other; [done|].
      intros x. by apply has_id_other.
    + by apply update_found_ids.
    + done.
  - rewrite Hf. split; [discriminate|]. split; [done|]. split; [done|].
    split; [done|discriminate].
Qed.

Lemma updateProgress_then_getFile_witness :
  let a := Samples.with_library [Samples.item "f1"; Samples.item "f2"] false in
  let a' := LibraryManager.updateProgress "f2" (Number.of_Z 40) "2024-01-05" a in
  Utils.json_number (Number.of_Z 40) = true
  /\ exists f',
       LibraryManager.getFile "f2" a' = Some f'
       /\ progress f' = Number.of_Z 40 /\ lastPlayed f' = Some "2024-01-05"%string
       /\ id f' = "f2"%string /\ text f' = "text"%string /\ bookmarks f' = [].
Proof.
  cbv zeta. split; [reflexivity|].
  destruct (updateProgress_then_getFile "f2" (Number.of_Z 40) "2024-01-05"
              (Samples.with_library [Samples.item "f1"; Samples.item "f2"] false)
              eq_refl) as (Hset & _).
  destruct (Hset (Samples.item "f2") eq_refl)
    as (f' & Hget & Hpr & Hlast & Hid & _ & _ & _ & Htext & _ & Hbm).
  exists f'. split; [exact Hget|]. split; [exact Hpr|]. split; [exact Hlast|].
  split; [exact Hid|]. split; [exact Htext|exact Hbm].
Defined.

(** The bookmarks that [removeBookmark] keeps are those whose [id] is
    not the given string. *)
Lemma filter_bookmark_has_id (b : string) (l : list (gmap string value)) :
  List.filter (fun bm => negb (LibraryManager.bookmark_has_id b bm)) l
  = filter (fun bm : gmap string value => bm !! "id"%string ≠ Some (VString b)) l.
Proof.
  induction l as [|bm l IH]; [done|]. simpl. rewrite filter_cons, IH.
  unfold LibraryManager.bookmark_has_id.
  destruct (bm !! "id"%string) as [[s|n]|] eqn:Hid.
  - destruct (String.eqb_spec s b) as [->|Hs]; simpl.
    + by rewrite decide_False by (intros H; by apply H).
    + rewrite decide_True; [done|]. intros [= ->]. done.
  - by rewrite decide_True.
  - by rewrite decide_True.
Qed.

(** X5: when the library holds a file of the id, [removeBookmark]
    returns true and writes the library, whether or not a bookmark had
    the given bookmark id; the first file of the id then holds, in order,
    exactly those of its bookmarks whose [id] is not the given string,
    and its other fields keep their values; other files and the ids of
    the library are unchanged.  With no file of the id it returns false
    and changes nothing. *)
Theorem removeBookmark_removes_matching (i b : string) (a : app) :
  let r := LibraryManager.removeBookmark i b a in
  (forall f, LibraryManager.getFile i a = Some f ->
     fst r = true
     /\ (exists f',
          LibraryManager.getFile i (snd r) = Some f'
          /\ bookmarks f'
             = filter (fun bm : gmap string value =>
                         bm !! "id"%string ≠ Some (VString b)) (bookmarks f)
          /\ id f' = id f /\ name f' = name f /\ size f' = size f
          /\ type f' = type f /\ text f' = text f /\ addedAt f' = addedAt f
          /\ lastPlayed f' = lastPlayed f /\ progress f' = progress f)
     /\ writes (store (snd r)) = "pdf2audio_library"%string :: writes (store a))
  /\ (LibraryManager.getFile i a = None -> r = (false, a))
  /\ (forall j, j ≠ i ->
        LibraryManager.getFile j (snd r) = LibraryManager.getFile j a)
  /\ List.map id (library (store (snd r))) = List.map id (library (store a)).
Proof.
  cbv zeta.
  unfold LibraryManager.removeBookmark, LibraryManager.getFile,
    LibraryManager.getLibrary.
  destruct (List.find (LibraryManager.has_id i) (library (store a)))
    as [f|] eqn:Hf; simpl.
  - split; [|split; [|split]].
    + intros f0 [= <-]. split; [done|]. split; [|done].
      eexists. split.
      * rewrite find_update_found by done. rewrite Hf. reflexivity.
      * cbn [bookmarks LibraryManager.set_bookmarks id name size type text
             addedAt lastPlayed progress].
        by rewrite filter_bookmark_has_id.
    + discriminate.
    + intros j Hj. apply find_update_found_other; [done|].
      intros x. by apply has_id_other.
    + by apply update_found_ids.
  - split; [discriminate|]. split; done.
Qed.

Lemma removeBookmark_removes_matching_witness :
  let b1 := Samples.stored_bookmark "b1" 7 "seven" in
  let b2 := Samples.stored_bookmark "b2" 9 "nine" in
  let a := Samples.with_library
             [Samples.item "f1"; Samples.marked "f2" [b1; b2; b1]] false in
  let r := LibraryManager.removeBookmark "f2" "b1" a in
  fst r = true
  /\ exists f',
       LibraryManager.getFile "f2" (snd r) = Some f'
       /\ bookmarks f' = [b2] /\ id f' = "f2"%string /\ text f' = "text"%string.
Proof.
  cbv zeta.
  destruct (removeBookmark_removes_matching "f2" "b1"
              (Samples.with_library
                 [Samples.item "f1";
                  Samples.marked "f2"
                    [Samples.stored_bookmark "b1" 7 "seven";
                     Samples.stored_bookmark "b2" 9 "nine";
                     Samples.stored_bookmark "b1" 7 "seven"]] false))
    as (Hfound & _).
  destruct (Hfound _ eq_refl)
    as (Htrue & (f' & Hget & Hbm & Hid & _ & _ & _ & Htext & _) & _).
  split; [exact Htrue|]. exists f'.
  split; [exact Hget|]. split; [exact Hbm|]. split; [exact Hid|exact Htext].
Defined.

Lemma stamp_id (newId now : string) (bookmark : gmap string value) :
  bookmark !! "id"%string = None ->
  LibraryManager.bookmark_has_id newId
    (LibraryManager.stamp newId now bookmark) = true.
Proof.
  intros Hid. unfold LibraryManager.bookmark_has_id, LibraryManager.stamp.
  rewrite lookup_insert_ne by done.
  rewrite lookup_union_r by done. rewrite lookup_singleton.
  apply String.eqb_refl.
Qed.

Lemma update_found_twice (p : file_data -> bool) (g h : file_data -> file_data)
    (l : list file_data) :
  (forall x, p (g x) = p x) ->
  LibraryManager.update_found p h (LibraryManager.update_found p g l)
  = LibraryManager.update_found p (fun x => h (g x)) l.
Proof.
  intros Hg. induction l as [|x l IH]; [done|]. simpl.
  destruct (p x) eqn:Hx; simpl.
  - by rewrite Hg, Hx.
  - by rewrite Hx, IH.
Qed.

Lemma update_found_same (p : file_data -> bool) (g : file_data -> file_data)
    (l : list file_data) (f : file_data) :
  List.find p l = Some f -> g f = f ->
  LibraryManager.update_found p g l = l.
Proof.
  intros Hf Hg. induction l as [|x l IH]; [done|]. simpl in *.
  destruct (p x) eqn:Hx.
  - injection Hf as ->. by rewrite Hg.
  - by rewrite IH.
Qed.

Lemma update_found_ext (p : file_data -> bool) (g h : file_data -> file_data)
    (l : list file_data) :
  (forall x, g x = h x) ->
  LibraryManager.update_found p g l = LibraryManager.update_found p h l.
Proof.
  intros Hgh. induction l as [|x l IH]; [done|]. simpl.
  destruct (p x); [by rewrite Hgh|by rewrite IH].
Qed.

(** X6: when [addBookmark] is allowed (premium, or fewer than 3
    bookmarks), the bookmark has no [id] property of its own and the
    generated id is new among the bookmarks of the file, then removing the
    generated id after adding the bookmark gives back the stored
    library. *)
Theorem removeBookmark_undoes_addBookmark (i : string)
    (bookmark : gmap string value) (newId now : string) (a : app)
    (f : file_data) :
  LibraryManager.getFile i a = Some f ->
  premium (store a) = true \/ (length (bookmarks f) < 3)%nat ->
  bookmark !! "id"%string = None ->
  (forall bm, bm ∈ bookmarks f ->
     LibraryManager.bookmark_has_id newId bm = false) ->
  let added := LibraryManager.addBookmark i bookmark newId now a in
  let removed := LibraryManager.removeBookmark i newId (snd added) in
  fst added = true /\ fst removed = true
  /\ library (store (snd removed)) = library (store a).
Proof.
  intros Hf Hroom Hid Hfresh. cbv zeta.
  unfold LibraryManager.getFile, LibraryManager.getLibrary in Hf.
  assert (negb (PremiumManager.isPremium a)
          && (3 <=? length (bookmarks f))%nat = false) as Hgate.
  { unfold PremiumManager.isPremium. destruct Hroom as [->|Hlt]; [done|].
    rewrite (proj2 (Nat.leb_gt _ _)) by lia. apply andb_false_r. }
  unfold LibraryManager.addBookmark, LibraryManager.getLibrary.
  rewrite Hf, Hgate. cbn [fst snd].
  unfold LibraryManager.removeBookmark, LibraryManager.getLibrary.
  cbn [LibraryManager.saveLibrary set_store store library
       Utils.storageSet_library].
  unfold LibraryManager.saveLibrary at 1. cbn [set_store store library
       Utils.storageSet_library].
  rewrite find_update_found by done. rewrite Hf. cbn [option_map fst snd].
  repeat split.
  unfold LibraryManager.saveLibrary. cbn [set_store store library
       Utils.storageSet_library].
  rewrite update_found_twice by done.
  apply (update_found_same _ _ _ f Hf).
  cbn [bookmarks LibraryManager.set_bookmarks].
  rewrite List.filter_app. simpl. rewrite stamp_id by done. simpl.
  rewrite app_nil_r.
  assert (List.filter
            (fun b => negb (LibraryManager.bookmark_has_id newId b))
            (bookmarks f) = bookmarks f) as ->.
  { clear -Hfresh. induction (bookmarks f) as [|bm l IH]; [done|]. simpl.
    rewrite (Hfresh bm) by left. simpl. f_equal. apply IH.
    intros y Hy. apply Hfresh. by right. }
  by destruct f.
Qed.

Lemma removeBookmark_undoes_addBookmark_witness :
  let a := Samples.with_library [Samples.item "f1"] false in
  let added :=
    LibraryManager.addBookmark "f1" (Samples.bookmark_at 7 "text")
                               "b1" "2024-01-02" a in
  let removed := LibraryManager.removeBookmark "f1" "b1" (snd added) in
  fst added = true /\ fst removed = true
  /\ library (store (snd removed)) = library (store a).
Proof.
  apply (removeBookmark_undoes_addBookmark "f1" (Samples.bookmark_at 7 "text")
           "b1" "2024-01-02"
           (Samples.with_library [Samples.item "f1"] false)
           (Samples.item "f1")).
  - reflexivity.
  - right. simpl. lia.
  - reflexivity.
  - intros bm Hbm. inversion Hbm.
Defined.

Lemma shl_align_value (mx : positive) (ex ez : Z) :
  ez <= ex -> Zpos (fst (shl_align mx ex ez)) = Zpos mx * 2 ^ (ex - ez).
Proof.
  intros Hle. unfold shl_align.
  destruct (ez - ex) as [|d|d] eqn:Hd; simpl; try lia.
  - replace (ex - ez) with 0 by lia. lia.
  - rewrite Zpos_iter_xO. f_equal. f_equal. lia.
Qed.

(** A rounded number keeps the sign it is given. *)
Lemma binary_round_aux_negative (m e : Z) (l : location) :
  Number.ltb (Number.of_Z 0)
    (binary_round_aux Number.prec Number.emax true m e l) = false.
Proof.
  unfold binary_round_aux.
  destruct (shr_fexp Number.prec Number.emax m e l) as [mrs' e'].
  destruct (shr_fexp Number.prec Number.emax _ e' loc_Exact) as [mrs'' e''].
  destruct (shr_m mrs'') as [|q|q]; [done| |done].
  by destruct (e'' <=? Number.emax - Number.prec).
Qed.

(** The difference of two positive numbers is not positive when the
    first is the smaller one. *)
Lemma sub_not_positive (mx my : positive) (ex ey : Z) :
  Zpos mx * 2 ^ (ex - Z.min ex ey) < Zpos my * 2 ^ (ey - Z.min ex ey) ->
  Number.ltb (Number.of_Z 0)
    (Number.sub (S754_finite false mx ex) (S754_finite false my ey)) = false.
Proof.
  intros Hlt. unfold Number.sub, SFsub. cbv zeta.
  rewrite !shl_align_value by lia. cbn [cond_Zopp].
  destruct (Zpos mx * 2 ^ (ex - Z.min ex ey)
            - Zpos my * 2 ^ (ey - Z.min ex ey)) as [|q|q] eqn:Hq; try lia.
  unfold binary_normalize, binary_round.
  destruct (shl_align q _ _) as [mz ez].
  apply binary_round_aux_negative.
Qed.

Lemma free_tier_full (n : Z) :
  5 <= n < 2 ^ 53 ->
  Number.ltb (Number.of_Z 0) (Number.sub (Number.of_Z 5) (Number.of_Z n))
  = false.
Proof.
  intros Hn. destruct n as [|p|p]; try lia.
  destruct (Z.eq_dec (Zpos p) 5) as [->|Hne]; [done|].
  destruct (of_Z_pos p ltac:(lia)) as (m & e & -> & _ & He & Hm).
  change (Number.of_Z 5) with (S754_finite false 5629499534213120 (-50)).
  apply sub_not_positive. rewrite Hm.
  assert ((Z.min (-50) e = -50 /\ -50 <= e)
          \/ (Z.min (-50) e = e /\ e < -50)) as [[-> Hge]|[-> Hlt]] by lia.
  - replace (-50 - -50) with 0 by lia.
    rewrite <- Z.mul_assoc, <- Z.pow_add_r by lia.
    replace (- e + (e - -50)) with 50 by lia.
    change (2 ^ 0) with 1. change (2 ^ 50) with 1125899906842624.
    clear Hm. lia.
  - replace (e - e) with 0 by lia. rewrite Z.mul_1_r.
    replace (-50 - e) with (- e - 50) by lia.
    assert (2 ^ (- e) = 2 ^ (- e - 50) * 2 ^ 50) as ->.
    { rewrite <- Z.pow_add_r by lia. f_equal. lia. }
    assert (0 < 2 ^ (- e - 50)) by (apply Z.pow_pos_nonneg; lia).
    change (2 ^ 50) with 1125899906842624. clear Hm. nia.
Qed.

(** X7: [canAddFile()] allows another file exactly when the premium flag
    is set or the library holds fewer than 5 items; [maxItems] is 5 or
    Infinity; [remaining] is Infinity with the flag and 5 minus the size
    for a free library of at most 5 items. *)
Theorem canAddFile_counts_items (a : app) :
  Z.of_nat (length (library (store a))) < 2 ^ 53 ->
  let st := LibraryManager.canAddFile a in
  LibraryManager.canAdd st
  = premium (store a) || (length (library (store a)) <? 5)%nat
  /\ LibraryManager.status_isPremium st = premium (store a)
  /\ LibraryManager.maxItems st
     = (if premium (store a) then S754_infinity false else Number.of_Z 5)
  /\ (premium (store a) = true ->
      LibraryManager.remaining st = S754_infinity false)
  /\ (premium (store a) = false ->
      (length (library (store a)) <= 5)%nat ->
      LibraryManager.remaining st
      = Number.of_Z (5 - Z.of_nat (length (library (store a))))).
Proof.
  intros Hlen. cbv zeta.
  unfold LibraryManager.canAddFile, PremiumManager.isPremium,
    LibraryManager.getLibrary. cbv zeta.
  cbn [LibraryManager.canAdd LibraryManager.status_isPremium
       LibraryManager.maxItems LibraryManager.remaining].
  destruct (premium (store a)) eqn:Hprem.
  - assert (Number.sub LibraryManager.MAX_PREMIUM_ITEMS
              (Number.of_Z (Z.of_nat (length (library (store a)))))
            = S754_infinity false) as ->.
    { destruct (Z.of_nat (length (library (store a)))) as [|n|n] eqn:Hn;
        [done| |lia].
      by destruct (of_Z_pos n Hlen) as (m & e & -> & _). }
    repeat split; done.
  - split; [|repeat split; try done].
    + destruct (Nat.ltb_spec (length (library (store a))) 5) as [Hlt|Hge].
      * destruct (length (library (store a))) as [|[|[|[|[|n]]]]];
          try lia; reflexivity.
      * apply free_tier_full. lia.
    + intros _ Hle.
      destruct (length (library (store a))) as [|[|[|[|[|[|n]]]]]];
        try lia; reflexivity.
Qed.

Lemma canAddFile_counts_items_witness :
  LibraryManager.canAdd (LibraryManager.canAddFile Samples.full_free_library)
  = false.
Proof.
  apply (proj1 (canAddFile_counts_items Samples.full_free_library
                  ltac:(vm_compute; reflexivity))).
Defined.

Lemma filter_ids_NoDup (i : string) (l : list file_data) :
  NoDup (List.map id l) ->
  NoDup (List.map id
           (List.filter (fun item => negb (LibraryManager.has_id i item)) l)).
Proof.
  induction l as [|x l IH]; [done|]. simpl. intros Hnd.
  apply NoDup_cons in Hnd as [Hx Hnd].
  destruct (negb (LibraryManager.has_id i x)); [|by apply IH].
  simpl. apply NoDup_cons. split; [|by apply IH].
  intros Hin. apply Hx.
  apply list_elem_of_In, in_map_iff in Hin as (y & Hy & Hin).
  apply filter_In in Hin as [Hin _].
  apply list_elem_of_In, in_map_iff. by exists y.
Qed.

(** X8: a library whose ids are pairwise distinct keeps distinct ids
    under [addFile] and [removeFile]; [updateProgress], [addBookmark] and
    [removeBookmark] leave the list of ids as it is. *)
Theorem library_ids_stay_unique (a : app) :
  NoDup (List.map id (library (store a))) ->
  (forall fileData,
      NoDup (List.map id
               (library (store (snd (LibraryManager.addFile fileData a))))))
  /\ (forall i,
        NoDup (List.map id
                 (library (store (snd (LibraryManager.removeFile i a))))))
  /\ (forall i pr now,
        List.map id (library (store (LibraryManager.updateProgress i pr now a)))
        = List.map id (library (store a)))
  /\ (forall i bookmark newId now,
        List.map id
          (library (store (snd (LibraryManager.addBookmark i bookmark newId
                                  now a))))
        = List.map id (library (store a)))
  /\ (forall i b,
        List.map id
          (library (store (snd (LibraryManager.removeBookmark i b a))))
        = List.map id (library (store a))).
Proof.
  intros Hnd. split; [|split; [|split; [|split]]].
  - intros fileData.
    destruct (addFile_stored fileData a)
      as [(l1 & x & l2 & Hl & Hx & _ & ->)|[Hnone ->]].
    + rewrite Hl in Hnd. rewrite map_app in *. simpl in *.
      by rewrite <- Hx.
    + simpl. apply NoDup_cons. split; [|done].
      intros Hin. apply list_elem_of_In, in_map_iff in Hin as (y & Hy & Hin).
      apply (Hnone y); [by apply list_elem_of_In|done].
  - intros i. rewrite removeFile_library. by apply filter_ids_NoDup.
  - intros i pr now. unfold LibraryManager.updateProgress,
      LibraryManager.getLibrary.
    destruct (List.find _ _); [|done]. simpl. by apply update_found_ids.
  - intros i bookmark newId now. unfold LibraryManager.addBookmark,
      LibraryManager.getLibrary.
    destruct (List.find _ _); [|done].
    destruct (negb _ && _); [done|]. simpl. by apply update_found_ids.
  - intros i b. unfold LibraryManager.removeBookmark,
      LibraryManager.getLibrary.
    destruct (List.find _ _); [|done]. simpl. by apply update_found_ids.
Qed.

Lemma library_ids_stay_unique_witness :
  NoDup (List.map id
           (library (store (snd (LibraryManager.addFile (Samples.item "f1")
                                   (Samples.with_library
                                      [Samples.item "f1"; Samples.item "f2"]
                                      false)))))).
Proof.
  refine (proj1 (library_ids_stay_unique
                   (Samples.with_library [Samples.item "f1"; Samples.item "f2"]
                                         false) _) (Samples.item "f1")).
  simpl. apply NoDup_cons. split.
  - intros Hin. apply list_elem_of_singleton in Hin. discriminate.
  - apply NoDup_singleton.
Defined.

(** ** Accounts: sessions and the password checksum *)

Lemma same_email_lower (e e' : string) (u : user) :
  JSString.toLowerCase e' = JSString.toLowerCase e ->
  AuthManager.same_email e' u = AuthManager.same_email e u.
Proof. unfold AuthManager.same_email. by intros ->. Qed.

Lemma findUserByEmail_lower (e e' : string) (a : app) :
  JSString.toLowerCase e' = JSString.toLowerCase e ->
  AuthManager.findUserByEmail e' a = AuthManager.findUserByEmail e a.
Proof.
  intros He. unfold AuthManager.findUserByEmail.
  induction (AuthManager.getUsers a) as [|u l IH]; [done|]. simpl.
  by rewrite (same_email_lower e e' u He), IH.
Qed.

(** What a registration under a new, trimmed email leaves. *)
Lemma register_new (nm em pw newId now : string) (a : app) :
  JSString.trim em = em ->
  AuthManager.findUserByEmail em a = None ->
  let u := {| user_id := newId; user_name := JSString.trim nm;
              email := JSString.toLowerCase em;
              password := Some (AuthManager.hashPassword pw);
              createdAt := now; isPremium := false;
              premiumExpiresAt := None |} in
  let r := AuthManager.register nm em pw newId now a in
  fst r = AuthManager.Success u
  /\ users (store (snd r)) = users (store a) ++ [u]
  /\ current_user (store (snd r)) = Some (without_password u)
  /\ AuthManager.findUserByEmail em (snd r) = Some u.
Proof.
  intros Htrim Hnone. cbv zeta. unfold AuthManager.register.
  rewrite Hnone, Htrim. cbn [fst snd]. repeat split.
  unfold AuthManager.findUserByEmail, AuthManager.getUsers in *. simpl.
  apply find_app_none; [done|].
  unfold AuthManager.same_email. simpl.
  rewrite toLowerCase_idempotent. apply String.eqb_refl.
Qed.

(** X9: after a registration under an email without surrounding white
    space that no stored user has, [login] with that email in any letter
    case and the same password succeeds with the registered user, whose
    email is stored in lower case; the stored session is that user
    without the password checksum. *)
Theorem login_ignores_letter_case (nm em em' pw newId now : string) (a : app) :
  JSString.trim em = em ->
  AuthManager.findUserByEmail em a = None ->
  JSString.toLowerCase em' = JSString.toLowerCase em ->
  let registered := AuthManager.register nm em pw newId now a in
  let logged := AuthManager.login em' pw (snd registered) in
  exists u,
    fst registered = AuthManager.Success u
    /\ email u = JSString.toLowerCase em
    /\ fst logged = AuthManager.Success u
    /\ AuthManager.getCurrentUser (snd logged) = Some (without_password u).
Proof.
  intros Htrim Hnone Hlow. cbv zeta.
  destruct (register_new nm em pw newId now a Htrim Hnone)
    as (Hreg & _ & _ & Hfind).
  eexists. split; [exact Hreg|]. split; [done|].
  unfold AuthManager.login.
  rewrite (findUserByEmail_lower em em' _ Hlow), Hfind. cbn [password].
  unfold AuthManager.verifyPassword. rewrite String.eqb_refl. done.
Qed.

Lemma login_ignores_letter_case_witness :
  let registered :=
    AuthManager.register "Al" "Al@B.c" "secret1" "u1" "2024-01-01" initial in
  let logged := AuthManager.login "AL@b.C" "secret1" (snd registered) in
  exists u,
    fst registered = AuthManager.Success u
    /\ email u = JSString.toLowerCase "Al@B.c"
    /\ fst logged = AuthManager.Success u
    /\ AuthManager.getCurrentUser (snd logged) = Some (without_password u).
Proof.
  apply (login_ignores_letter_case "Al" "Al@B.c" "AL@b.C" "secret1" "u1"
           "2024-01-01" initial); reflexivity.
Defined.

(** X10: after such a registration, a second [register] with the same
    email in any letter case fails with 'Email already registered' and
    leaves the state unchanged. *)
Theorem register_rejects_registered_email
    (nm em pw newId now nm' em' pw' newId' now' : string) (a : app) :
  JSString.trim em = em ->
  AuthManager.findUserByEmail em a = None ->
  JSString.toLowerCase em' = JSString.toLowerCase em ->
  let a1 := snd (AuthManager.register nm em pw newId now a) in
  AuthManager.register nm' em' pw' newId' now' a1
  = (AuthManager.Failure "Email already registered", a1).
Proof.
  intros Htrim Hnone Hlow. cbv zeta.
  destruct (register_new nm em pw newId now a Htrim Hnone)
    as (_ & _ & _ & Hfind).
  unfold AuthManager.register at 1.
  by rewrite (findUserByEmail_lower em em' _ Hlow), Hfind.
Qed.

Lemma register_rejects_registered_email_witness :
  let a1 := snd (AuthManager.register "Al" "al@b.c" "secret1" "u1"
                   "2024-01-01" initial) in
  AuthManager.register "Bo" "AL@B.C" "secret2" "u2" "2024-01-02" a1
  = (AuthManager.Failure "Email already registered", a1).
Proof.
  apply (register_rejects_registered_email "Al" "al@b.c" "secret1" "u1"
           "2024-01-01" "Bo" "AL@B.C" "secret2" "u2" "2024-01-02" initial);
    reflexivity.
Defined.

(** X11: [login] succeeds only for the user found by the email whose
    stored checksum is that of the given password; it then stores the
    session without the checksum and leaves the user list alone.  A
    failed [login] leaves the state unchanged. *)
Theorem login_requires_matching_checksum (em pw : string) (a : app) :
  let r := AuthManager.login em pw a in
  (forall u, fst r = AuthManager.Success u ->
     AuthManager.findUserByEmail em a = Some u
     /\ password u = Some (AuthManager.hashPassword pw)
     /\ AuthManager.getCurrentUser (snd r) = Some (without_password u)
     /\ users (store (snd r)) = users (store a))
  /\ (forall msg, fst r = AuthManager.Failure msg -> snd r = a).
Proof.
  cbv zeta. unfold AuthManager.login.
  destruct (AuthManager.findUserByEmail em a) as [u|]; [|by split].
  destruct (password u) as [h|] eqn:Hpw; [|by split].
  unfold AuthManager.verifyPassword.
  destruct (String.eqb_spec (AuthManager.hashPassword pw) h) as [<-|Hne];
    [|by split].
  split; [|done]. intros u' [= <-]. done.
Qed.

(** *** The password checksum *)

Lemma to_int32_range (z : Z) : - 2 ^ 31 <= AuthManager.to_int32 z < 2 ^ 31.
Proof.
  unfold AuthManager.to_int32.
  pose proof (Z.mod_pos_bound z (2 ^ 32) ltac:(lia)).
  destruct (Z.ltb_spec (z mod 2 ^ 32) (2 ^ 31)); lia.
Qed.

Lemma to_int32_mod (z : Z) : AuthManager.to_int32 z mod 2 ^ 32 = z mod 2 ^ 32.
Proof.
  unfold AuthManager.to_int32.
  destruct (Z.ltb_spec (z mod 2 ^ 32) (2 ^ 31)).
  - apply Z.mod_mod. lia.
  - rewrite <- (Z.mod_add _ 1) by lia.
    replace (z mod 2 ^ 32 - 2 ^ 32 + 1 * 2 ^ 32) with (z mod 2 ^ 32) by lia.
    apply Z.mod_mod. lia.
Qed.

Lemma to_int32_eq (x y : Z) :
  x mod 2 ^ 32 = y mod 2 ^ 32 -> AuthManager.to_int32 x = AuthManager.to_int32 y.
Proof. unfold AuthManager.to_int32. by intros ->. Qed.

Lemma to_int32_small (z : Z) :
  - 2 ^ 31 <= z < 2 ^ 31 -> AuthManager.to_int32 z = z.
Proof.
  intros Hz. unfold AuthManager.to_int32.
  destruct (Z.ltb_spec (z mod 2 ^ 32) (2 ^ 31)) as [Hlt|Hge].
  - destruct (Z.le_gt_cases 0 z).
    + apply Z.mod_small. lia.
    + rewrite <- (Z.mod_add _ 1) in Hlt by lia.
      rewrite Z.mod_small in Hlt by lia. lia.
  - destruct (Z.le_gt_cases 0 z).
    + rewrite Z.mod_small in Hge by lia. lia.
    + rewrite <- (Z.mod_add _ 1) by lia.
      rewrite Z.mod_small by lia. lia.
Qed.

(** One round of the loop multiplies by 31, adds the character code and
    wraps to 32 bits. *)
Lemma hash_step_31 (h : Z) (c : ascii) :
  AuthManager.hash_step h c
  = AuthManager.to_int32 (31 * h + JSString.charCode c).
Proof.
  unfold AuthManager.hash_step. cbv zeta. rewrite Z.land_diag.
  apply to_int32_eq. rewrite Z.shiftl_mul_pow2 by lia.
  rewrite <- Zplus_mod_idemp_l, <- Zminus_mod_idemp_l, to_int32_mod.
  rewrite <- Zmult_mod_idemp_l, to_int32_mod, Zmult_mod_idemp_l.
  rewrite Zminus_mod_idemp_l, Zplus_mod_idemp_l. f_equal. lia.
Qed.

Lemma horner_linear (h k : Z) (s : string) :
  horner (h + k * 2 ^ 32) s
  = horner h s + k * 31 ^ Z.of_nat (String.length s) * 2 ^ 32.
Proof.
  revert h k. induction s as [|c s IH]; intros h k.
  - simpl. lia.
  - cbn [horner String.length].
    replace (31 * (h + k * 2 ^ 32) + JSString.charCode c)
      with (31 * h + JSString.charCode c + (31 * k) * 2 ^ 32) by lia.
    rewrite IH, Nat2Z.inj_succ, Z.pow_succ_r by lia. lia.
Qed.

Lemma horner_mod (h h' : Z) (s : string) :
  h mod 2 ^ 32 = h' mod 2 ^ 32 ->
  horner h s mod 2 ^ 32 = horner h' s mod 2 ^ 32.
Proof.
  intros Hh.
  rewrite (Z.div_mod h (2 ^ 32)), (Z.div_mod h' (2 ^ 32)) by lia.
  rewrite Hh.
  rewrite (Z.add_comm (2 ^ 32 * (h / 2 ^ 32))),
    (Z.add_comm (2 ^ 32 * (h' / 2 ^ 32))).
  rewrite (Z.mul_comm (2 ^ 32) (h / 2 ^ 32)),
    (Z.mul_comm (2 ^ 32) (h' / 2 ^ 32)).
  rewrite !horner_linear, !Z.mod_add by lia. done.
Qed.

Lemma hash_from_horner (h : Z) (s : string) :
  AuthManager.hash_from (AuthManager.to_int32 h) s
  = AuthManager.to_int32 (horner h s).
Proof.
  revert h. induction s as [|c s IH]; intros h; [done|].
  cbn [AuthManager.hash_from horner]. rewrite hash_step_31, IH.
  apply to_int32_eq, horner_mod.
  rewrite <- Zplus_mod_idemp_l, <- Zmult_mod_idemp_r, to_int32_mod.
  by rewrite Zmult_mod_idemp_r, Zplus_mod_idemp_l.
Qed.

(** X12: [hashPassword] prints, in base 16, the polynomial hash of the
    password with multiplier 31 wrapped to a signed 32-bit integer: the
    shift, the subtraction and the [&] of each round amount to
    [hash * 31 + char] modulo 2^32. *)
Theorem hashPassword_is_polynomial (pw : string) :
  AuthManager.hashPassword pw
  = AuthManager.toString16 (AuthManager.to_int32 (horner 0 pw))
  /\ - 2 ^ 31 <= AuthManager.to_int32 (horner 0 pw) < 2 ^ 31.
Proof.
  split; [|apply to_int32_range].
  unfold AuthManager.hashPassword. f_equal.
  exact (hash_from_horner 0 pw).
Qed.

Lemma hash_from_app (h : Z) (s t : string) :
  AuthManager.hash_from h (s +:+ t)
  = AuthManager.hash_from (AuthManager.hash_from h s) t.
Proof.
  revert h. induction s as [|c s IH]; intros h; [done|].
  rewrite append_cons. simpl. apply IH.
Qed.

Lemma hash_from_int32 (h : Z) (s : string) :
  - 2 ^ 31 <= h < 2 ^ 31 -> - 2 ^ 31 <= AuthManager.hash_from h s < 2 ^ 31.
Proof.
  intros Hh. rewrite <- (to_int32_small h Hh), hash_from_horner.
  apply to_int32_range.
Qed.

(** Two passwords that differ in the letters "Aa" and "BB" have the
    same checksum. *)
Lemma hashPassword_collides (pre suf : string) :
  AuthManager.hashPassword (pre +:+ "Aa" +:+ suf)
  = AuthManager.hashPassword (pre +:+ "BB" +:+ suf)
  /\ pre +:+ "Aa" +:+ suf ≠ pre +:+ "BB" +:+ suf.
Proof.
  split.
  - unfold AuthManager.hashPassword. f_equal.
    rewrite !hash_from_app. f_equal.
    pose proof (hash_from_int32 0 pre ltac:(lia)) as Hr.
    rewrite <- (to_int32_small _ Hr), !hash_from_horner.
    apply to_int32_eq. simpl. f_equal. unfold JSString.charCode. simpl. lia.
  - induction pre as [|c pre IH]; [done|].
    rewrite !append_cons. intros [= H]. by apply IH.
Qed.

(** X13: the checksum does not separate passwords: for an account
    registered with a password that contains "Aa", [login] succeeds with
    the different password that has "BB" in its place. *)
Theorem login_accepts_colliding_password (nm em pre suf newId now : string)
    (a : app) :
  JSString.trim em = em ->
  AuthManager.findUserByEmail em a = None ->
  let chosen := pre +:+ "Aa" +:+ suf in
  let other := pre +:+ "BB" +:+ suf in
  let registered := AuthManager.register nm em chosen newId now a in
  other ≠ chosen
  /\ exists u,
       fst registered = AuthManager.Success u
       /\ fst (AuthManager.login em other (snd registered))
          = AuthManager.Success u.
Proof.
  intros Htrim Hnone. cbv zeta.
  destruct (hashPassword_collides pre suf) as [Hhash Hne].
  split; [congruence|].
  destruct (register_new nm em (pre +:+ "Aa" +:+ suf) newId now a Htrim Hnone)
    as (Hreg & _ & _ & Hfind).
  eexists. split; [exact Hreg|].
  unfold AuthManager.login. rewrite Hfind. cbn [password].
  unfold AuthManager.verifyPassword. by rewrite Hhash, String.eqb_refl.
Qed.

Lemma login_accepts_colliding_password_witness :
  let chosen := "my" +:+ "Aa" +:+ "pass" in
  let other := "my" +:+ "BB" +:+ "pass" in
  let registered :=
    AuthManager.register "Al" "al@b.c" chosen "u1" "2024-01-01" initial in
  other ≠ chosen
  /\ exists u,
       fst registered = AuthManager.Success u
       /\ fst (AuthManager.login "al@b.c" other (snd registered))
          = AuthManager.Success u.
Proof.
  apply (login_accepts_colliding_password "Al" "al@b.c" "my" "pass" "u1"
           "2024-01-01" initial); reflexivity.
Defined.

(** X14: [logout] removes the session and nothing else: nobody is
    logged in afterwards, the user list and the library are unchanged,
    and every [login] gives the result it gave before.  In particular a
    user who registered, under an email without surrounding white space,
    and logged out can log in again. *)
Theorem logout_forgets_only_the_session (a : app) :
  AuthManager.isLoggedIn (AuthManager.logout a) = false
  /\ AuthManager.getCurrentUser (AuthManager.logout a) = None
  /\ users (store (AuthManager.logout a)) = users (store a)
  /\ library (store (AuthManager.logout a)) = library (store a)
  /\ (forall em pw,
        fst (AuthManager.login em pw (AuthManager.logout a))
        = fst (AuthManager.login em pw a))
  /\ (forall nm em pw newId now,
        JSString.trim em = em ->
        AuthManager.findUserByEmail em a = None ->
        let registered := snd (AuthManager.register nm em pw newId now a) in
        let back := AuthManager.login em pw (AuthManager.logout registered) in
        AuthManager.isLoggedIn registered = true
        /\ (exists u, fst back = AuthManager.Success u)
        /\ AuthManager.isLoggedIn (snd back) = true).
Proof.
  assert (forall b em pw,
             fst (AuthManager.login em pw (AuthManager.logout b))
             = fst (AuthManager.login em pw b)) as Hsame.
  { intros b em pw. unfold AuthManager.login.
    change (AuthManager.findUserByEmail em (AuthManager.logout b))
      with (AuthManager.findUserByEmail em b).
    destruct (AuthManager.findUserByEmail em b) as [u|]; [|done].
    destruct (password u) as [h|]; [|done].
    by destruct (AuthManager.verifyPassword pw h). }
  split; [done|]. split; [done|]. split; [done|]. split; [done|].
  split; [apply Hsame|].
  intros nm em pw newId now Htrim Hnone. cbv zeta.
  destruct (register_new nm em pw newId now a Htrim Hnone)
    as (_ & _ & Hsession & Hfind).
  split; [unfold AuthManager.isLoggedIn; by rewrite Hsession|].
  unfold AuthManager.login.
  change (AuthManager.findUserByEmail em (AuthManager.logout ?b))
    with (AuthManager.findUserByEmail em b).
  rewrite Hfind. cbn [password]. unfold AuthManager.verifyPassword.
  rewrite String.eqb_refl. split; [by eexists|done].
Qed.

Lemma has_user_id_true (i : string) (u : user) :
  AuthManager.has_user_id i u = true <-> user_id u = i.
Proof. unfold AuthManager.has_user_id. apply String.eqb_eq. Qed.

Lemma has_user_id_false (i : string) (u : user) :
  AuthManager.has_user_id i u = false <-> user_id u ≠ i.
Proof. unfold AuthManager.has_user_id. apply String.eqb_neq. Qed.

(** X15: [updatePremiumStatus] does nothing when nobody is logged in.
    Otherwise the session then holds the new status and expiry date, no
    checksum, and the other properties it held; the first stored user of
    the same id holds the new status and expiry date and keeps its other
    properties, the checksum included; the other users and the library
    are unchanged. *)
Theorem updatePremiumStatus_updates_both_copies (p : bool)
    (expiresAt : option string) (a : app) :
  let a' := AuthManager.updatePremiumStatus p expiresAt a in
  (AuthManager.getCurrentUser a = None -> a' = a)
  /\ (forall cu, AuthManager.getCurrentUser a = Some cu ->
        (exists cu',
           AuthManager.getCurrentUser a' = Some cu'
           /\ isPremium cu' = p /\ premiumExpiresAt cu' = expiresAt
           /\ password cu' = None
           /\ user_id cu' = user_id cu /\ user_name cu' = user_name cu
           /\ email cu' = email cu /\ createdAt cu' = createdAt cu)
        /\ (forall l1 u l2,
              users (store a) = l1 ++ u :: l2 ->
              user_id u = user_id cu ->
              (forall y, y ∈ l1 -> user_id y ≠ user_id cu) ->
              exists u',
                users (store a') = l1 ++ u' :: l2
                /\ isPremium u' = p /\ premiumExpiresAt u' = expiresAt
                /\ password u' = password u
                /\ user_id u' = user_id u /\ user_name u' = user_name u
                /\ email u' = email u /\ createdAt u' = createdAt u)
        /\ ((forall y, y ∈ users (store a) -> user_id y ≠ user_id cu) ->
            users (store a') = users (store a)))
  /\ library (store a') = library (store a).
Proof.
  cbv zeta. unfold AuthManager.updatePremiumStatus.
  destruct (AuthManager.getCurrentUser a) as [cu|] eqn:Hcu;
    [|by repeat split].
  cbv zeta. cbn [user_id AuthManager.set_premium].
  change (AuthManager.getUsers (AuthManager.setCurrentUser _ a))
    with (users (store a)).
  split; [discriminate|]. split.
  - intros cu' [= <-].
    destruct (Z.eqb_spec
                (Utils.findIndex (AuthManager.has_user_id (user_id cu))
                   (users (store a))) (-1)) as [Hi|Hi]; cbn [negb].
    + split; [eexists; split; [reflexivity|done]|]. split; [|done].
      intros l1 u l2 Hl Hu Hl1. exfalso.
      pose proof (proj1 (findIndex_none _ _) Hi u) as Hnot.
      rewrite Hl in Hnot.
      specialize (Hnot ltac:(apply elem_of_app; right; left)).
      apply has_user_id_false in Hnot. done.
    + split; [eexists; split; [reflexivity|done]|]. split.
      * intros l1 u l2 Hl Hu Hl1.
        exists (AuthManager.set_premium p expiresAt u). split; [|done].
        simpl. rewrite Hl.
        assert (Utils.findIndex (AuthManager.has_user_id (user_id cu))
                  (l1 ++ u :: l2) = Z.of_nat (length l1)) as ->.
        { clear -Hu Hl1. induction l1 as [|y l1 IH]; simpl.
          - by rewrite (proj2 (has_user_id_true _ _) Hu).
          - rewrite (proj2 (has_user_id_false _ _)) by (apply Hl1; left).
            rewrite IH by (intros z Hz; apply Hl1; by right).
            destruct (Z.eqb_spec (Z.of_nat (length l1)) (-1)); lia. }
        rewrite Nat2Z.id.
        replace (length l1) with (length l1 + 0)%nat by lia.
        by rewrite alter_app_r.
      * intros Hnone. exfalso. apply Hi, findIndex_none.
        intros y Hy. apply has_user_id_false. auto.
  - by destruct (negb _).
Qed.

Lemma updatePremiumStatus_updates_both_copies_witness :
  let a := snd (AuthManager.register "Al" "al@b.c" "secret1" "u1"
                  "2024-01-01" initial) in
  let a' := AuthManager.updatePremiumStatus true (Some "2025-01-01"%string) a in
  (exists cu',
     AuthManager.getCurrentUser a' = Some cu'
     /\ isPremium cu' = true /\ premiumExpiresAt cu' = Some "2025-01-01"%string
     /\ password cu' = None /\ email cu' = "al@b.c"%string)
  /\ (exists u',
        users (store a') = [u']
        /\ isPremium u' = true /\ premiumExpiresAt u' = Some "2025-01-01"%string
        /\ password u' = Some (AuthManager.hashPassword "secret1")
        /\ email u' = "al@b.c"%string).
Proof.
  cbv zeta.
  destruct (updatePremiumStatus_updates_both_copies true
              (Some "2025-01-01"%string)
              (snd (AuthManager.register "Al" "al@b.c" "secret1" "u1"
                      "2024-01-01" initial)))
    as (_ & Hin & _).
  destruct (Hin _ eq_refl) as (Hsession & Hstored & _).
  split.
  - destruct Hsession as (cu' & Hcu & Hp & He & Hpw & _ & _ & Hem & _).
    exists cu'. split; [exact Hcu|]. split; [exact Hp|]. split; [exact He|].
    split; [exact Hpw|exact Hem].
  - destruct (Hstored [] _ [] eq_refl eq_refl)
      as (u' & Hus & Hp & He & Hpw & _ & _ & Hem & _).
    { intros y Hy. inversion Hy. }
    exists u'. split; [exact Hus|]. split; [exact Hp|]. split; [exact He|].
    split; [exact Hpw|exact Hem].
Defined.

(** X16: if the stored session holds no password checksum, it holds none
    after [register], [login], [updatePremiumStatus] or [logout]. *)
Theorem current_user_has_no_password (a : app) :
  session_without_password a = true ->
  (forall nm em pw newId now,
      session_without_password
        (snd (AuthManager.register nm em pw newId now a)) = true)
  /\ (forall em pw,
        session_without_password (snd (AuthManager.login em pw a)) = true)
  /\ (forall p expiresAt,
        session_without_password
          (AuthManager.updatePremiumStatus p expiresAt a) = true)
  /\ session_without_password (AuthManager.logout a) = true.
Proof.
  intros Hinv. split; [|split; [|split]].
  - intros nm em pw newId now. unfold AuthManager.register.
    by destruct (AuthManager.findUserByEmail em a).
  - intros em pw. unfold AuthManager.login.
    destruct (AuthManager.findUserByEmail em a) as [v|]; [|done].
    destruct (password v) as [h|]; [|done].
    by destruct (AuthManager.verifyPassword pw h).
  - intros p expiresAt. unfold AuthManager.updatePremiumStatus.
    destruct (AuthManager.getCurrentUser a) as [cu|]; [|done].
    cbv zeta. by destruct (negb _).
  - done.
Qed.

Lemma current_user_has_no_password_witness :
  session_without_password
    (snd (AuthManager.login "al@b.c" "secret1"
            (snd (AuthManager.register "Al" "al@b.c" "secret1" "u1"
                    "2024-01-01" initial)))) = true.
Proof.
  refine (proj1 (proj2 (current_user_has_no_password
                          (snd (AuthManager.register "Al" "al@b.c" "secret1"
                                  "u1" "2024-01-01" initial)) _))
            "al@b.c" "secret1").
  reflexivity.
Defined.

(** ** Numbers: exact results *)

(** A value that 53 digits hold is rounded to itself. *)
Lemma binary_round_aux_representable (s : bool) (m : positive) (e : Z)
    (l : location) (N D : Z) (Q : positive) :
  0 < D -> locates N D (shr_record_of_loc (Zpos m) l) ->
  53 <= Zpos (digits2_pos m) ->
  -1021 <= Zpos (digits2_pos m) + e -> Zpos (digits2_pos m) + e < 1024 ->
  N = Zpos Q * (D * 2 ^ (Zpos (digits2_pos m) - 53)) ->
  binary_round_aux Number.prec Number.emax s (Zpos m) e l
  = S754_finite s Q (e + (Zpos (digits2_pos m) - 53)).
Proof.
  intros HD Hloc Hd Hlo Hhi HN.
  destruct (shr_fexp_shift m e l N D HD Hloc Hd Hlo)
    as (mrs & Hshr & Hloc' & Hm').
  set (n := Zpos (digits2_pos m) - 53) in *.
  assert (0 < 2 ^ n) as Hpow by (apply Z.pow_pos_nonneg; lia).
  assert (0 < D * 2 ^ n) as HD' by nia.
  destruct (round_nearest_even_close N (D * 2 ^ n) mrs HD' Hloc')
    as [Hmr Herr].
  unfold binary_round_aux. rewrite Hshr.
  set (mr := round_nearest_even (shr_m mrs) (loc_of_shr_record mrs)) in *.
  assert (mr = Zpos Q) as HmrQ.
  { clearbody mr. subst N. set (T := D * 2 ^ n) in *. clearbody T.
    clear -Herr HD'. nia. }
  assert (shr_m mrs = Zpos Q) as HmQ.
  { destruct Hloc' as [Hb _]. subst N. set (T := D * 2 ^ n) in *.
    clearbody T. clear -Hb HD'. nia. }
  rewrite HmrQ.
  assert (Hdq : Zpos (digits2_pos Q) = 53)
    by (apply digits2_pos_eq; simpl; lia).
  assert (digits2_pos Q = 53%positive) as Hdq' by lia.
  assert (shr_fexp Number.prec Number.emax (Zpos Q) (e + n) loc_Exact
          = ({| shr_m := Zpos Q; shr_r := false; shr_s := false |}, e + n))
    as Hs2.
  { unfold shr_fexp. simpl Zdigits2. rewrite Hdq', fexp_normal by lia.
    replace (53 + (e + n) - 53 - (e + n)) with 0 by lia. reflexivity. }
  rewrite Hs2. simpl shr_m.
  unfold Number.emax, Number.prec.
  destruct (Z.leb_spec (e + n) (1024 - 53)); [done|lia].
Qed.

(** The product of 1 and a number is that number. *)
Lemma mul_one_l (sy : bool) (my : positive) (ey : Z) :
  digits2_pos my = 53%positive -> -1022 <= ey <= 970 ->
  Number.mul (Number.of_Z 1) (S754_finite sy my ey) = S754_finite sy my ey.
Proof.
  intros Hy He. pose proof (mantissa_bounds my Hy) as By.
  change (Number.of_Z 1) with (S754_finite false 4503599627370496 (-52)).
  unfold Number.mul, SFmul. cbn [xorb].
  assert (Hd : Zpos (digits2_pos (4503599627370496 * my)) = 105).
  { apply digits2_pos_eq. rewrite Pos2Z.inj_mul.
    let c := eval vm_compute in (2 ^ (105 - 1)) in
    change (2 ^ (105 - 1)) with c.
    let c := eval vm_compute in (2 ^ 105) in change (2 ^ 105) with c.
    let c := eval vm_compute in (2 ^ 52) in change (2 ^ 52) with c in By.
    let c := eval vm_compute in (2 ^ 53) in change (2 ^ 53) with c in By.
    lia. }
  rewrite (binary_round_aux_representable sy _ _ loc_Exact
             (Zpos (4503599627370496 * my)) 1 my); rewrite ?Hd; try lia.
  - f_equal. lia.
  - unfold locates. simpl. split; [lia|]. split; split; try done; lia.
Qed.

(** A number divided by itself is 1. *)
Lemma div_self (mx : positive) (ex : Z) :
  digits2_pos mx = 53%positive ->
  Number.div (S754_finite false mx ex) (S754_finite false mx ex)
  = Number.of_Z 1.
Proof.
  intros Hx. pose proof (mantissa_bounds mx Hx) as Bx.
  unfold Number.div, SFdiv, SFdiv_core_binary. simpl Zdigits2.
  rewrite Hx.
  replace (53 + ex - (53 + ex)) with 0 by lia.
  rewrite fexp_normal by lia.
  replace (ex - ex) with 0 by lia.
  change (Z.min (0 - 53) 0) with (-53). change (0 - -53) with 53.
  rewrite Z.shiftl_mul_pow2 by lia.
  assert (Z.div_eucl (Zpos mx * 2 ^ 53) (Zpos mx) = (2 ^ 53, 0)) as ->.
  { pose proof (Z_div_mod (Zpos mx * 2 ^ 53) (Zpos mx) ltac:(lia)) as Hdm.
    destruct (Z.div_eucl (Zpos mx * 2 ^ 53) (Zpos mx)) as [q r].
    destruct Hdm as [HN Hr].
    assert (r = 0).
    { assert (Zpos mx * (2 ^ 53 - q) = r) as Hrq by lia.
      destruct (Z.eq_dec (2 ^ 53 - q) 0) as [Hz|Hz]; [rewrite Hz in Hrq; lia|].
      exfalso. clear HN. nia. }
    subst r. f_equal. nia. }
  change (2 ^ 53) with (Zpos 9007199254740992).
  cbn [xorb].
  rewrite (binary_round_aux_representable false 9007199254740992 (-53)
             (new_location (Zpos mx) 0) (Zpos mx * 2 ^ 53) (Zpos mx)
             4503599627370496);
    change (Zpos (digits2_pos 9007199254740992)) with 54; try lia.
  - reflexivity.
  - apply new_location_locates; [lia|lia|].
    change (Zpos 9007199254740992) with (2 ^ 53). lia.
Qed.

Lemma floor_of_Z (p : positive) :
  Zpos p < 2 ^ 53 -> Number.floor (Number.of_Z (Zpos p)) = Number.of_Z (Zpos p).
Proof.
  intros Hp. destruct (of_Z_pos p Hp) as (m & e & Heq & Hd & He & Hm).
  rewrite Heq. cbn [Number.floor].
  destruct (Z.leb_spec 0 e) as [|Hneg]; [done|].
  destruct (truncZ_of_scaled m p e ltac:(lia) Hm) as [_ ->].
  cbn [Z.eqb]. by rewrite <- Heq.
Qed.

(** The progress of the last offset is 100. *)
Lemma linear_progress_full (L : Z) :
  0 < L < 2 ^ 53 -> linear_progress L L = Number.of_Z 100.
Proof.
  intros HL. unfold linear_progress. destruct L as [|p|p]; try lia.
  destruct (of_Z_pos p ltac:(lia)) as (m & e & -> & Hd & _).
  rewrite (div_self m e Hd), of_Z_100. by apply mul_one_l.
Qed.

(** The offset of the progress 100 is the last one. *)
Lemma position_of_full_progress (L : Z) :
  0 < L < 2 ^ 53 ->
  Number.floor
    (Number.mul (Number.div (Number.of_Z 100) (Number.of_Z 100))
                (Number.of_Z L))
  = Number.of_Z L.
Proof.
  intros HL. destruct L as [|p|p]; try lia.
  assert (Number.div (Number.of_Z 100) (Number.of_Z 100) = Number.of_Z 1)
    as -> by (rewrite of_Z_100; by apply div_self).
  destruct (of_Z_pos p ltac:(lia)) as (m & e & Heq & Hd & He & _).
  rewrite Heq, mul_one_l by (done || lia). rewrite <- Heq.
  apply floor_of_Z. lia.
Qed.

(** Strict comparison of two positive normal numbers. *)
Lemma ltb_normal (mx my : positive) (ex ey : Z) :
  ex < ey \/ (ex = ey /\ Zpos mx < Zpos my) ->
  Number.ltb (S754_finite false mx ex) (S754_finite false my ey) = true.
Proof.
  intros H. unfold Number.ltb, SFltb. simpl.
  destruct (Z.compare_spec ex ey) as [Heq|Hlt|Hgt]; [|done|lia].
  destruct H as [?|[_ Hm]]; [lia|].
  rewrite Pos.compare_cont_spec. simpl.
  destruct (Pos.compare_spec mx my); try done; lia.
Qed.

Lemma of_Z_lt (p L : Z) :
  0 <= p < L -> L < 2 ^ 53 ->
  Number.ltb (Number.of_Z p) (Number.of_Z L) = true.
Proof.
  intros Hp HL.
  destruct L as [|L|L]; [lia| |lia].
  destruct (of_Z_pos L HL) as (mL & eL & EL & HdL & HeL & HmL).
  destruct p as [|p|p]; [by rewrite EL| |lia].
  destruct (of_Z_pos p ltac:(lia)) as (mp & ep & Ep & Hdp & Hep & Hmp).
  rewrite EL, Ep. apply ltb_normal.
  pose proof (mantissa_bounds mp Hdp) as Bp.
  pose proof (mantissa_bounds mL HdL) as BL.
  change (2 ^ 53) with 9007199254740992 in *.
  change (2 ^ 52) with 4503599627370496 in *.
  assert (0 < 2 ^ (- ep)) as Pp by (apply Z.pow_pos_nonneg; lia).
  destruct (Z.lt_trichotomy ep eL) as [?|[Heq|Hgt]]; [by left| |exfalso].
  - right. split; [done|]. rewrite Hmp, HmL, Heq.
    apply Z.mul_lt_mono_pos_r; [|lia]. rewrite <- Heq. done.
  - replace (- eL) with (- ep + (ep - eL)) in HmL by lia.
    rewrite Z.pow_add_r in HmL by lia.
    assert (2 <= 2 ^ (ep - eL)) by (apply (Z.pow_le_mono_r 2 1); lia).
    assert (Zpos mp * 2 <= Zpos mL); [|lia].
    rewrite HmL, Hmp.
    apply Z.le_trans with (Zpos p * 2 ^ (- ep) * 2 ^ (ep - eL)).
    + apply Z.mul_le_mono_nonneg_l; lia.
    + rewrite <- !Z.mul_assoc. apply Z.mul_le_mono_nonneg_r; [|lia].
      apply Z.mul_nonneg_nonneg; lia.
Qed.

(** A position beyond the loaded text is clamped to its end. *)
Lemma setPosition_beyond (p T : Z) (a : app) :
  textLength (tts a) = Number.of_Z T -> 0 < T < p -> p < 2 ^ 53 ->
  currentPosition (tts (TTSManager.setPosition (Number.of_Z p) a))
  = Number.of_Z T
  /\ reported_progress (TTSManager.setPosition (Number.of_Z p) a)
     = Some (linear_progress T T).
Proof.
  intros HT Hp Hr.
  assert (Hcp : currentPosition (tts (TTSManager.setPosition (Number.of_Z p) a))
                = Number.of_Z T).
  { cbn. rewrite HT.
    pose proof (of_Z_lt T p ltac:(lia) Hr) as Hlt.
    destruct T as [|T|T]; [lia| |lia].
    destruct (of_Z_pos T ltac:(lia)) as (mT & eT & ET & _).
    rewrite ET in *.
    destruct p as [|p|p]; [lia| |lia].
    destruct (of_Z_pos p ltac:(lia)) as (mp & ep & Ep & _).
    rewrite Ep in *.
    unfold Number.min, Number.max. cbn [Number.isNaN orb Number.is_neg_zero
      Number.is_pos_zero andb].
    by rewrite Hlt. }
  split; [exact Hcp|].
  unfold reported_progress, linear_progress.
  change (ui (TTSManager.setPosition (Number.of_Z p) a))
    with (TextDisplay (currentPosition (tts (TTSManager.setPosition (Number.of_Z p) a)))
          :: TimeDisplay (currentPosition (tts (TTSManager.setPosition (Number.of_Z p) a)))
                         (textLength (tts a))
          :: ProgressBar
               (Number.mul
                  (Number.div
                     (currentPosition (tts (TTSManager.setPosition (Number.of_Z p) a)))
                     (textLength (tts a)))
                  (Number.of_Z 100))
          :: ui a).
  cbn [last_progress]. by rewrite Hcp, HT.
Qed.

(** X17: the mapping between offsets and percentages is exact at both
    ends of a non-empty extracted text of length L: offset 0 has progress
    0 and offset L has progress exactly 100; progress 0 gives offset 0
    and progress 100 gives offset L.  Whatever length T, positive and
    below 2^53, the speech manager holds for the loaded text (after an
    upload it is the length of the cleaned text, not L): [setPosition(T)]
    reports 100 to the progress bar, and the progress-bar handler at 100
    puts the position at the smaller of L and T, and reports 100 when T
    is at most L. *)
Theorem progress_is_exact_at_both_ends (a : app) :
  let L := Z.of_nat (String.length (extractedText (pdf a))) in
  0 < L < 2 ^ 53 ->
  PDFHandler.getProgressAtPosition (Number.of_Z 0) (pdf a) = Number.of_Z 0
  /\ PDFHandler.getProgressAtPosition (Number.of_Z L) (pdf a)
     = Number.of_Z 100
  /\ PDFHandler.getPositionAtProgress (Number.of_Z 0) (pdf a) = Number.of_Z 0
  /\ PDFHandler.getPositionAtProgress (Number.of_Z 100) (pdf a)
     = Number.of_Z L
  /\ (forall T, 0 < T < 2 ^ 53 -> textLength (tts a) = Number.of_Z T ->
      reported_progress (TTSManager.setPosition (Number.of_Z T) a)
      = Some (Number.of_Z 100)
      /\ currentPosition (tts (App.onProgressInput (Number.of_Z 100) a))
         = Number.of_Z (Z.min L T)
      /\ (T <= L ->
          reported_progress (App.onProgressInput (Number.of_Z 100) a)
          = Some (Number.of_Z 100))).
Proof.
  cbv zeta. intros HL.
  unfold PDFHandler.getProgressAtPosition, PDFHandler.getPositionAtProgress,
    length_number.
  destruct (Nat.eqb_spec (String.length (extractedText (pdf a))) 0) as [H0|_];
    [lia|].
  set (L := Z.of_nat (String.length (extractedText (pdf a)))) in *.
  split; [|split; [|split; [|split]]].
  - destruct L as [|p|p]; try lia.
    by destruct (of_Z_pos p ltac:(lia)) as (m & e & -> & _).
  - by apply linear_progress_full.
  - destruct L as [|p|p]; try lia.
    by destruct (of_Z_pos p ltac:(lia)) as (m & e & -> & _).
  - by apply position_of_full_progress.
  - intros T HT Hlen. split; [|].
    + destruct (setPosition_linear T T a Hlen ltac:(lia) HT) as [_ ->].
      by rewrite linear_progress_full.
    + unfold App.onProgressInput, PDFHandler.getPositionAtProgress,
        length_number. cbv zeta. fold L.
      rewrite position_of_full_progress by done.
      destruct (Z.le_gt_cases L T) as [Hle|Hgt].
      * destruct (setPosition_linear L T a Hlen ltac:(lia) HT) as [-> ->].
        rewrite Z.min_l by done. split; [done|].
        intros HTL. assert (T = L) as -> by lia.
        by rewrite linear_progress_full.
      * destruct (setPosition_beyond L T a Hlen ltac:(lia) ltac:(lia))
          as [-> ->].
        rewrite Z.min_r by lia. split; [done|]. intros _.
        by rewrite linear_progress_full.
Qed.

Lemma progress_is_exact_at_both_ends_witness :
  let a := processFiles [Samples.one_upload] initial in
  (String.length (extractedText (pdf a)) = 5%nat
   /\ textLength (tts a) = Number.of_Z 3)
  /\ PDFHandler.getProgressAtPosition (Number.of_Z 5) (pdf a) = Number.of_Z 100
  /\ PDFHandler.getPositionAtProgress (Number.of_Z 100) (pdf a) = Number.of_Z 5
  /\ currentPosition (tts (App.onProgressInput (Number.of_Z 100) a))
     = Number.of_Z 3
  /\ reported_progress (App.onProgressInput (Number.of_Z 100) a)
     = Some (Number.of_Z 100).
Proof.
  cbv zeta. split; [split; reflexivity|].
  destruct (progress_is_exact_at_both_ends
              (processFiles [Samples.one_upload] initial))
    as (_ & Hfull & _ & Hback & Hbar).
  { vm_compute. split; reflexivity. }
  destruct (Hbar 3 ltac:(lia) eq_refl) as (_ & Hpos & Hrep).
  split; [exact Hfull|]. split; [exact Hback|]. split; [exact Hpos|].
  apply Hrep. vm_compute. discriminate.
Defined.

(** The integer held by a mantissa of 53 digits. *)
Lemma scaled_integer_bounds (m p : positive) (d : Z) :
  0 <= d <= 52 -> 2 ^ 52 <= Zpos m < 2 ^ 53 -> Zpos m = Zpos p * 2 ^ d ->
  2 ^ (52 - d) <= Zpos p < 2 ^ (53 - d).
Proof.
  intros Hd Bm Hm.
  assert (0 < 2 ^ d) as Hpd by (apply Z.pow_pos_nonneg; lia).
  assert (2 ^ 52 = 2 ^ (52 - d) * 2 ^ d) as H52
    by (rewrite <- Z.pow_add_r by lia; f_equal; lia).
  assert (2 ^ 53 = 2 ^ (53 - d) * 2 ^ d) as H53
    by (rewrite <- Z.pow_add_r by lia; f_equal; lia).
  rewrite H52, H53, Hm in Bm. destruct Bm as [Blo Bhi].
  apply Z.mul_le_mono_pos_r in Blo; [|done].
  apply Z.mul_lt_mono_pos_r in Bhi; [|done]. done.
Qed.

(** An integer given with a scale is normalised to the number of the
    integer. *)
Lemma normalize_scaled (p q : positive) (j : Z) :
  Zpos p < 2 ^ 53 -> 0 <= j <= 52 -> Zpos q = Zpos p * 2 ^ j ->
  binary_normalize Number.prec Number.emax (Zpos q) (- j) false
  = Number.of_Z (Zpos p).
Proof.
  intros Hp Hj Hq.
  destruct (of_Z_pos p Hp) as (m & e & -> & Hd & He & Hm).
  pose proof (mantissa_bounds m Hd) as Bm.
  assert (exists d, e = - d /\ 0 <= d <= 52) as (d & -> & Hd')
    by (exists (- e); lia).
  clear He. replace (- - d) with d in Hm by lia.
  destruct (scaled_integer_bounds m p d Hd' Bm Hm) as [Plo Phi].
  assert (0 < 2 ^ j) as Hpj by (apply Z.pow_pos_nonneg; lia).
  assert (Zpos (digits2_pos q) = 53 - d + j) as Hdq.
  { apply digits2_pos_eq. rewrite Hq.
    replace (53 - d + j - 1) with (52 - d + j) by lia.
    rewrite !Z.pow_add_r by lia. split.
    - by apply Z.mul_le_mono_pos_r.
    - by apply Z.mul_lt_mono_pos_r. }
  unfold binary_normalize, binary_round.
  rewrite Hdq, fexp_normal by lia. unfold shl_align.
  destruct (53 - d + j + - j - 53 - - j) as [|k|k] eqn:Hk.
  - assert (j = d) as -> by lia.
    assert (q = m) as -> by lia.
    apply binary_round_aux_exact; [done|lia].
  - rewrite (binary_round_aux_representable false q (- j) loc_Exact
               (Zpos q) 1 m); rewrite ?Hdq; try lia.
    + f_equal. lia.
    + unfold locates. simpl. split; [lia|]. split; split; try done; lia.
    + rewrite Hm, Hq, Z.mul_1_l, <- Z.mul_assoc, <- Z.pow_add_r by lia.
      f_equal. f_equal. lia.
  - assert (Pos.iter xO q k = m) as ->.
    { apply Pos2Z.inj. rewrite Zpos_iter_xO, Hm, Hq.
      rewrite <- Z.mul_assoc, <- Z.pow_add_r by lia. f_equal. f_equal. lia. }
    replace (53 - d + j + - j - 53) with (- d) by lia.
    apply binary_round_aux_exact; [done|lia].
Qed.

(** The sum of two positive integers is exact while it stays below
    2^53. *)
Lemma add_exact (a b : positive) :
  Zpos a + Zpos b < 2 ^ 53 ->
  Number.add (Number.of_Z (Zpos a)) (Number.of_Z (Zpos b))
  = Number.of_Z (Zpos a + Zpos b).
Proof.
  intros Hsum.
  destruct (of_Z_pos a ltac:(lia)) as (ma & ea & -> & _ & Hea & Hma).
  destruct (of_Z_pos b ltac:(lia)) as (mb & eb & -> & _ & Heb & Hmb).
  unfold Number.add, SFadd. cbv zeta. cbn [cond_Zopp].
  rewrite !shl_align_value by lia.
  set (ez := Z.min ea eb).
  assert (-52 <= ez <= 0) as Hez by lia.
  assert (Zpos ma * 2 ^ (ea - ez) = Zpos a * 2 ^ (- ez)) as ->.
  { rewrite Hma, <- Z.mul_assoc, <- Z.pow_add_r by lia. f_equal. f_equal. lia. }
  assert (Zpos mb * 2 ^ (eb - ez) = Zpos b * 2 ^ (- ez)) as ->.
  { rewrite Hmb, <- Z.mul_assoc, <- Z.pow_add_r by lia. f_equal. f_equal. lia. }
  rewrite <- Z.mul_add_distr_r.
  assert (0 < 2 ^ (- ez)) as Hp by (apply Z.pow_pos_nonneg; lia).
  destruct ((Zpos a + Zpos b) * 2 ^ (- ez)) as [|q|q] eqn:Hq; try lia.
  replace ez with (- (- ez)) at 1 by lia.
  change (Zpos a + Zpos b) with (Zpos (a + b)) in *.
  apply normalize_scaled; [done|lia|done].
Qed.

(** The offset that [slice] makes of an integer. *)
Lemma relative_index_of_Z (len k : Z) :
  0 <= k < 2 ^ 53 -> 0 <= len ->
  JSString.relative_index len (Number.of_Z k) = Z.min k len.
Proof.
  intros Hk Hlen. destruct k as [|p|p]; [simpl; lia| |lia].
  destruct (of_Z_pos p ltac:(lia)) as (m & e & -> & _ & He & Hm).
  cbn [JSString.relative_index].
  destruct (truncZ_of_scaled m p e ltac:(lia) Hm) as [-> _].
  destruct (Z.ltb_spec (Zpos p) 0); [lia|done].
Qed.

(** The text a bookmark keeps: the 100 characters after the position,
    fewer at the end of the text. *)
Lemma slice_range_snippet (t : string) (k : nat) :
  (k <= String.length t)%nat ->
  Z.of_nat (String.length t) + 100 < 2 ^ 53 ->
  JSString.slice_range t (Number.of_Z (Z.of_nat k))
    (Number.add (Number.of_Z (Z.of_nat k)) (Number.of_Z 100))
  = JSString.keep 100 (JSString.drop k t).
Proof.
  intros Hk Hlen.
  assert (Number.add (Number.of_Z (Z.of_nat k)) (Number.of_Z 100)
          = Number.of_Z (Z.of_nat k + 100)) as ->.
  { destruct (Z.of_nat k) as [|p|p] eqn:Hp; [done| |lia].
    apply add_exact. lia. }
  unfold JSString.slice_range. cbv zeta.
  rewrite !relative_index_of_Z by lia.
  rewrite (Z.min_l (Z.of_nat k)) by lia. rewrite Nat2Z.id.
  set (len := String.length t) in *.
  destruct (Z.le_gt_cases (Z.of_nat k + 100) (Z.of_nat len)) as [Hin|Hout].
  - rewrite Z.min_l by lia. f_equal. lia.
  - rewrite Z.min_r by lia.
    replace (Z.to_nat (Z.of_nat len - Z.of_nat k)) with (len - k)%nat by lia.
    assert (String.length (JSString.drop k t) = (len - k)%nat) as Hdrop.
    { subst len. clear. revert t. induction k as [|k IH]; intros t.
      - simpl. lia.
      - destruct t as [|c t]; [done|]. simpl. apply IH. }
    assert (forall n s, (String.length s <= n)%nat -> JSString.keep n s = s)
      as Hkeep.
    { clear. induction n as [|n IH]; intros [|c s] Hs; simpl in *;
        try done; [lia|]. f_equal. apply IH. lia. }
    rewrite !Hkeep by lia. done.
Qed.

(** ** Playback controls *)

(** X18: while the speech is playing, two presses of the play button
    pause and resume it: the collaborator receives [pause] and [resume]
    and no new utterance, and the position is kept. *)
Theorem togglePlayPause_twice_resumes (a : app) :
  supported (speech a) = true ->
  isPlaying (tts a) = true ->
  let paused_app := TTSManager.togglePlayPause a in
  let resumed := TTSManager.togglePlayPause paused_app in
  calls (speech paused_app) = Pause :: calls (speech a)
  /\ isPlaying (tts paused_app) = false
  /\ calls (speech resumed) = Resume :: Pause :: calls (speech a)
  /\ isPlaying (tts resumed) = true
  /\ currentPosition (tts resumed) = currentPosition (tts a)
  /\ textLength (tts resumed) = textLength (tts a).
Proof.
  intros Hsup Hplay. cbv zeta.
  unfold TTSManager.togglePlayPause at 2 4 6 8 10.
  unfold TTSManager.togglePlayPause, TTSManager.isSupported.
  rewrite Hsup, Hplay. cbn [negb].
  unfold TTSManager.pause, TTSManager.isSupported. rewrite Hsup.
  cbn. unfold TTSManager.resume, TTSManager.isSupported. cbn.
  rewrite Hsup. cbn. done.
Qed.

Lemma togglePlayPause_twice_resumes_witness :
  let a := TTSManager.onstart (Samples.playing_text "hello world" 6) in
  let paused_app := TTSManager.togglePlayPause a in
  let resumed := TTSManager.togglePlayPause paused_app in
  calls (speech paused_app) = Pause :: calls (speech a)
  /\ isPlaying (tts paused_app) = false
  /\ calls (speech resumed) = Resume :: Pause :: calls (speech a)
  /\ isPlaying (tts resumed) = true
  /\ currentPosition (tts resumed) = currentPosition (tts a)
  /\ textLength (tts resumed) = textLength (tts a).
Proof.
  apply (togglePlayPause_twice_resumes
           (TTSManager.onstart (Samples.playing_text "hello world" 6)));
    reflexivity.
Defined.

(** X19: a change of the playback rate while the speech is playing
    restarts it from the beginning of the text: [stop] resets the
    position to 0 before the remaining text is taken, so the whole
    extracted text is spoken again at the new rate. *)
Theorem setPlaybackRate_restarts_from_the_beginning (rate : number) (a : app) :
  supported (speech a) = true ->
  isPlaying (tts a) = true ->
  extractedText (pdf a) ≠ EmptyString ->
  let a' := TTSManager.setPlaybackRate rate a in
  calls (speech a')
  = Speak (extractedText (pdf a)) rate :: Cancel :: Cancel :: calls (speech a)
  /\ currentPosition (tts a') = Number.of_Z 0
  /\ playbackRate (tts a') = rate
  /\ reported_progress a' = Some (Number.of_Z 0).
Proof.
  intros Hsup Hplay Htext. cbv zeta.
  unfold TTSManager.setPlaybackRate. cbn.
  rewrite Hplay. destruct (extractedText (pdf a)) as [|c t] eqn:Ht; [done|].
  cbn. unfold TTSManager.stop, TTSManager.isSupported. cbn. rewrite Hsup.
  cbn. unfold TTSManager.speak, TTSManager.isSupported. cbn. rewrite Hsup.
  cbn. rewrite Ht. done.
Qed.

Lemma setPlaybackRate_restarts_from_the_beginning_witness :
  let a := TTSManager.onstart (Samples.playing_text "hello world" 6) in
  let a' := TTSManager.setPlaybackRate (Number.of_Z 2) a in
  calls (speech a')
  = Speak (extractedText (pdf a)) (Number.of_Z 2) :: Cancel :: Cancel
      :: calls (speech a)
  /\ currentPosition (tts a') = Number.of_Z 0
  /\ playbackRate (tts a') = Number.of_Z 2
  /\ reported_progress a' = Some (Number.of_Z 0).
Proof.
  apply (setPlaybackRate_restarts_from_the_beginning (Number.of_Z 2)
           (TTSManager.onstart (Samples.playing_text "hello world" 6)));
    [reflexivity|reflexivity|discriminate].
Defined.

(** X20: in a browser without speech synthesis no operation of the
    manager calls the collaborator or changes the playing flag: [speak],
    [pause], [resume], [stop], [togglePlayPause] and [setPlaybackRate]
    leave both as they are. *)
Theorem unsupported_browser_never_speaks (a : app) :
  supported (speech a) = false ->
  let quiet a' :=
    speech a' = speech a /\ isPlaying (tts a') = isPlaying (tts a)
    /\ currentPosition (tts a') = currentPosition (tts a) in
  (forall t, quiet (TTSManager.speak t a))
  /\ quiet (TTSManager.pause a)
  /\ quiet (TTSManager.resume a)
  /\ quiet (TTSManager.stop a)
  /\ quiet (TTSManager.togglePlayPause a)
  /\ (forall rate, quiet (TTSManager.setPlaybackRate rate a)).
Proof.
  intros Hsup. cbv zeta.
  assert (forall t, speech (TTSManager.speak t a) = speech a
                    /\ isPlaying (tts (TTSManager.speak t a)) = isPlaying (tts a)
                    /\ currentPosition (tts (TTSManager.speak t a))
                       = currentPosition (tts a)) as Hspeak.
  { intros t. unfold TTSManager.speak, TTSManager.isSupported.
    by rewrite Hsup. }
  split; [done|].
  unfold TTSManager.pause, TTSManager.resume, TTSManager.stop,
    TTSManager.togglePlayPause, TTSManager.isSupported.
  rewrite Hsup. cbn [negb]. repeat split.
  all: unfold TTSManager.setPlaybackRate; cbn.
  all: destruct (isPlaying (tts a) && _); [|done].
  all: unfold TTSManager.stop, TTSManager.isSupported; cbn; rewrite Hsup.
  all: unfold TTSManager.speak, TTSManager.isSupported; cbn; by rewrite Hsup.
Qed.

Lemma unsupported_browser_never_speaks_witness :
  let a := set_speech {| supported := false; paused := false; calls := [] |}
             (Samples.playing_text "hello world" 6) in
  speech (TTSManager.togglePlayPause a) = speech a
  /\ isPlaying (tts (TTSManager.togglePlayPause a)) = isPlaying (tts a)
  /\ currentPosition (tts (TTSManager.togglePlayPause a))
     = currentPosition (tts a).
Proof.
  exact (proj1 (proj2 (proj2 (proj2 (proj2
           (unsupported_browser_never_speaks
              (set_speech {| supported := false; paused := false; calls := [] |}
                 (Samples.playing_text "hello world" 6))
              eq_refl)))))).
Defined.

(** ** The bookmark button *)

(** [addBookmark] on the id of the first library item. *)
Lemma addBookmark_first_refused (bookmark : gmap string value)
    (newId now : string) (a : app) (first : file_data)
    (others : list file_data) :
  premium (store a) = false ->
  library (store a) = first :: others ->
  (3 <= length (bookmarks first))%nat ->
  LibraryManager.addBookmark (id first) bookmark newId now a
  = (false,
     emit (ShowToast "Free tier limited to 3 bookmarks. Upgrade for unlimited!"
                     "warning") a).
Proof.
  intros Hprem Hlib Hfull.
  unfold LibraryManager.addBookmark, LibraryManager.getLibrary,
    PremiumManager.isPremium.
  rewrite Hlib, Hprem. cbn [List.find].
  rewrite (proj2 (has_id_true (id first) first) eq_refl).
  by rewrite (proj2 (Nat.leb_le _ _) Hfull).
Qed.

Lemma addBookmark_first_allowed (bookmark : gmap string value)
    (newId now : string) (a : app) (first : file_data)
    (others : list file_data) :
  library (store a) = first :: others ->
  premium (store a) = true \/ (length (bookmarks first) < 3)%nat ->
  library (store (snd (LibraryManager.addBookmark (id first) bookmark newId
                         now a)))
  = LibraryManager.set_bookmarks
      (bookmarks first ++ [LibraryManager.stamp newId now bookmark]) first
    :: others.
Proof.
  intros Hlib Hroom.
  unfold LibraryManager.addBookmark, LibraryManager.getLibrary,
    PremiumManager.isPremium.
  rewrite Hlib. cbn [List.find].
  rewrite (proj2 (has_id_true (id first) first) eq_refl).
  assert (negb (premium (store a)) && (3 <=? length (bookmarks first))%nat
          = false) as ->.
  { destruct Hroom as [->|Hlt]; [done|].
    rewrite (proj2 (Nat.leb_gt _ _)) by lia. apply andb_false_r. }
  cbn. by rewrite (proj2 (has_id_true (id first) first) eq_refl).
Qed.

(** The characters that [slice] keeps are those of [substring]. *)
Lemma keep_drop_substring (n k : nat) (t : string) :
  JSString.keep n (JSString.drop k t) = String.substring k n t.
Proof.
  revert t. induction k as [|k IH]; intros t.
  - cbn [JSString.drop]. revert t. induction n as [|n IHn]; intros [|c t]; simpl; try done.
    by rewrite IHn.
  - destruct t as [|c t]; simpl; [by destruct n|]. apply IH.
Qed.

(** The object that [addBookmark] stores for the bookmark of the
    bookmark button. *)
Lemma stamp_position_text (newId now : string) (position : number)
    (snippet : string) :
  LibraryManager.stamp newId now
    {[ "position"%string := VNumber position;
       "text"%string := VString snippet ]}
  = {[ "id"%string := VString newId;
       "position"%string := VNumber position;
       "text"%string := VString snippet;
       "createdAt"%string := VString now ]}.
Proof.
  apply map_eq. intros key. unfold LibraryManager.stamp.
  destruct (decide (key = "createdAt"%string)) as [->|Hc]; [done|].
  destruct (decide (key = "id"%string)) as [->|Hi]; [done|].
  destruct (decide (key = "position"%string)) as [->|Hp]; [done|].
  destruct (decide (key = "text"%string)) as [->|Ht]; [done|].
  rewrite lookup_insert_ne by done.
  rewrite lookup_union_r.
  - rewrite lookup_singleton_ne by done.
    rewrite !lookup_insert_ne by done. by rewrite lookup_singleton_ne.
  - rewrite lookup_insert_ne by done. by rewrite lookup_singleton_ne.
Qed.

(** X21: the bookmark button bookmarks the first item of the library,
    whatever text is loaded in the player.  Without a session, or with an
    empty library, the store is unchanged.  For a logged-in user, when
    [addBookmark] refuses because the first item of a free account has 3
    bookmarks, the store is unchanged and the toast 'Bookmark added!' is
    still shown, after the warning of [addBookmark]; when there is room,
    the position is at offset [k] of the extracted text and the local
    storage accepts the write, the first item keeps its other fields and its bookmarks and gets one more
    bookmark, the object whose properties are exactly the fresh [id],
    the [position] k, as [text] the 100 characters of the extracted text
    from offset k (fewer at the end of the text) and the date as
    [createdAt]; the other items are unchanged and the toast is shown. *)
Theorem onBookmarkClick_bookmarks_first_item (newId now : string) (a : app) :
  let a' := App.onBookmarkClick newId now a in
  (AuthManager.isLoggedIn a = false -> store a' = store a)
  /\ (library (store a) = [] -> store a' = store a)
  /\ (forall first others,
        AuthManager.isLoggedIn a = true ->
        library (store a) = first :: others ->
        id first ≠ EmptyString ->
        (premium (store a) = false ->
         (3 <= length (bookmarks first))%nat ->
         store a' = store a
         /\ ui a'
            = ShowToast "Bookmark added!" "success"
              :: ShowToast
                   "Free tier limited to 3 bookmarks. Upgrade for unlimited!"
                   "warning"
              :: ui a)
        /\ (forall k : nat,
              premium (store a) = true \/ (length (bookmarks first) < 3)%nat ->
              currentPosition (tts a) = Number.of_Z (Z.of_nat k) ->
              (k <= String.length (extractedText (pdf a)))%nat ->
              Z.of_nat (String.length (extractedText (pdf a))) + 100 < 2 ^ 53 ->
              exists first',
                library (store a') = first' :: others
                /\ bookmarks first'
                   = bookmarks first
                     ++ [ {[ "id"%string := VString newId;
                             "position"%string
                               := VNumber (Number.of_Z (Z.of_nat k));
                             "text"%string
                               := VString
                                    (String.substring k 100
                                       (extractedText (pdf a)));
                             "createdAt"%string := VString now ]} ]
                /\ id first' = id first /\ name first' = name first
                /\ size first' = size first /\ type first' = type first
                /\ text first' = text first /\ addedAt first' = addedAt first
                /\ lastPlayed first' = lastPlayed first
                /\ progress first' = progress first
                /\ ui a' = ShowToast "Bookmark added!" "success" :: ui a)).
Proof.
  cbv zeta. unfold App.onBookmarkClick, LibraryManager.getLibrary.
  split; [by intros ->|]. split.
  { intros ->. by destruct (negb _). }
  intros first others Hlog Hlib Hid.
  rewrite Hlog, Hlib. cbn [negb].
  destruct (JSString.is_empty (id first)) eqn:Hempty;
    [by destruct (id first)|]. cbn [negb]. split.
  - intros Hprem Hfull.
    by rewrite (addBookmark_first_refused _ newId now a first others).
  - intros k Hroom Hpos Hk Hlen.
    eexists. split.
    { unfold emit at 1. cbn [store].
      rewrite (addBookmark_first_allowed _ newId now a first others) by done.
      reflexivity. }
    cbn [bookmarks LibraryManager.set_bookmarks id name size type text
         addedAt lastPlayed progress].
    split.
    { by rewrite Hpos, slice_range_snippet, keep_drop_substring,
        stamp_position_text. }
    do 8 (split; [reflexivity|]).
    unfold LibraryManager.addBookmark, LibraryManager.getLibrary,
      PremiumManager.isPremium.
    rewrite Hlib. cbn [List.find].
    rewrite (proj2 (has_id_true (id first) first) eq_refl).
    assert (negb (premium (store a)) && (3 <=? length (bookmarks first))%nat
            = false) as ->.
    { destruct Hroom as [->|Hlt]; [done|].
      rewrite (proj2 (Nat.leb_gt _ _)) by lia. apply andb_false_r. }
    reflexivity.
Qed.

Lemma onBookmarkClick_bookmarks_first_item_witness :
  let full :=
    Samples.marked "f1" [Samples.stored_bookmark "b1" 1 "one";
                         Samples.stored_bookmark "b2" 2 "two";
                         Samples.stored_bookmark "b3" 3 "three"] in
  let logged_in l :=
    snd (AuthManager.register "Al" "al@b.c" "secret1" "u1" "2024-01-01"
           (set_store (store (Samples.with_library l false))
                      (Samples.playing_text "Hello world." 6))) in
  let added :=
    App.onBookmarkClick "b4" "2024-01-02"
      (logged_in [Samples.item "f1"; Samples.item "f2"]) in
  let refused := App.onBookmarkClick "b4" "2024-01-02" (logged_in [full]) in
  (exists first',
     library (store added) = [first'; Samples.item "f2"]
     /\ bookmarks first'
        = [ {[ "id"%string := VString "b4";
               "position"%string := VNumber (Number.of_Z 6);
               "text"%string := VString "world.";
               "createdAt"%string := VString "2024-01-02" ]} ]
     /\ id first' = "f1"%string /\ text first' = "text"%string)
  /\ library (store refused) = [full].
Proof.
  cbv zeta. split.
  - destruct (proj2 (proj2
               (onBookmarkClick_bookmarks_first_item "b4" "2024-01-02"
                  (snd (AuthManager.register "Al" "al@b.c" "secret1" "u1"
                          "2024-01-01"
                          (set_store
                             (store (Samples.with_library
                                       [Samples.item "f1"; Samples.item "f2"]
                                       false))
                             (Samples.playing_text "Hello world." 6))))))
               (Samples.item "f1") [Samples.item "f2"] eq_refl eq_refl)
      as (_ & Hadd).
    { discriminate. }
    destruct (Hadd 6%nat) as (first' & Hlib & Hbm & Hid & _ & _ & _ & Htext & _).
    { right. simpl. lia. }
    { reflexivity. }
    { simpl. lia. }
    { vm_compute. reflexivity. }
    exists first'. split; [exact Hlib|]. split; [exact Hbm|].
    split; [exact Hid|exact Htext].
  - destruct (proj2 (proj2
               (onBookmarkClick_bookmarks_first_item "b4" "2024-01-02"
                  (snd (AuthManager.register "Al" "al@b.c" "secret1" "u1"
                          "2024-01-01"
                          (set_store
                             (store (Samples.with_library
                                       [Samples.marked "f1"
                                          [Samples.stored_bookmark "b1" 1 "one";
                                           Samples.stored_bookmark "b2" 2 "two";
                                           Samples.stored_bookmark "b3" 3 "three"]]
                                       false))
                             (Samples.playing_text "Hello world." 6))))))
               _ [] eq_refl eq_refl)
      as (Hfull & _).
    { discriminate. }
    destruct Hfull as (Hstore & _); [reflexivity | simpl; lia |].
    by rewrite Hstore.
Defined.

(** ** Uploads *)

Lemma length_append (s t : string) :
  String.length (s +:+ t) = (String.length s + String.length t)%nat.
Proof.
  induction s as [|c s IH]; [done|]. rewrite append_cons. simpl. lia.
Qed.

Lemma collapse_spaces_length (b : bool) (s : string) :
  (String.length (JSString.collapse_spaces_from b s) <= String.length s)%nat.
Proof.
  revert b. induction s as [|c s IH]; intros b; [done|]. simpl.
  destruct (JSString.is_space c).
  - destruct b; simpl; [specialize (IH true) | specialize (IH true)]; lia.
  - simpl. specialize (IH false). lia.
Qed.

(** A trailing blank line collapses to at most one space. *)
Lemma collapse_spaces_blank_line (b : bool) (s : string) :
  (String.length (JSString.collapse_spaces_from b (s +:+ PDFHandler.blank_line))
   <= String.length s + 1)%nat.
Proof.
  revert b. induction s as [|c s IH]; intros b.
  - destruct b; simpl; lia.
  - rewrite append_cons. simpl. destruct (JSString.is_space c).
    + destruct b; simpl; specialize (IH true); lia.
    + simpl. specialize (IH false). lia.
Qed.

Lemma strip_delimited_length (open close : ascii) (pending : option string)
    (s : string) :
  (String.length (JSString.strip_delimited_from open close pending s)
   <= String.length s
      + match pending with
        | None => 0
        | Some buf => 1 + String.length buf
        end)%nat.
Proof.
  revert pending. induction s as [|c s IH]; intros pending.
  - destruct pending; simpl; lia.
  - destruct pending as [buf|]; simpl.
    + destruct (Ascii.eqb c close).
      * specialize (IH None). simpl in IH. lia.
      * destruct (JSString.is_line_terminator c).
        -- simpl. rewrite length_append. simpl.
           specialize (IH None). simpl in IH. lia.
        -- specialize (IH (Some (buf +:+ String c EmptyString))).
           simpl in IH. rewrite length_append in IH. simpl in IH. lia.
    + destruct (Ascii.eqb c open).
      * specialize (IH (Some EmptyString)). simpl in IH. lia.
      * simpl. specialize (IH None). simpl in IH. lia.
Qed.

Lemma trimStart_length (s : string) :
  (String.length (JSString.trimStart s) <= String.length s)%nat.
Proof.
  induction s as [|c s IH]; [done|]. simpl.
  destruct (JSString.is_space c); simpl; lia.
Qed.

Lemma trimEnd_length (s : string) :
  (String.length (JSString.trimEnd s) <= String.length s)%nat.
Proof.
  induction s as [|c s IH]; [done|]. simpl.
  destruct (JSString.is_space c && JSString.is_empty _); simpl; lia.
Qed.

(** The text that [cleanText] returns is no longer than the text after
    its first replacement. *)
Lemma cleanText_length_collapsed (t : string) :
  (String.length (PDFHandler.cleanText t)
   <= String.length (JSString.collapse_spaces t))%nat.
Proof.
  unfold PDFHandler.cleanText, JSString.trim.
  unfold JSString.collapse_blank_lines.
  rewrite collapse_blank_lines_no_LF by apply collapse_spaces_no_LF.
  etransitivity; [apply trimEnd_length|].
  etransitivity; [apply trimStart_length|].
  etransitivity; [apply (strip_delimited_length _ _ None)|].
  rewrite Nat.add_0_r.
  etransitivity; [apply (strip_delimited_length _ _ None)|]. lia.
Qed.

Lemma terminated_ends_blank (ts : list string) :
  ts ≠ [] -> exists s, terminated ts = s +:+ PDFHandler.blank_line.
Proof.
  induction ts as [|t ts IH]; [done|]. intros _.
  rewrite terminated_cons. destruct ts as [|t' ts].
  - exists t. by rewrite append_empty_r.
  - destruct IH as [s Hs]; [done|]. rewrite Hs.
    exists (t +:+ PDFHandler.blank_line +:+ s).
    by rewrite <- !append_assoc.
Qed.

Lemma extractText_result (s e : option Z) (h h' : pdf_handler) (t : string) :
  PDFHandler.extractText s e h = (h', Ok t) -> extractedText h' = t.
Proof.
  unfold PDFHandler.extractText.
  destruct (pdfDoc h); [|discriminate]. cbv zeta.
  destruct (PDFHandler.all_pages _ _); [|discriminate].
  by intros [= <- <-].
Qed.

Lemma addFile_then_find (fileData : file_data) (a : app) :
  List.find (LibraryManager.has_id (id fileData))
    (library (store (snd (LibraryManager.addFile fileData a))))
  = Some fileData.
Proof.
  destruct (addFile_stored fileData a)
    as [(l1 & x & l2 & Hl & Hx & Hl1 & ->)|[Hnone ->]].
  - apply find_first; [|by apply has_id_true].
    intros y Hy. apply has_id_false. auto.
  - simpl. by rewrite (proj2 (has_id_true _ _) eq_refl).
Qed.

(** X22: an upload that is not a PDF file, or that the PDF library cannot
    parse, changes neither the store, nor the playback state, nor the
    calls to the speech collaborator, nor the text, pages and document of
    the handler. *)
Theorem processFile_rejects_unreadable_file (f : file) (newId now : string)
    (a : app) :
  Utils.isPDFFile f = false \/ parsed f = None ->
  let a' := App.processFile f newId now a in
  store a' = store a /\ tts a' = tts a /\ speech a' = speech a
  /\ extractedText (pdf a') = extractedText (pdf a)
  /\ pages (pdf a') = pages (pdf a)
  /\ pdfDoc (pdf a') = pdfDoc (pdf a).
Proof.
  intros Hbad. cbv zeta. unfold App.processFile.
  destruct (Utils.isPDFFile f); [|done]. destruct Hbad as [|Hparse]; [done|].
  cbv zeta. cbn [negb].
  destruct (negb _ && negb (AuthManager.isLoggedIn a)); [done|].
  destruct (negb _ && negb (PremiumManager.isPremium a)); [done|].
  unfold PDFHandler.loadPDF. by rewrite Hparse.
Qed.

Lemma processFile_rejects_unreadable_file_witness :
  let f := {| file_name := "notes.txt"; file_size := 10;
              file_type := "text/plain"; parsed := None |} in
  let a' := App.processFile f "i7" "2024-01-03" Samples.full_free_library in
  store a' = store Samples.full_free_library
  /\ tts a' = tts Samples.full_free_library
  /\ speech a' = speech Samples.full_free_library
  /\ extractedText (pdf a') = extractedText (pdf Samples.full_free_library)
  /\ pages (pdf a') = pages (pdf Samples.full_free_library)
  /\ pdfDoc (pdf a') = pdfDoc (pdf Samples.full_free_library).
Proof.
  apply (processFile_rejects_unreadable_file
           {| file_name := "notes.txt"; file_size := 10;
              file_type := "text/plain"; parsed := None |}
           "i7" "2024-01-03" Samples.full_free_library).
  left. reflexivity.
Defined.

(** What an upload does when [canAddFile] lets the file in and the PDF
    library reads it. *)
Lemma processFile_of_readable (f : file) (doc : pdf_document)
    (newId now : string) (a : app) :
  Utils.isPDFFile f = true ->
  parsed f = Some doc ->
  LibraryManager.canAdd (LibraryManager.canAddFile a) = true ->
  let a' := App.processFile f newId now a in
  let raw := terminated (page_texts doc) in
  extractedText (pdf a') = raw
  /\ textLength (tts a') = length_number (PDFHandler.cleanText raw)
  /\ currentPosition (tts a') = Number.of_Z 0
  /\ LibraryManager.getFile newId a'
     = Some (LibraryManager.createFileData f (PDFHandler.cleanText raw)
               newId now).
Proof.
  intros Hpdf Hdoc Hcan. cbv zeta.
  unfold App.processFile. rewrite Hpdf. cbv zeta. cbn [negb].
  rewrite Hcan. cbn [negb andb orb].
  pose proof (extractText_of_loaded f doc (pdf a) Hdoc) as Hext.
  unfold PDFHandler.loadPDF in *. rewrite Hdoc in *. cbn [fst] in Hext.
  cbn [pdf emit set_pdf].
  destruct (PDFHandler.extractText None None _) as [h' [t|msg]] eqn:Hrun;
    [|discriminate Hext].
  cbn [snd] in Hext. injection Hext as ->.
  apply extractText_result in Hrun.
  split; [exact Hrun|]. split; [done|]. split; [done|].
  unfold LibraryManager.getFile, LibraryManager.getLibrary.
  cbn [store set_pdf emit TTSManager.loadText set_tts updateTextDisplay].
  match goal with
  | |- context [LibraryManager.addFile ?fd ?b] =>
      exact (addFile_then_find fd b)
  end.
Qed.

(** X23: after the upload of a readable PDF that [canAddFile] lets in,
    the handler holds the extracted text as [extractText] built it, while
    the playback length is that of the cleaned text, and the position is
    0; for a document with at least one page the cleaned text is strictly
    shorter than the extracted text. *)
Theorem processFile_loads_cleaned_length (f : file) (doc : pdf_document)
    (newId now : string) (a : app) :
  Utils.isPDFFile f = true ->
  parsed f = Some doc ->
  LibraryManager.canAdd (LibraryManager.canAddFile a) = true ->
  let a' := App.processFile f newId now a in
  let raw := terminated (page_texts doc) in
  extractedText (pdf a') = raw
  /\ textLength (tts a') = length_number (PDFHandler.cleanText raw)
  /\ currentPosition (tts a') = Number.of_Z 0
  /\ (doc ≠ [] ->
      (String.length (PDFHandler.cleanText raw) < String.length raw)%nat).
Proof.
  intros Hpdf Hdoc Hcan. cbv zeta.
  destruct (processFile_of_readable f doc newId now a Hpdf Hdoc Hcan)
    as (Hraw & Hlen & Hpos & _).
  split; [exact Hraw|]. split; [exact Hlen|]. split; [exact Hpos|].
  intros Hne.
  destruct (terminated_ends_blank (page_texts doc)) as [s Hs].
  { unfold page_texts. by destruct doc. }
  eapply Nat.le_lt_trans; [apply cleanText_length_collapsed|].
  rewrite Hs. unfold JSString.collapse_spaces.
  eapply Nat.le_lt_trans; [apply collapse_spaces_blank_line|].
  rewrite length_append. simpl. lia.
Qed.

Lemma processFile_loads_cleaned_length_witness :
  let a' := processFiles [Samples.one_upload] initial in
  extractedText (pdf a') = "Hi." +:+ PDFHandler.blank_line
  /\ String.length (extractedText (pdf a')) = 5%nat
  /\ textLength (tts a') = Number.of_Z 3
  /\ currentPosition (tts a') = Number.of_Z 0.
Proof.
  cbv zeta.
  destruct (processFile_loads_cleaned_length
              (Samples.pdf_file "a.pdf" [Samples.one_line_page "Hi."])
              [Samples.one_line_page "Hi."] "i7" "2024-01-03T00:00:00.000Z"
              initial eq_refl eq_refl eq_refl)
    as (Hraw & Hlen & Hpos & _).
  split; [exact Hraw|]. split; [exact (f_equal String.length Hraw)|].
  split; [exact Hlen|exact Hpos].
Defined.

(** Whatever document was uploaded, the item that the upload stored is
    rebuilt by [loadFromLibrary] as one page. *)
Lemma loadFromLibrary_after_processFile (f : file) (doc : pdf_document)
    (newId now : string) (a b : app) :
  Utils.isPDFFile f = true ->
  parsed f = Some doc ->
  LibraryManager.canAdd (LibraryManager.canAddFile a) = true ->
  exists fd,
    LibraryManager.getFile newId (App.processFile f newId now a) = Some fd
    /\ text fd = PDFHandler.cleanText (terminated (page_texts doc))
    /\ totalPages (pdf (PDFHandler.loadFromLibrary fd b)) = 1.
Proof.
  intros Hpdf Hdoc Hcan.
  destruct (processFile_of_readable f doc newId now a Hpdf Hdoc Hcan)
    as (_ & _ & _ & Hget).
  eexists. split; [exact Hget|]. split; [reflexivity|].
  by apply (loadFromLibrary_of_cleaned (terminated (page_texts doc))).
Qed.

(** ** Loading from the library *)

Lemma of_Z_not_NaN (z : Z) : Number.isNaN (Number.of_Z z) = false.
Proof.
  unfold Number.of_Z, binary_normalize. destruct z as [|p|p]; [done| |];
    unfold binary_round; destruct (shl_align _ _ _) as [mz ez];
    by apply binary_round_aux_not_NaN.
Qed.

Lemma floor_not_NaN (x : number) :
  Number.isNaN x = false -> Number.isNaN (Number.floor x) = false.
Proof.
  destruct x as [s|s| |s m e]; try done. intros _. simpl.
  destruct (0 <=? e); [done|].
  destruct (Number.floorZ s m e =? 0); [done|]. apply of_Z_not_NaN.
Qed.

(** [setPosition] leaves a position inside the text. *)
Lemma setPosition_in_text (n : number) (a : app) :
  Number.is_length (textLength (tts a)) = true ->
  Number.isNaN n = false ->
  position_in_text (TTSManager.setPosition n a).
Proof.
  intros HL Hn.
  destruct (is_length_facts _ HL) as (HLnan & _ & _ & H0L).
  unfold position_in_text. cbn.
  destruct (min_le_r n (textLength (tts a)) Hn HLnan) as [Hm HmL].
  exact (max_zero_bounds _ _ Hm HmL H0L).
Qed.

(** The steps of [loadFromLibrary]: the text is loaded, then the
    position is restored if the stored progress is positive; what follows
    writes the page only. *)
Lemma loadFromLibrary_steps (fd : file_data) (a : app) :
  exists a1,
    extractedText (pdf a1) = text fd
    /\ textLength (tts a1) = length_number (text fd)
    /\ currentPosition (tts a1) = Number.of_Z 0
    /\ isPlaying (tts a1) = isPlaying (tts a)
    /\ store a1 = store a
    /\ speech a1 = speech a
    /\ PDFHandler.loadFromLibrary fd a
       = updateTextDisplay (Number.of_Z 0)
           (emit (DocTitle (name fd))
              (if Number.ltb (Number.of_Z 0) (progress fd)
               then TTSManager.setPosition
                      (PDFHandler.getPositionAtProgress (progress fd) (pdf a1))
                      a1
               else a1)).
Proof.
  exists (TTSManager.loadText (text fd)
            (emit (ShowModal "player")
               (set_pdf
                  {| pdfDoc := pdfDoc (pdf a);
                     currentFile :=
                       Some (name fd, size fd, "application/pdf"%string);
                     extractedText := text fd;
                     pages :=
                       PDFHandler.rebuild_pages 0
                         (JSString.split_blank (text fd));
                     totalPages :=
                       Z.of_nat
                         (length (PDFHandler.rebuild_pages 0
                                    (JSString.split_blank (text fd)))) |}
                  a))).
  repeat split.
Qed.

(** X24: [loadFromLibrary] leaves the player consistent with the cached
    text, for every stored finite progress: the handler holds the text,
    the playback length is its length, and the position lies between 0
    and that length (it is 0 unless the stored progress is positive).
    The store is not written, the speech collaborator is not called and
    the playing flag is not reset. *)
Theorem loadFromLibrary_loads_consistent_state (fd : file_data) (a : app) :
  Z.of_nat (String.length (text fd)) < 2 ^ 53 ->
  Number.is_finite (progress fd) = true ->
  Number.valid (progress fd) = true ->
  let a' := PDFHandler.loadFromLibrary fd a in
  extractedText (pdf a') = text fd
  /\ textLength (tts a') = length_number (text fd)
  /\ position_in_text a'
  /\ (Number.ltb (Number.of_Z 0) (progress fd) = false ->
      currentPosition (tts a') = Number.of_Z 0)
  /\ store a' = store a
  /\ speech a' = speech a
  /\ isPlaying (tts a') = isPlaying (tts a).
Proof.
  intros Hlen Hfin Hvalid. cbv zeta.
  pose proof (length_number_is_length (text fd) Hlen) as HL.
  destruct (is_length_facts _ HL) as (_ & HLfin & _ & H0L).
  destruct (loadFromLibrary_steps fd a)
    as (a1 & Htext & Hlength & Hstart & Hplaying & Hstore & Hspeech & Hrun).
  rewrite Hrun.
  destruct (Number.ltb (Number.of_Z 0) (progress fd)) eqn:Hpos.
  - repeat split; try done.
    + apply setPosition_in_text; [by rewrite Hlength|].
      apply floor_not_NaN, mul_not_NaN; [by apply div_100_finite|].
      by rewrite Htext.
    + apply setPosition_in_text; [by rewrite Hlength|].
      apply floor_not_NaN, mul_not_NaN; [by apply div_100_finite|].
      by rewrite Htext.
  - cbn. split; [done|]. split; [done|]. split; [|by repeat split].
    unfold position_in_text. cbn. by rewrite Hstart, Hlength.
Qed.

Lemma loadFromLibrary_loads_consistent_state_witness :
  let fd := LibraryManager.set_progress (Number.of_Z 50) "2024-01-02"
              (Samples.cached "hello world") in
  let a' := PDFHandler.loadFromLibrary fd initial in
  extractedText (pdf a') = text fd
  /\ textLength (tts a') = length_number (text fd)
  /\ position_in_text a'
  /\ (Number.ltb (Number.of_Z 0) (progress fd) = false ->
      currentPosition (tts a') = Number.of_Z 0)
  /\ store a' = store initial
  /\ speech a' = speech initial
  /\ isPlaying (tts a') = isPlaying (tts initial).
Proof.
  apply (loadFromLibrary_loads_consistent_state
           (LibraryManager.set_progress (Number.of_Z 50) "2024-01-02"
              (Samples.cached "hello world")) initial).
  - vm_compute. reflexivity.
  - reflexivity.
  - reflexivity.
Defined.

(** ** Lines of a page *)

Lemma join_app (sep : string) (l1 l2 : list string) :
  l1 ≠ [] -> l2 ≠ [] ->
  JSString.join sep (l1 ++ l2)
  = JSString.join sep l1 +:+ sep +:+ JSString.join sep l2.
Proof.
  intros H1 H2. induction l1 as [|p l1 IH]; [done|].
  destruct l1 as [|q l1].
  - destruct l2 as [|r l2]; [done|]. reflexivity.
  - change (JSString.join sep ((p :: q :: l1) ++ l2))
      with (p +:+ sep +:+ JSString.join sep ((q :: l1) ++ l2)).
    rewrite IH by done.
    change (JSString.join sep (p :: q :: l1))
      with (p +:+ sep +:+ JSString.join sep (q :: l1)).
    by rewrite !append_assoc.
Qed.

Lemma join_snoc (sep : string) (l : list string) (p : string) :
  l ≠ [] -> JSString.join sep (l ++ [p]) = JSString.join sep l +:+ sep +:+ p.
Proof. intros Hl. by rewrite join_app. Qed.

(** The items read so far without a jump stay in the current line. *)
Lemma group_lines_one_line (items line : list text_item) (x : text_item) :
  on_one_line (x :: items) = true ->
  PDFHandler.group_lines items (line ++ [x]) (Some (transform5 x))
  = [JSString.join " " (List.map str (line ++ [x] ++ items))].
Proof.
  revert line x. induction items as [|y items IH]; intros line x Hone.
  - cbn [PDFHandler.group_lines]. rewrite app_nil_r.
    by destruct (line ++ [x]) eqn:Hl; [destruct line|].
  - cbn [on_one_line] in Hone. apply andb_true_iff in Hone as [Hxy Hone].
    apply negb_true_iff in Hxy. unfold jumps in Hxy.
    cbn [PDFHandler.group_lines]. rewrite Hxy.
    rewrite (IH (line ++ [x]) y Hone). by rewrite <- !app_assoc.
Qed.

Lemma group_lines_start (items : list text_item) (y : text_item) :
  PDFHandler.group_lines (y :: items) [] None
  = PDFHandler.group_lines items [y] (Some (transform5 y)).
Proof. reflexivity. Qed.

Lemma group_lines_not_empty (items line : list text_item) (x : text_item)
    (lastY : option number) :
  PDFHandler.group_lines items (line ++ [x]) lastY ≠ [].
Proof.
  revert line x lastY. induction items as [|y items IH]; intros line x lastY.
  - cbn [PDFHandler.group_lines]. by destruct (line ++ [x]) eqn:Hl;
      [destruct line|].
  - cbn [PDFHandler.group_lines].
    destruct (match lastY with Some _ => _ | None => false end).
    + destruct (line ++ [x]) eqn:Hl; [by destruct line|]. done.
    + apply IH.
Qed.

(** The lines split where the vertical coordinate jumps. *)
Lemma group_lines_jump (l1 l2 line : list text_item) (x y : text_item)
    (lastY : option number) :
  jumps x y = true ->
  PDFHandler.group_lines (l1 ++ x :: y :: l2) line lastY
  = PDFHandler.group_lines (l1 ++ [x]) line lastY
    ++ PDFHandler.group_lines (y :: l2) [] None.
Proof.
  intros Hxy. revert line lastY. induction l1 as [|z l1 IH]; intros line lastY.
  - change ([] ++ x :: y :: l2) with (x :: y :: l2).
    change ([] ++ [x]) with [x].
    cbn [PDFHandler.group_lines]. unfold jumps in Hxy. rewrite Hxy.
    destruct (match lastY with Some _ => _ | None => false end).
    + by rewrite <- app_assoc.
    + destruct (line ++ [x]) eqn:Hl; [by destruct line|]. done.
  - rewrite <- !app_comm_cons. cbn [PDFHandler.group_lines].
    destruct (match lastY with Some _ => _ | None => false end).
    + by rewrite IH, app_assoc.
    + apply IH.
Qed.

(** X25: [extractPageText] gives the text of the requested page, in which
    the items are grouped into lines by their vertical coordinate: items
    of which none is more than 5 away from the item before it form one
    line, their strings joined by single spaces; and where an item is
    more than 5 away from the item before it the text splits, into the
    text of the items before, a line feed, and the text of the items
    from there on. *)
Theorem extractPageText_splits_lines_at_jumps (doc : pdf_document) (n : nat)
    (items : list text_item) :
  doc !! n = Some items ->
  PDFHandler.extractPageText doc (Z.of_nat n + 1)
  = Ok (PDFHandler.lines_of_page items)
  /\ (on_one_line items = true ->
      PDFHandler.lines_of_page items
      = JSString.join " " (List.map str items))
  /\ (forall l1 x y l2,
        items = l1 ++ x :: y :: l2 -> jumps x y = true ->
        PDFHandler.lines_of_page items
        = PDFHandler.lines_of_page (l1 ++ [x])
          +:+ String JSString.LF EmptyString
          +:+ PDFHandler.lines_of_page (y :: l2)).
Proof.
  intros Hn. split; [|split].
  - unfold PDFHandler.extractPageText.
    pose proof (lookup_lt_Some _ _ _ Hn) as Hlt.
    replace ((1 <=? Z.of_nat n + 1) && (Z.of_nat n + 1 <=? Z.of_nat (length doc)))
      with true
      by (symmetry; apply andb_true_iff; split; apply Z.leb_le; lia).
    replace (Z.to_nat (Z.of_nat n + 1 - 1)) with n by lia. by rewrite Hn.
  - intros Hone. unfold PDFHandler.lines_of_page.
    destruct items as [|x items]; [done|].
    rewrite group_lines_start.
    pose proof (group_lines_one_line items [] x Hone) as Hline.
    change ([] ++ [x]) with [x] in Hline.
    change ([] ++ [x] ++ items) with (x :: items) in Hline.
    by rewrite Hline.
  - intros l1 x y l2 -> Hxy. unfold PDFHandler.lines_of_page.
    rewrite (group_lines_jump l1 l2 [] x y None Hxy).
    rewrite join_app; [done| |].
    + destruct l1 as [|z l1]; simpl.
      * done.
      * apply (group_lines_not_empty (l1 ++ [x]) [] z).
    + rewrite group_lines_start. apply (group_lines_not_empty l2 [] y).
Qed.

Lemma extractPageText_splits_lines_at_jumps_witness :
  let items :=
    [{| str := "a"; transform5 := Number.of_Z 700 |};
     {| str := "b"; transform5 := Number.of_Z 698 |};
     {| str := "c"; transform5 := Number.of_Z 680 |}] in
  PDFHandler.extractPageText [items] (Z.of_nat 0 + 1)
  = Ok (PDFHandler.lines_of_page items)
  /\ (on_one_line items = true ->
      PDFHandler.lines_of_page items
      = JSString.join " " (List.map str items))
  /\ (forall l1 x y l2,
        items = l1 ++ x :: y :: l2 -> jumps x y = true ->
        PDFHandler.lines_of_page items
        = PDFHandler.lines_of_page (l1 ++ [x])
          +:+ String JSString.LF EmptyString
          +:+ PDFHandler.lines_of_page (y :: l2)).
Proof.
  apply (extractPageText_splits_lines_at_jumps
           [[{| str := "a"; transform5 := Number.of_Z 700 |};
             {| str := "b"; transform5 := Number.of_Z 698 |};
             {| str := "c"; transform5 := Number.of_Z 680 |}]] 0).
  reflexivity.
Defined.

(** ** Page ranges *)

(** The page requests for the pages in the middle of a document. *)
Lemma all_pages_range (pre mid post : pdf_document) :
  PDFHandler.all_pages (pre ++ mid ++ post)
    (seqZ (1 + Z.of_nat (length pre)) (Z.of_nat (length mid)))
  = Ok (page_texts mid).
Proof.
  revert pre. induction mid as [|items mid IH]; intros pre; [done|].
  rewrite seqZ_cons by (simpl; lia).
  cbn [PDFHandler.all_pages]. unfold PDFHandler.extractPageText.
  replace ((1 <=? 1 + Z.of_nat (length pre))
           && (1 + Z.of_nat (length pre)
               <=? Z.of_nat (length (pre ++ (items :: mid) ++ post))))
    with true
    by (symmetry; rewrite !length_app; simpl; apply andb_true_iff; split;
        apply Z.leb_le; lia).
  replace (Z.to_nat (1 + Z.of_nat (length pre) - 1)) with (length pre) by lia.
  change ((items :: mid) ++ post) with (items :: (mid ++ post)).
  rewrite list_lookup_middle by done.
  specialize (IH (pre ++ [items])).
  rewrite <- app_assoc in IH. simpl in IH.
  replace (Z.succ (1 + Z.of_nat (length pre)))
    with (1 + Z.of_nat (length (pre ++ [items])))
    by (rewrite length_app; simpl; lia).
  replace (Z.pred (Z.of_nat (length (items :: mid))))
    with (Z.of_nat (length mid)) by (simpl; lia).
  by rewrite IH.
Qed.

Lemma append_pages_numbers (n : Z) (ts : list string) (h : pdf_handler) :
  List.map page_no (pages (PDFHandler.append_pages n ts h))
  = List.map page_no (pages h) ++ seqZ n (Z.of_nat (length ts)).
Proof.
  revert n h. induction ts as [|t ts IH]; intros n h.
  - simpl. by rewrite app_nil_r.
  - cbn [PDFHandler.append_pages]. rewrite IH.
    cbn [pages PDFHandler.set_text].
    rewrite map_app, <- app_assoc. f_equal. simpl.
    rewrite (seqZ_cons n) by lia. f_equal. f_equal; lia.
Qed.

Lemma append_pages_sentences (n : Z) (ts : list string) (h : pdf_handler) :
  List.map sentences (pages (PDFHandler.append_pages n ts h))
  = List.map sentences (pages h)
    ++ List.map PDFHandler.splitIntoSentences ts.
Proof.
  revert n h. induction ts as [|t ts IH]; intros n h.
  - simpl. by rewrite app_nil_r.
  - cbn [PDFHandler.append_pages]. rewrite IH.
    cbn [pages PDFHandler.set_text]. by rewrite map_app, <- app_assoc.
Qed.

Lemma append_pages_totalPages (n : Z) (ts : list string) (h : pdf_handler) :
  totalPages (PDFHandler.append_pages n ts h) = totalPages h.
Proof.
  revert n h. induction ts as [|t ts IH]; intros n h; [done|].
  cbn [PDFHandler.append_pages]. by rewrite IH.
Qed.

(** X26: [extractText({startPage, endPage})] for a range of pages of the
    loaded document returns the text of exactly these pages, each
    followed by a blank line; the handler holds one page record for each,
    numbered from [startPage], with its text and sentences, and
    [totalPages] still counts the pages of the document.  An empty range
    ([endPage = startPage - 1]) gives the empty text. *)
Theorem extractText_of_page_range (pre mid post : pdf_document)
    (h : pdf_handler) :
  pdfDoc h = Some (pre ++ mid ++ post) ->
  let first := 1 + Z.of_nat (length pre) in
  let last := Z.of_nat (length pre) + Z.of_nat (length mid) in
  let r := PDFHandler.extractText (Some first) (Some last) h in
  snd r = Ok (terminated (page_texts mid))
  /\ extractedText (fst r) = terminated (page_texts mid)
  /\ List.map page_text (pages (fst r)) = page_texts mid
  /\ List.map page_no (pages (fst r)) = seqZ first (Z.of_nat (length mid))
  /\ List.map sentences (pages (fst r))
     = List.map PDFHandler.splitIntoSentences (page_texts mid)
  /\ totalPages (fst r) = totalPages h.
Proof.
  intros Hdoc. cbv zeta. unfold PDFHandler.extractText. rewrite Hdoc.
  cbn [default from_option]. unfold Datatypes.id.
  replace (Z.of_nat (length pre) + Z.of_nat (length mid)
           - (1 + Z.of_nat (length pre)) + 1)
    with (Z.of_nat (length mid)) by lia.
  rewrite all_pages_range. cbn [fst snd].
  rewrite append_pages_text, append_pages_pages, append_pages_numbers,
    append_pages_sentences, append_pages_totalPages.
  cbn [extractedText pages totalPages PDFHandler.set_text map].
  assert (length (page_texts mid) = length mid) as ->
    by (unfold page_texts; apply length_map).
  rewrite append_empty_l. done.
Qed.

Lemma extractText_of_page_range_witness :
  let h := fst (PDFHandler.loadPDF
                  (Samples.pdf_file "a.pdf"
                     [Samples.one_line_page "a"; Samples.one_line_page "b";
                      Samples.one_line_page "c"]) (pdf initial)) in
  let r := PDFHandler.extractText (Some 2) (Some 2) h in
  snd r = Ok (terminated ["b"%string])
  /\ extractedText (fst r) = terminated ["b"%string]
  /\ List.map page_text (pages (fst r)) = ["b"%string]
  /\ List.map page_no (pages (fst r)) = [2]
  /\ List.map sentences (pages (fst r)) = [["b"%string]]
  /\ totalPages (fst r) = 3.
Proof.
  apply (extractText_of_page_range
           [Samples.one_line_page "a"] [Samples.one_line_page "b"]
           [Samples.one_line_page "c"]
           (fst (PDFHandler.loadPDF
                   (Samples.pdf_file "a.pdf"
                      [Samples.one_line_page "a"; Samples.one_line_page "b";
                       Samples.one_line_page "c"]) (pdf initial)))).
  reflexivity.
Defined.

Lemma all_pages_rejects (doc : pdf_document) (nums : list Z) (n : Z) :
  n ∈ nums -> n < 1 \/ Z.of_nat (length doc) < n ->
  exists msg, PDFHandler.all_pages doc nums = Throw msg.
Proof.
  intros Hin Hbad. induction nums as [|k nums IH]; [inversion Hin|].
  cbn [PDFHandler.all_pages].
  destruct (PDFHandler.extractPageText doc k) as [t|msg] eqn:Hk;
    [|by exists msg].
  apply elem_of_cons in Hin as [->|Hin].
  - exfalso. revert Hk. unfold PDFHandler.extractPageText.
    replace ((1 <=? k) && (k <=? Z.of_nat (length doc))) with false; [done|].
    symmetry. apply andb_false_iff.
    destruct Hbad; [left|right]; apply Z.leb_gt; lia.
  - destruct (IH Hin) as [msg ->]. by exists msg.
Qed.

(** X27: [extractText] without a loaded document throws 'No PDF loaded'
    and leaves the handler as it is.  With a document, a non-empty
    range that starts before page 1 or ends after the last page makes it
    throw after the text and the pages of the handler have been reset:
    the previous text is lost. *)
Theorem extractText_failure_resets_text (startPage endPage : option Z)
    (h : pdf_handler) :
  let r := PDFHandler.extractText startPage endPage h in
  (pdfDoc h = None -> r = (h, Throw "No PDF loaded"))
  /\ (forall doc,
        pdfDoc h = Some doc ->
        let first := default 1 startPage in
        let last := default (totalPages h) endPage in
        first <= last ->
        first < 1 \/ Z.of_nat (length doc) < last ->
        exists msg,
          snd r = Throw msg
          /\ extractedText (fst r) = EmptyString
          /\ pages (fst r) = []
          /\ pdfDoc (fst r) = Some doc).
Proof.
  cbv zeta. unfold PDFHandler.extractText. split; [by intros ->|].
  intros doc Hdoc Hle Hbad. rewrite Hdoc.
  set (first := default 1 startPage) in *.
  set (last := default (totalPages h) endPage) in *.
  assert (exists n, n ∈ seqZ first (last - first + 1)
                    /\ (n < 1 \/ Z.of_nat (length doc) < n)) as (n & Hn & Hout).
  { destruct Hbad; [exists first | exists last];
      (split; [apply elem_of_seqZ; lia | auto]). }
  destruct (all_pages_rejects doc _ n Hn Hout) as [msg Hrun].
  exists msg. rewrite Hrun. by cbn.
Qed.

(** ** Sentences *)

Lemma trimEnd_idempotent (s : string) :
  JSString.trimEnd (JSString.trimEnd s) = JSString.trimEnd s.
Proof.
  induction s as [|c s IH]; [done|]. cbn [JSString.trimEnd].
  destruct (JSString.is_space c && JSString.is_empty (JSString.trimEnd s))
    eqn:Hc; [done|].
  cbn [JSString.trimEnd]. by rewrite IH, Hc.
Qed.

Lemma trimStart_fixed (s : string) :
  match s with
  | EmptyString => true
  | String c _ => negb (JSString.is_space c)
  end = true ->
  JSString.trimStart s = s.
Proof.
  destruct s as [|c s]; [done|]. simpl.
  by destruct (JSString.is_space c).
Qed.

Lemma trimStart_head (s : string) :
  match JSString.trimStart s with
  | EmptyString => true
  | String c _ => negb (JSString.is_space c)
  end = true.
Proof.
  induction s as [|c s IH]; [done|]. simpl.
  destruct (JSString.is_space c) eqn:Hc; [done|]. simpl. by rewrite Hc.
Qed.

Lemma trimEnd_head (s : string) :
  match s with
  | EmptyString => true
  | String c _ => negb (JSString.is_space c)
  end = true ->
  match JSString.trimEnd s with
  | EmptyString => true
  | String c _ => negb (JSString.is_space c)
  end = true.
Proof.
  destruct s as [|c s]; [done|]. intros Hc. cbn [JSString.trimEnd].
  apply negb_true_iff in Hc. rewrite Hc. cbn [andb]. by rewrite Hc.
Qed.

(** [trim] leaves a trimmed string alone. *)
Lemma trim_idempotent (s : string) :
  JSString.trim (JSString.trim s) = JSString.trim s.
Proof.
  unfold JSString.trim.
  rewrite (trimStart_fixed (JSString.trimEnd (JSString.trimStart s)))
    by apply trimEnd_head, trimStart_head.
  apply trimEnd_idempotent.
Qed.

Lemma match_sentences_none (s : string) :
  no_sentence_end s = true ->
  PDFHandler.match_sentences PDFHandler.Before s = []
  /\ forall m, PDFHandler.match_sentences (PDFHandler.Body m) s = [].
Proof.
  induction s as [|c s IH]; [done|]. cbn [no_sentence_end].
  intros [Hc Hs]%andb_true_iff. apply negb_true_iff in Hc.
  destruct (IH Hs) as [_ Hbody].
  split; [|intros m]; cbn [PDFHandler.match_sentences]; rewrite Hc;
    apply Hbody.
Qed.

(** X28: every sentence that [splitIntoSentences] returns is non-empty and
    has no white space at either end; a text without [.], [!] and [?] is
    returned whole, trimmed, as its only sentence, and gives no sentence
    if it is blank. *)
Theorem splitIntoSentences_gives_trimmed_sentences (t : string) :
  (forall s, s ∈ PDFHandler.splitIntoSentences t ->
     s ≠ EmptyString /\ JSString.trim s = s)
  /\ (no_sentence_end t = true ->
      PDFHandler.splitIntoSentences t
      = if JSString.is_empty (JSString.trim t) then [] else [JSString.trim t]).
Proof.
  split.
  - intros s Hs. unfold PDFHandler.splitIntoSentences in Hs. cbv zeta in Hs.
    apply list_elem_of_In, filter_In in Hs as [Hs Hne].
    apply in_map_iff in Hs as (m & <- & _). split.
    + intros Hempty. by rewrite Hempty in Hne.
    + apply trim_idempotent.
  - intros Hnone. unfold PDFHandler.splitIntoSentences. cbv zeta.
    rewrite (proj1 (match_sentences_none t Hnone)). simpl.
    by destruct (JSString.is_empty (JSString.trim t)).
Qed.

(** ** Cleaning the text *)

Section CharFacts.
Variable P : ascii -> bool.

Lemma all_chars_append (s t : string) :
  all_chars P (s +:+ t) = all_chars P s && all_chars P t.
Proof.
  induction s as [|c s IH]; [done|].
  rewrite append_cons. simpl. by rewrite IH, andb_assoc.
Qed.

Lemma all_chars_subseq (s t : string) :
  subseq s t -> all_chars P t = true -> all_chars P s = true.
Proof.
  induction 1 as [|c s t _ IH|c s t _ IH]; [done|..]; simpl;
    intros [Hc Ht]%andb_true_iff; [by apply IH|].
  rewrite Hc. by apply IH.
Qed.

End CharFacts.

Lemma subseq_refl (s : string) : subseq s s.
Proof. induction s; by constructor. Qed.

Lemma subseq_empty_l (s : string) : subseq EmptyString s.
Proof. induction s; by constructor. Qed.

Lemma subseq_drop_prefix (u s t : string) : subseq s t -> subseq s (u +:+ t).
Proof.
  intros H. induction u as [|c u IH]; [done|].
  rewrite append_cons. by constructor.
Qed.

Lemma subseq_append (u s t : string) : subseq s t -> subseq (u +:+ s) (u +:+ t).
Proof.
  intros H. induction u as [|c u IH]; [done|].
  rewrite !append_cons. by constructor.
Qed.

Lemma contains_subseq (c : ascii) (s t : string) :
  subseq s t -> contains c s = true -> contains c t = true.
Proof.
  induction 1 as [|d s t _ IH|d s t _ IH]; [done|..]; simpl.
  - intros Hs. rewrite (IH Hs). apply orb_true_r.
  - intros [->|Hs]%orb_true_iff; [done|]. rewrite (IH Hs). apply orb_true_r.
Qed.

Lemma has_pair_subseq (open close : ascii) (s t : string) :
  subseq s t -> has_pair open close s = true -> has_pair open close t = true.
Proof.
  induction 1 as [|d s t Hst IH|d s t Hst IH]; [done|..]; simpl.
  - intros Hs. rewrite (IH Hs). apply orb_true_r.
  - intros [[-> Hc]%andb_true_iff|Hs]%orb_true_iff.
    + by rewrite (contains_subseq _ _ _ Hst Hc).
    + rewrite (IH Hs). apply orb_true_r.
Qed.

Lemma trimStart_subseq (s : string) : subseq (JSString.trimStart s) s.
Proof.
  induction s as [|c s IH]; [constructor|]. simpl.
  destruct (JSString.is_space c); [by apply subseq_skip | apply subseq_refl].
Qed.

Lemma trimEnd_subseq (s : string) : subseq (JSString.trimEnd s) s.
Proof.
  induction s as [|c s IH]; [constructor|]. simpl.
  destruct (JSString.is_space c && _);
    [apply subseq_empty_l | by apply subseq_keep].
Qed.

(** What [strip_delimited_from] returns is its input, the pending text
    included, with some characters left out. *)
Lemma strip_delimited_subseq (open close : ascii) (pending : option string)
    (s : string) :
  subseq (JSString.strip_delimited_from open close pending s)
         (match pending with
          | None => s
          | Some buf => String open (buf +:+ s)
          end).
Proof.
  revert pending. induction s as [|c s IH]; intros pending.
  - destruct pending as [buf|]; simpl; [|constructor].
    rewrite append_empty_r. apply subseq_refl.
  - destruct pending as [buf|]; simpl.
    + destruct (Ascii.eqb c close).
      * apply subseq_skip, subseq_drop_prefix, subseq_skip. apply (IH None).
      * destruct (JSString.is_line_terminator c).
        -- apply subseq_keep, subseq_append, subseq_keep. apply (IH None).
        -- specialize (IH (Some (buf +:+ String c EmptyString))).
           simpl in IH. by rewrite append_assoc in IH.
    + destruct (Ascii.eqb_spec c open) as [->|Hne].
      * apply (IH (Some EmptyString)).
      * apply subseq_keep. apply (IH None).
Qed.

Lemma collapse_spaces_plain (b : bool) (s : string) :
  all_chars (fun c => negb (is_odd_space c))
            (JSString.collapse_spaces_from b s) = true.
Proof.
  revert b. induction s as [|c s IH]; intros b; [done|]. simpl.
  destruct (JSString.is_space c) eqn:Hc.
  - destruct b; [apply IH|]. simpl. apply IH.
  - simpl. unfold is_odd_space at 1. rewrite Hc. simpl. apply IH.
Qed.

Lemma odd_space_LF (c : ascii) :
  negb (is_odd_space c) = true -> negb (JSString.is_LF c) = true.
Proof.
  unfold is_odd_space, JSString.is_LF.
  destruct (Ascii.eqb_spec c JSString.LF) as [->|]; [done|done].
Qed.

(** Every line feed is gone after the first replacement of [cleanText];
    the second one finds nothing to replace. *)
Lemma cleanText_without_second_replace (t : string) :
  PDFHandler.cleanText t
  = JSString.trim
      (JSString.strip_delimited "(" ")"
         (JSString.strip_delimited "[" "]" (JSString.collapse_spaces t))).
Proof.
  unfold PDFHandler.cleanText, JSString.collapse_blank_lines.
  by rewrite collapse_blank_lines_no_LF by apply collapse_spaces_no_LF.
Qed.

Lemma trim_subseq (s : string) : subseq (JSString.trim s) s.
Proof.
  unfold JSString.trim. induction s as [|c s IH]; [constructor|].
  cbn [JSString.trimStart]. destruct (JSString.is_space c).
  - by apply subseq_skip.
  - apply trimEnd_subseq.
Qed.

(** X29: [cleanText] normalises the white space: its result holds no
    white-space character other than the plain space (no line feed,
    carriage return, tab or no-break space), has no white space at
    either end, and is no longer than the text given.  Every line feed
    is gone after the first replacement, so the second one, of blank
    lines, never matches. *)
Theorem cleanText_normalises_white_space (t : string) :
  all_chars (fun c => negb (is_odd_space c)) (PDFHandler.cleanText t) = true
  /\ JSString.trim (PDFHandler.cleanText t) = PDFHandler.cleanText t
  /\ (String.length (PDFHandler.cleanText t) <= String.length t)%nat
  /\ PDFHandler.cleanText t
     = JSString.trim
         (JSString.strip_delimited "(" ")"
            (JSString.strip_delimited "[" "]" (JSString.collapse_spaces t))).
Proof.
  pose proof (cleanText_without_second_replace t) as Hdead.
  split; [|split; [|split]]; [| | |exact Hdead].
  - rewrite Hdead.
    eapply all_chars_subseq; [apply trim_subseq|].
    eapply all_chars_subseq;
      [apply (strip_delimited_subseq "(" ")" None)|].
    eapply all_chars_subseq;
      [apply (strip_delimited_subseq "[" "]" None)|].
    apply collapse_spaces_plain.
  - unfold PDFHandler.cleanText. apply trim_idempotent.
  - etransitivity; [apply cleanText_length_collapsed|].
    apply collapse_spaces_length.
Qed.

Lemma contains_append (c : ascii) (s t : string) :
  contains c (s +:+ t) = contains c s || contains c t.
Proof.
  induction s as [|d s IH]; [done|].
  rewrite append_cons. simpl. by rewrite IH, orb_assoc.
Qed.

Lemma has_pair_needs_close (open close : ascii) (s : string) :
  contains close s = false -> has_pair open close s = false.
Proof.
  induction s as [|d s IH]; [done|]. simpl.
  intros [_ Hs]%orb_false_iff. rewrite Hs, andb_false_r. by apply IH.
Qed.

(** Without line terminators in the text, no delimited span is left. *)
Lemma strip_delimited_no_pair (open close : ascii) (pending : option string)
    (s : string) :
  all_chars (fun c => negb (JSString.is_line_terminator c)) s = true ->
  from_option (fun buf => negb (contains close buf)) true pending = true ->
  has_pair open close (JSString.strip_delimited_from open close pending s)
  = false.
Proof.
  revert pending. induction s as [|c s IH]; intros pending Hs Hp.
  - destruct pending as [buf|]; [|done]. simpl in *.
    apply negb_true_iff in Hp. rewrite Hp, andb_false_r. simpl.
    by apply has_pair_needs_close.
  - simpl in Hs. apply andb_true_iff in Hs as [Hc Hs].
    apply negb_true_iff in Hc.
    destruct pending as [buf|]; simpl.
    + destruct (Ascii.eqb c close) eqn:Hclose; [by apply IH|].
      rewrite Hc. apply IH; [done|]. simpl in *.
      rewrite contains_append. simpl. rewrite Hclose.
      apply negb_true_iff in Hp. by rewrite Hp.
    + destruct (Ascii.eqb c open) eqn:Hopen; [by apply IH|].
      simpl. rewrite Hopen. simpl. by apply IH.
Qed.

Lemma odd_space_terminator (c : ascii) :
  negb (is_odd_space c) = true -> negb (JSString.is_line_terminator c) = true.
Proof.
  unfold is_odd_space, JSString.is_line_terminator.
  destruct (Ascii.eqb_spec c JSString.LF) as [->|]; [done|].
  destruct (Ascii.eqb_spec c JSString.CR) as [->|]; done.
Qed.

Lemma all_chars_impl (P Q : ascii -> bool) (s : string) :
  (forall c, P c = true -> Q c = true) ->
  all_chars P s = true -> all_chars Q s = true.
Proof.
  intros HPQ. induction s as [|c s IH]; [done|]. simpl.
  intros [Hc Hs]%andb_true_iff. by rewrite (HPQ c Hc), IH.
Qed.

(** X30: the text that [cleanText] returns holds no bracketed and no
    parenthesised span: no opening square bracket is followed, anywhere
    further on, by a closing one, and no opening parenthesis by a
    closing one. *)
Theorem cleanText_leaves_no_delimited_span (t : string) :
  has_pair "[" "]" (PDFHandler.cleanText t) = false
  /\ has_pair "(" ")" (PDFHandler.cleanText t) = false.
Proof.
  rewrite cleanText_without_second_replace.
  set (s0 := JSString.collapse_spaces t).
  set (s1 := JSString.strip_delimited "[" "]" s0).
  set (s2 := JSString.strip_delimited "(" ")" s1).
  assert (all_chars (fun c => negb (JSString.is_line_terminator c)) s0 = true)
    as H0.
  { apply (all_chars_impl _ _ _ odd_space_terminator).
    apply collapse_spaces_plain. }
  assert (all_chars (fun c => negb (JSString.is_line_terminator c)) s1 = true)
    as H1.
  { eapply all_chars_subseq; [apply (strip_delimited_subseq "[" "]" None)|].
    exact H0. }
  assert (has_pair "[" "]" s1 = false) as Hsquare
    by (by apply (strip_delimited_no_pair "[" "]" None)).
  assert (has_pair "(" ")" s2 = false) as Hround
    by (by apply (strip_delimited_no_pair "(" ")" None)).
  split.
  - destruct (has_pair "[" "]" (JSString.trim s2)) eqn:Hp; [|done].
    apply (has_pair_subseq _ _ _ _ (trim_subseq s2)) in Hp.
    apply (has_pair_subseq _ _ _ _ (strip_delimited_subseq "(" ")" None s1))
      in Hp.
    congruence.
  - destruct (has_pair "(" ")" (JSString.trim s2)) eqn:Hp; [|done].
    apply (has_pair_subseq _ _ _ _ (trim_subseq s2)) in Hp. congruence.
Qed.
